(** * Board core of the chess engine: mailbox, bitboards, make/unmake,
      static exchange evaluation and static evaluation.

    Shallow embedding of [assembly/board.ts] (class [Board] and the
    piece-square table builder).  Integers of the source are modelled as
    [Z] with their wrap-around written out; the fixed-size arrays of the
    class are lists updated by index. *)

From Stdlib Require Import ZArith Lia List Bool String.
From stdpp Require Import base list numbers.

Local Open Scope Z_scope.

(* ------------------------------------------------------------------ *)
(** ** Machine integers *)

Module Int.

(** Two's complement reading of the low [w] bits of [x]. *)
Definition wrap (w x : Z) : Z := (x + 2 ^ (w - 1)) mod 2 ^ w - 2 ^ (w - 1).

Definition i16 (x : Z) : Z := wrap 16 x.
Definition i32 (x : Z) : Z := wrap 32 x.
Definition u32 (x : Z) : Z := x mod 2 ^ 32.
Definition u64 (x : Z) : Z := x mod 2 ^ 64.

Definition in_i16 (x : Z) : Prop := - 2 ^ 15 <= x < 2 ^ 15.
Definition in_i32 (x : Z) : Prop := - 2 ^ 31 <= x < 2 ^ 31.
Definition in_u64 (x : Z) : Prop := 0 <= x < 2 ^ 64.

(** [i32] arithmetic of the source: every result is wrapped. *)
Definition add32 (a b : Z) : Z := i32 (a + b).
Definition sub32 (a b : Z) : Z := i32 (a - b).
Definition mul32 (a b : Z) : Z := i32 (a * b).
(** Signed division truncates toward zero. *)
Definition div32 (a b : Z) : Z := i32 (Z.quot a b).
(** The shift count of a 32-bit shift is taken modulo 32. *)
Definition shl32 (a n : Z) : Z := i32 (Z.shiftl a (Z.land n 31)).
Definition abs32 (a : Z) : Z := i32 (Z.abs a).

Lemma wrap_small w x : 0 < w -> - 2 ^ (w - 1) <= x < 2 ^ (w - 1) -> wrap w x = x.
Proof.
  intros Hw Hx. unfold wrap.
  assert (E : 2 ^ w = 2 * 2 ^ (w - 1)).
  { replace w with (Z.succ (w - 1)) at 1 by lia. apply Z.pow_succ_r. lia. }
  rewrite Z.mod_small; lia.
Qed.

Lemma wrap_range w x : 0 < w -> - 2 ^ (w - 1) <= wrap w x < 2 ^ (w - 1).
Proof.
  intros Hw. unfold wrap.
  assert (E : 2 ^ w = 2 * 2 ^ (w - 1)).
  { replace w with (Z.succ (w - 1)) at 1 by lia. apply Z.pow_succ_r. lia. }
  assert (0 < 2 ^ (w - 1)) by (apply Z.pow_pos_nonneg; lia).
  pose proof (Z.mod_pos_bound (x + 2 ^ (w - 1)) (2 ^ w)). lia.
Qed.

Lemma i16_small x : in_i16 x -> i16 x = x.
Proof. intros H. apply wrap_small; [lia | exact H]. Qed.

Lemma i32_small x : in_i32 x -> i32 x = x.
Proof. intros H. apply wrap_small; [lia | exact H]. Qed.

Lemma i16_range x : in_i16 (i16 x).
Proof. apply (wrap_range 16). lia. Qed.

Lemma i32_range x : in_i32 (i32 x).
Proof. apply (wrap_range 32). lia. Qed.

Lemma u64_small x : in_u64 x -> u64 x = x.
Proof. intros H. apply Z.mod_small. exact H. Qed.

Lemma u64_range x : in_u64 (u64 x).
Proof. apply Z.mod_pos_bound. lia. Qed.

(** Incrementing and then decrementing a 16-bit counter is the identity,
    also across the wrap-around. *)
Lemma i16_inc_dec x : in_i16 x -> i16 (i16 (x + 1) - 1) = x.
Proof.
  intros H. unfold in_i16 in H. unfold i16, wrap.
  change (2 ^ (16 - 1)) with 32768 in *. change (2 ^ 16) with 65536 in *.
  change (2 ^ 15) with 32768 in *.
  destruct (Z.eq_dec x 32767) as [-> | Hne]; [reflexivity |].
  rewrite (Z.mod_small (x + 1 + 32768)) by lia.
  replace (x + 1 + 32768 - 32768 - 1 + 32768) with (x + 32768) by lia.
  rewrite Z.mod_small by lia. lia.
Qed.

End Int.

Import Int.

(* ------------------------------------------------------------------ *)
(** ** Bit utilities on 64-bit bitboards *)

(** The 64 square indices, in ascending order. *)
Definition squares : list Z := seqZ 0 64.

(** [u64(1) << pos]: the shift count of a 64-bit shift is taken modulo 64. *)
Definition bitAt (pos : Z) : Z := Z.shiftl 1 (Z.land pos 63).

(** [~x] on [u64]. *)
Definition not64 (x : Z) : Z := u64 (Z.lnot x).

(** [popcnt]: number of set bits among the 64 bits of [x]. *)
Definition popcnt (x : Z) : Z :=
  Z.of_nat (length (List.filter (Z.testbit x) squares)).

(** [ctz]: index of the lowest set bit, 64 when there is none. *)
Definition ctz (x : Z) : Z :=
  match List.find (Z.testbit x) squares with
  | Some i => i
  | None => 64
  end.

(** [rotr] on [u64]. *)
Definition rotr (x n : Z) : Z :=
  let k := Z.land n 63 in
  Z.lor (Z.shiftr x k) (u64 (Z.shiftl x (Z.land (64 - k) 63))).

Lemma in_squares s : List.In s squares <-> 0 <= s < 64.
Proof.
  unfold squares. rewrite <- list_elem_of_In, elem_of_seqZ. lia.
Qed.

Lemma land63_small pos : 0 <= pos < 64 -> Z.land pos 63 = pos.
Proof.
  intros H. change 63 with (Z.ones 6). rewrite Z.land_ones by lia.
  apply Z.mod_small. change (2 ^ 6) with 64. lia.
Qed.

Lemma bitAt_pow pos : 0 <= pos < 64 -> bitAt pos = 2 ^ pos.
Proof.
  intros H. unfold bitAt. rewrite land63_small by trivial.
  rewrite Z.shiftl_1_l. reflexivity.
Qed.

Lemma testbit_bitAt pos i : 0 <= pos < 64 -> Z.testbit (bitAt pos) i = (i =? pos).
Proof.
  intros H. rewrite bitAt_pow by trivial.
  destruct (Z.ltb_spec i 0) as [Hi | Hi].
  - rewrite Z.testbit_neg_r by trivial. symmetry. apply Z.eqb_neq. lia.
  - rewrite Z.pow2_bits_eqb by lia. apply Z.eqb_sym.
Qed.

Lemma bitAt_range pos : in_u64 (bitAt pos).
Proof.
  unfold bitAt, in_u64.
  assert (H : 0 <= Z.land pos 63 < 64).
  { change 63 with (Z.ones 6). rewrite Z.land_ones by lia.
    change (2 ^ 6) with 64. apply Z.mod_pos_bound. lia. }
  rewrite Z.shiftl_1_l. split.
  - apply Z.pow_nonneg. lia.
  - apply Z.pow_lt_mono_r; lia.
Qed.

Lemma testbit_high x i : in_u64 x -> 64 <= i -> Z.testbit x i = false.
Proof.
  intros Hx Hi. rewrite <- (Z.mod_small x (2 ^ 64)) by exact Hx.
  apply Z.mod_pow2_bits_high. lia.
Qed.

Lemma testbit_not64 x i :
  0 <= i -> Z.testbit (not64 x) i = (i <? 64) && negb (Z.testbit x i).
Proof.
  intros Hi. unfold not64, u64. rewrite Z.testbit_mod_pow2 by lia.
  rewrite Z.lnot_spec by trivial. reflexivity.
Qed.

Lemma in_u64_bits x :
  0 <= x -> (forall i, 64 <= i -> Z.testbit x i = false) -> in_u64 x.
Proof.
  intros H0 H. split; [exact H0 |].
  destruct (Z.eq_dec x 0) as [-> | Hne]; [lia |].
  assert (Hl : Z.log2 x < 64).
  { destruct (Z.lt_ge_cases (Z.log2 x) 64) as [Hlt | Hge]; [exact Hlt |].
    assert (Hb : Z.testbit x (Z.log2 x) = true) by (apply Z.bit_log2; lia).
    rewrite H in Hb by lia. discriminate. }
  apply Z.log2_lt_pow2; lia.
Qed.

Lemma lor_range x y : in_u64 x -> in_u64 y -> in_u64 (Z.lor x y).
Proof.
  intros Hx Hy. apply in_u64_bits.
  - apply Z.lor_nonneg. unfold in_u64 in *. lia.
  - intros i Hi. rewrite Z.lor_spec, !testbit_high by trivial. reflexivity.
Qed.

Lemma land_range x y : in_u64 x -> in_u64 (Z.land x y).
Proof.
  intros Hx. apply in_u64_bits.
  - apply Z.land_nonneg. unfold in_u64 in *. lia.
  - intros i Hi. rewrite Z.land_spec, testbit_high by trivial. reflexivity.
Qed.

Lemma lxor_range x y : in_u64 x -> in_u64 y -> in_u64 (Z.lxor x y).
Proof.
  intros Hx Hy. apply in_u64_bits.
  - apply Z.lxor_nonneg. unfold in_u64 in *. lia.
  - intros i Hi. rewrite Z.lxor_spec, !testbit_high by trivial. reflexivity.
Qed.

(** Two bitboards with the same 64 bits are equal. *)
Lemma bits_eq64 x y :
  in_u64 x -> in_u64 y ->
  (forall i, 0 <= i < 64 -> Z.testbit x i = Z.testbit y i) -> x = y.
Proof.
  intros Hx Hy H. apply Z.bits_inj'. intros i Hi.
  destruct (Z.lt_ge_cases i 64).
  - apply H. lia.
  - rewrite !testbit_high by trivial. reflexivity.
Qed.

Lemma testbit_rotr x n i :
  in_u64 x -> 0 < n < 64 -> 0 <= i < 64 ->
  Z.testbit (rotr x n) i = Z.testbit x ((i + n) mod 64).
Proof.
  intros Hx Hn Hi. unfold rotr. cbv zeta.
  rewrite (land63_small n) by lia. rewrite (land63_small (64 - n)) by lia.
  rewrite Z.lor_spec, Z.shiftr_spec by lia.
  unfold u64. rewrite Z.testbit_mod_pow2 by lia.
  rewrite Z.shiftl_spec by lia.
  replace (i <? 64) with true by (symmetry; apply Z.ltb_lt; lia).
  rewrite andb_true_l.
  destruct (Z.lt_ge_cases (i + n) 64) as [Hlt | Hge].
  - rewrite (Z.mod_small (i + n)) by lia.
    rewrite (Z.testbit_neg_r x (i - (64 - n))) by lia. apply orb_false_r.
  - rewrite (testbit_high x (i + n)) by trivial.
    replace ((i + n) mod 64) with (i - (64 - n)); [reflexivity |].
    apply Z.mod_unique with (q := 1); lia.
Qed.

(** Counting with [filter]: two predicates that agree on a list select
    equally many elements. *)
Lemma filter_length_ext {A} (f g : A -> bool) (l : list A) :
  (forall x, List.In x l -> f x = g x) ->
  length (List.filter f l) = length (List.filter g l).
Proof.
  induction l as [| a l IH]; intros H; [reflexivity |].
  cbn [List.filter]. rewrite (H a) by (left; reflexivity).
  destruct (g a); cbn [length]; rewrite IH; auto;
    intros x Hx; apply H; right; exact Hx.
Qed.

Lemma filter_length_le {A} (f g : A -> bool) (l : list A) :
  (forall x, List.In x l -> f x = true -> g x = true) ->
  (length (List.filter f l) <= length (List.filter g l))%nat.
Proof.
  induction l as [| a l IH]; intros H; [reflexivity |].
  cbn [List.filter].
  assert (IH' : (length (List.filter f l) <= length (List.filter g l))%nat).
  { apply IH. intros x Hx. apply H. right. exact Hx. }
  destruct (f a) eqn:Ef.
  - rewrite (H a) by (auto; left; reflexivity). cbn [length]. lia.
  - destruct (g a); cbn [length]; lia.
Qed.

Lemma filter_length_lt {A} (f g : A -> bool) (l : list A) (a : A) :
  (forall x, List.In x l -> f x = true -> g x = true) ->
  List.In a l -> f a = false -> g a = true ->
  (length (List.filter f l) < length (List.filter g l))%nat.
Proof.
  induction l as [| b l IH]; intros H Hin Hf Hg; [destruct Hin |].
  cbn [List.filter].
  assert (Hle : (length (List.filter f l) <= length (List.filter g l))%nat).
  { apply filter_length_le. intros x Hx. apply H. right. exact Hx. }
  destruct Hin as [-> | Hin].
  - rewrite Hf, Hg. cbn [length]. lia.
  - assert (Hlt : (length (List.filter f l) < length (List.filter g l))%nat).
    { apply IH; auto. intros x Hx. apply H. right. exact Hx. }
    destruct (f b) eqn:Ef.
    + rewrite (H b) by (auto; left; reflexivity). cbn [length]. lia.
    + destruct (g b); cbn [length]; lia.
Qed.

Lemma popcnt_ext x y :
  (forall i, 0 <= i < 64 -> Z.testbit x i = Z.testbit y i) -> popcnt x = popcnt y.
Proof.
  intros H. unfold popcnt. f_equal. apply filter_length_ext.
  intros i Hi. apply H. apply in_squares. exact Hi.
Qed.

Lemma popcnt_range x : 0 <= popcnt x <= 64.
Proof.
  unfold popcnt. pose proof (List.filter_length_le (Z.testbit x) squares) as H.
  change (length squares) with 64%nat in H. lia.
Qed.

Lemma popcnt_0 : popcnt 0 = 0.
Proof. reflexivity. Qed.

(** Clearing a bit that was set lowers the population count. *)
Lemma popcnt_clear_lt x y s :
  0 <= s < 64 ->
  (forall i, 0 <= i < 64 -> Z.testbit y i = true -> Z.testbit x i = true) ->
  Z.testbit x s = true -> Z.testbit y s = false ->
  popcnt y < popcnt x.
Proof.
  intros Hs Hsub Hx Hy. unfold popcnt. apply inj_lt.
  apply filter_length_lt with (a := s); auto.
  - intros i Hi. apply Hsub. apply in_squares. exact Hi.
  - apply in_squares. exact Hs.
Qed.

Lemma ctz_spec x :
  (exists i, 0 <= i < 64 /\ Z.testbit x i = true) ->
  0 <= ctz x < 64 /\ Z.testbit x (ctz x) = true.
Proof.
  intros (i & Hi & Hb). unfold ctz.
  destruct (List.find (Z.testbit x) squares) as [j |] eqn:E.
  - apply List.find_some in E. destruct E as [Hin Hj].
    apply in_squares in Hin. auto.
  - pose proof (List.find_none _ _ E i) as Hn.
    rewrite Hn in Hb; [discriminate | apply in_squares; exact Hi].
Qed.

Lemma nonzero_has_bit x :
  in_u64 x -> x <> 0 -> exists i, 0 <= i < 64 /\ Z.testbit x i = true.
Proof.
  intros Hx Hne.
  destruct (Z.eq_dec x 0) as [-> | _]; [contradiction |].
  exists (Z.log2 x).
  assert (0 < x) by (unfold in_u64 in Hx; lia).
  split.
  - split; [apply Z.log2_nonneg |]. apply Z.log2_lt_pow2; unfold in_u64 in Hx; lia.
  - apply Z.bit_log2. lia.
Qed.

Lemma ctz_nonzero x :
  in_u64 x -> x <> 0 -> 0 <= ctz x < 64 /\ Z.testbit x (ctz x) = true.
Proof. intros Hx Hne. apply ctz_spec. apply nonzero_has_bit; trivial. Qed.

(* ------------------------------------------------------------------ *)
(** ** Squares *)

(** rank = index / 8, file = index & 7. *)
Definition rank (s : Z) : Z := s / 8.
Definition file (s : Z) : Z := Z.land s 7.

Lemma file_mod s : file s = s mod 8.
Proof. unfold file. change 7 with (Z.ones 3). apply Z.land_ones. lia. Qed.

(* ------------------------------------------------------------------ *)
(** ** Doubled pawns ([Board.calcDoubledPawnPenalty]) *)

Definition DOUBLED_PAWN_PENALTY : Z := 6.

(** The method reads no field of the board. *)
Definition calcDoubledPawnPenalty (pawns : Z) : Z :=
  let doubled :=
    Z.lor (Z.lor (Z.lor (Z.land pawns (rotr pawns 8))
                        (Z.land pawns (rotr pawns 16)))
                 (Z.land pawns (rotr pawns 24)))
          (Z.land pawns (rotr pawns 32)) in
  mul32 (i32 (popcnt doubled)) DOUBLED_PAWN_PENALTY.

(** All set bits lie on ranks 1..6, the squares a pawn can stand on. *)
Definition onPawnRanks (pawns : Z) : bool :=
  forallb (fun s => implb (Z.testbit pawns s) ((1 <=? rank s) && (rank s <=? 6)))
          squares.

(** The specification's reading: the pawn on [s] has another pawn of the
    bitboard on its file at most 4 ranks away. *)
Definition partnerWithin4 (pawns s : Z) : bool :=
  existsb (fun t => negb (t =? s) && Z.testbit pawns t && (file t =? file s)
                    && (Z.abs (rank t - rank s) <=? 4)) squares.

Definition countWithin4 (pawns : Z) : Z :=
  Z.of_nat (length (List.filter
    (fun s => Z.testbit pawns s && partnerWithin4 pawns s) squares)).

(** What the rotations detect: another pawn on the same file whose rank is
    1 to 4 further on, ranks counted cyclically modulo 8. *)
Definition partnerCyclicAhead (pawns s : Z) : bool :=
  existsb (fun t => negb (t =? s) && Z.testbit pawns t && (file t =? file s)
                    && (1 <=? (rank t - rank s) mod 8)
                    && ((rank t - rank s) mod 8 <=? 4)) squares.

Definition countCyclicAhead (pawns : Z) : Z :=
  Z.of_nat (length (List.filter
    (fun s => Z.testbit pawns s && partnerCyclicAhead pawns s) squares)).

(** Some file holds two pawns. *)
Definition hasDoubledFile (pawns : Z) : Prop :=
  exists s t, 0 <= s < 64 /\ 0 <= t < 64 /\ s <> t /\ file s = file t /\
              Z.testbit pawns s = true /\ Z.testbit pawns t = true.

Lemma bool_eq_iff (a b : bool) : (a = true <-> b = true) -> a = b.
Proof. destruct a, b; intuition congruence. Qed.

Lemma partnerCyclicAhead_rot pawns s :
  in_u64 pawns -> 0 <= s < 64 ->
  partnerCyclicAhead pawns s =
  Z.testbit (rotr pawns 8) s || Z.testbit (rotr pawns 16) s
  || Z.testbit (rotr pawns 24) s || Z.testbit (rotr pawns 32) s.
Proof.
  intros Hp Hs. rewrite !testbit_rotr by (trivial; lia).
  apply bool_eq_iff. unfold partnerCyclicAhead. rewrite existsb_exists. split.
  - intros (t & Ht & Hc). apply in_squares in Ht.
    rewrite !andb_true_iff in Hc. destruct Hc as ((((Hne & Hb) & Hf) & Hlo) & Hhi).
    apply Z.eqb_eq in Hf. rewrite !file_mod in Hf.
    apply Z.leb_le in Hlo, Hhi. unfold rank in Hlo, Hhi.
    rewrite !orb_true_iff.
    assert (Hk : (s + 8) mod 64 = t \/ (s + 16) mod 64 = t \/
                 (s + 24) mod 64 = t \/ (s + 32) mod 64 = t).
    { clear Hb Hne Hp. Z.div_mod_to_equations. lia. }
    destruct Hk as [<- | [<- | [<- | <-]]]; auto.
  - rewrite !orb_true_iff.
    assert (Hgen : forall k, 1 <= k <= 4 ->
              Z.testbit pawns ((s + 8 * k) mod 64) = true ->
              exists t, In t squares /\
                negb (t =? s) && Z.testbit pawns t && (file t =? file s)
                && (1 <=? (rank t - rank s) mod 8)
                && ((rank t - rank s) mod 8 <=? 4) = true).
    { intros k Hk Hb. exists ((s + 8 * k) mod 64). split.
      - apply in_squares. apply Z.mod_pos_bound. lia.
      - rewrite Hb. rewrite !andb_true_iff. repeat split.
        + apply negb_true_iff, Z.eqb_neq. Z.div_mod_to_equations. lia.
        + apply Z.eqb_eq. rewrite !file_mod. Z.div_mod_to_equations. lia.
        + apply Z.leb_le. unfold rank. Z.div_mod_to_equations. lia.
        + apply Z.leb_le. unfold rank. Z.div_mod_to_equations. lia. }
    intros [[[H | H] | H] | H].
    + apply (Hgen 1); [lia | exact H].
    + apply (Hgen 2); [lia | exact H].
    + apply (Hgen 3); [lia | exact H].
    + apply (Hgen 4); [lia | exact H].
Qed.

Lemma doubled_count pawns :
  in_u64 pawns ->
  popcnt (Z.land pawns (Z.lor (Z.lor (Z.lor (rotr pawns 8) (rotr pawns 16))
                                     (rotr pawns 24)) (rotr pawns 32)))
  = countCyclicAhead pawns.
Proof.
  intros Hp. unfold popcnt, countCyclicAhead. f_equal.
  apply filter_length_ext. intros s Hs. apply in_squares in Hs.
  rewrite Z.land_spec, !Z.lor_spec. f_equal.
  symmetry. apply partnerCyclicAhead_rot; trivial.
Qed.

Lemma doubled_distr pawns :
  Z.lor (Z.lor (Z.lor (Z.land pawns (rotr pawns 8))
                      (Z.land pawns (rotr pawns 16)))
               (Z.land pawns (rotr pawns 24)))
        (Z.land pawns (rotr pawns 32))
  = Z.land pawns (Z.lor (Z.lor (Z.lor (rotr pawns 8) (rotr pawns 16))
                               (rotr pawns 24)) (rotr pawns 32)).
Proof.
  apply Z.bits_inj'. intros i Hi.
  rewrite ?Z.lor_spec, ?Z.land_spec, ?Z.lor_spec.
  destruct (Z.testbit pawns i); reflexivity.
Qed.

Lemma filter_length_pos {A} (f : A -> bool) (l : list A) :
  (0 < length (List.filter f l))%nat <-> exists x, List.In x l /\ f x = true.
Proof.
  split.
  - intros H. destruct (List.filter f l) as [| x r] eqn:E; [cbn in H; lia |].
    exists x. apply List.filter_In. rewrite E. left. reflexivity.
  - intros (x & Hx & Hf).
    assert (Hin : List.In x (List.filter f l)) by (apply List.filter_In; auto).
    destruct (List.filter f l); [destruct Hin | cbn; lia].
Qed.

Lemma countCyclicAhead_pos pawns :
  0 < countCyclicAhead pawns <-> hasDoubledFile pawns.
Proof.
  unfold countCyclicAhead.
  rewrite <- (Nat2Z.inj_lt 0), filter_length_pos. split.
  - intros (s & Hs & Hc). apply in_squares in Hs.
    apply andb_true_iff in Hc. destruct Hc as [Hb Hc].
    unfold partnerCyclicAhead in Hc. apply existsb_exists in Hc.
    destruct Hc as (t & Ht & Hc). apply in_squares in Ht.
    rewrite !andb_true_iff in Hc. destruct Hc as ((((Hne & Hbt) & Hf) & _) & _).
    apply negb_true_iff, Z.eqb_neq in Hne. apply Z.eqb_eq in Hf.
    exists s, t. repeat split; auto; lia.
  - intros (s & t & Hs & Ht & Hne & Hf & Hbs & Hbt).
    (* of two pawns on a file, the one whose partner is cyclically at most
       4 ranks ahead is counted *)
    assert (Hd : 1 <= (rank t - rank s) mod 8 <= 4 \/ 1 <= (rank s - rank t) mod 8 <= 4).
    { rewrite !file_mod in Hf. unfold rank. Z.div_mod_to_equations. lia. }
    destruct Hd as [Hd | Hd].
    + exists s. split; [apply in_squares; trivial |].
      rewrite Hbs, andb_true_l. apply existsb_exists. exists t.
      split; [apply in_squares; trivial |].
      rewrite Hbt, !andb_true_iff. repeat split.
      * apply negb_true_iff, Z.eqb_neq. lia.
      * apply Z.eqb_eq. congruence.
      * apply Z.leb_le. lia.
      * apply Z.leb_le. lia.
    + exists t. split; [apply in_squares; trivial |].
      rewrite Hbt, andb_true_l. apply existsb_exists. exists s.
      split; [apply in_squares; trivial |].
      rewrite Hbs, !andb_true_iff. repeat split.
      * apply negb_true_iff, Z.eqb_neq. lia.
      * apply Z.eqb_eq. congruence.
      * apply Z.leb_le. lia.
      * apply Z.leb_le. lia.
Qed.

(* ------------------------------------------------------------------ *)
(** ** Arrays

    Reads and writes of the source are [unchecked]; an access outside the
    array is not modelled: such a read gives 0 and such a write is dropped.
    Index arithmetic is written without wrap-around (the preconditions of
    the theorems keep every index small). *)

Definition getZ (l : list Z) (i : Z) : Z :=
  if i <? 0 then 0 else nth (Z.to_nat i) l 0.

Definition setZ (l : list Z) (i v : Z) : list Z :=
  if i <? 0 then l else <[Z.to_nat i := v]> l.

Definition lenZ (l : list Z) : Z := Z.of_nat (length l).

Lemma length_setZ l i v : length (setZ l i v) = length l.
Proof. unfold setZ. destruct (i <? 0); [reflexivity | apply length_insert]. Qed.

Lemma lenZ_setZ l i v : lenZ (setZ l i v) = lenZ l.
Proof. unfold lenZ. rewrite length_setZ. reflexivity. Qed.

Lemma getZ_setZ_eq l i v : 0 <= i < lenZ l -> getZ (setZ l i v) i = v.
Proof.
  unfold getZ, setZ, lenZ. intros H.
  destruct (Z.ltb_spec i 0); [lia |].
  apply nth_lookup_Some with (d := 0). apply list_lookup_insert_eq. lia.
Qed.

Lemma getZ_setZ_ne l i j v : i <> j -> getZ (setZ l i v) j = getZ l j.
Proof.
  unfold getZ, setZ. intros H.
  destruct (Z.ltb_spec j 0); [reflexivity |].
  destruct (Z.ltb_spec i 0); [reflexivity |].
  rewrite !nth_lookup. rewrite list_lookup_insert_ne by lia. reflexivity.
Qed.

Lemma getZ_setZ l i j v :
  0 <= i < lenZ l -> getZ (setZ l i v) j = if j =? i then v else getZ l j.
Proof.
  intros H. destruct (Z.eqb_spec j i) as [-> | Hne].
  - apply getZ_setZ_eq. exact H.
  - apply getZ_setZ_ne. congruence.
Qed.

Lemma setZ_same l i : setZ l i (getZ l i) = l.
Proof.
  unfold setZ, getZ. destruct (Z.ltb_spec i 0); [reflexivity |].
  apply list_eq. intros j. destruct (Nat.eq_dec (Z.to_nat i) j) as [<- | Hne].
  - destruct (l !! Z.to_nat i) eqn:El.
    + rewrite list_lookup_insert_eq by (eapply lookup_lt_Some; eauto).
      rewrite nth_lookup, El. reflexivity.
    + rewrite list_insert_ge; [exact El |]. apply lookup_ge_None. exact El.
  - apply list_lookup_insert_ne. exact Hne.
Qed.

Lemma list_eq_getZ (l l' : list Z) :
  length l = length l' ->
  (forall i, 0 <= i < lenZ l -> getZ l i = getZ l' i) -> l = l'.
Proof.
  intros Hlen H. apply list_eq. intros n.
  destruct (Nat.lt_ge_cases n (length l)) as [Hlt | Hge].
  - specialize (H (Z.of_nat n)). unfold getZ, lenZ in H.
    destruct (Z.ltb_spec (Z.of_nat n) 0); [lia |].
    rewrite Nat2Z.id in H.
    destruct (lookup_lt_is_Some_2 l n Hlt) as [x Hx].
    destruct (lookup_lt_is_Some_2 l' n ltac:(lia)) as [y Hy].
    rewrite !nth_lookup, Hx, Hy in H. cbn in H. rewrite Hx, Hy. f_equal. apply H. lia.
  - rewrite !(proj2 (lookup_ge_None _ _)) by lia. reflexivity.
Qed.

(* ------------------------------------------------------------------ *)
(** ** Constants of the board module *)

Definition WHITE_KING_START : Z := 60.
Definition BLACK_KING_START : Z := 4.

Definition HALFMOVE_CLOCK_INDEX : Z := 64.
Definition HALFMOVE_COUNT_INDEX : Z := 65.
Definition STATE_INDEX : Z := 66.

Definition MAX_GAME_HALFMOVES : Z := 5898 * 2.

(** [1 << 31] on [i32]. *)
Definition EN_PASSANT_BIT : Z := shl32 1 31.

Definition BLACK : Z := -1.
Definition WHITE : Z := 1.
Definition EMPTY : Z := 0.

Definition WHITE_KING_SIDE_CASTLING : Z := Z.shiftl 1 7.
Definition BLACK_KING_SIDE_CASTLING : Z := Z.shiftl 1 8.
Definition WHITE_QUEEN_SIDE_CASTLING : Z := Z.shiftl 1 9.
Definition BLACK_QUEEN_SIDE_CASTLING : Z := Z.shiftl 1 10.
Definition WHITE_HAS_CASTLED : Z := Z.shiftl 1 11.
Definition BLACK_HAS_CASTLED : Z := Z.shiftl 1 12.

Definition CASTLING_BITSTART : Z := 7.

Definition ALL_CASTLING_RIGHTS : Z :=
  Z.lor (Z.lor (Z.lor WHITE_KING_SIDE_CASTLING WHITE_QUEEN_SIDE_CASTLING)
               BLACK_KING_SIDE_CASTLING) BLACK_QUEEN_SIDE_CASTLING.

Definition BITS : list Z := [13; 14; 15; 16; 17; 18; 19; 20; 21; 22; 23; 24; 25; 26; 27; 28].
Definition EN_PASSANT_BITSTART : Z := 13.
Definition calculateEnPassantBitMask (bit : Z) : Z := shl32 1 bit.
Definition EN_PASSANT_BITMASKS : list Z := map calculateEnPassantBitMask BITS.

(** Evaluation constants. *)
Definition PASSED_PAWN_BONUS : Z := 25.
Definition KING_SHIELD_BONUS : Z := 21.
Definition PAWNLESS_DRAW_SCORE_LOW_THRESHOLD : Z := 100.
Definition PAWNLESS_DRAW_SCORE_HIGH_THRESHOLD : Z := 400.
Definition PAWNLESS_DRAW_CLOCK_THRESHOLD : Z := 64.
Definition CASTLING_BONUS : Z := 28.
Definition LOST_QUEENSIDE_CASTLING_PENALTY : Z := 18.
Definition LOST_KINGSIDE_CASTLING_PENALTY : Z := 21.
Definition KING_DANGER_THRESHOLD : Z := 1.
Definition KING_DANGER_PIECE_PENALTY : Z := 21.
Definition PAWN_COVER_BONUS : Z := 14.
Definition KNIGHT_MOB_BONUS : Z := 5.
Definition BISHOP_MOB_BONUS : Z := 5.
Definition ROOK_MOB_BONUS : Z := 5.
Definition QUEEN_MOB_BONUS : Z := 5.

(* ------------------------------------------------------------------ *)
(** ** Imported modules *)

(** Modelled from the spec: the piece ids of module [./pieces], which is
    absent; the magnitudes are 1=Pawn, 2=Knight, 3=Bishop, 4=Rook, 5=Queen,
    6=King. *)
Definition PAWN : Z := 1.
Definition KNIGHT : Z := 2.
Definition BISHOP : Z := 3.
Definition ROOK : Z := 4.
Definition QUEEN : Z := 5.
Definition KING : Z := 6.

(** Modelled from the spec: the corner squares and pawn base lines of
    module [./pieces], which is absent.  Index 0 is the top-left square
    seen from White; the White king castles short from 60 to 62 with the
    rook going from 63 to 61; White pawns start on rank 6 and Black pawns
    on rank 1. *)
Definition WHITE_QUEEN_SIDE_ROOK_START : Z := 56.
Definition WHITE_KING_SIDE_ROOK_START : Z := 63.
Definition BLACK_QUEEN_SIDE_ROOK_START : Z := 0.
Definition BLACK_KING_SIDE_ROOK_START : Z := 7.
Definition WHITE_PAWNS_BASELINE_START : Z := 48.
Definition BLACK_PAWNS_BASELINE_START : Z := 8.

(** Modelled from the spec: [sign] of module [./util], which is absent;
    the colour of a piece is its sign, and the empty square has colour 0
    (the occupancy bitboard of index 1). *)
Definition sign (value : Z) : Z := Z.sgn value.

(** Modelled from the spec: score packing of module [./util], which is
    absent: [pack(a, b) = (u32(a) & 0xFFFF) | (u32(b) << 16)], and the
    symmetric unpacking. *)
Definition packScores (a b : Z) : Z :=
  Z.lor (Z.land (u32 a) 65535) (u32 (Z.shiftl (u32 b) 16)).
Definition unpackFirstScore (packed : Z) : Z := i16 (Z.land packed 65535).
Definition unpackSecondScore (packed : Z) : Z := i16 (Z.shiftr packed 16).

(** The tables and functions the board imports from the modules
    [./pieces], [./zobrist], [./bitboard] and [./history], none of which is
    part of the sources at hand.  They are parameters of the development. *)
Record Externals : Type := {
  PIECE_VALUES : Z -> Z;
  EG_PIECE_VALUES : Z -> Z;
  PIECE_RNG_NUMBERS : Z -> Z;
  CASTLING_RNG_NUMBERS : Z -> Z;
  EN_PASSANT_RNG_NUMBERS : Z -> Z;
  PLAYER_RNG_NUMBER : Z;
  KNIGHT_PATTERNS : Z -> Z;
  KING_PATTERNS : Z -> Z;
  WHITE_KING_SHIELD_PATTERNS : Z -> Z;
  BLACK_KING_SHIELD_PATTERNS : Z -> Z;
  KING_DANGER_ZONE_PATTERNS : Z -> Z;
  WHITE_PAWN_FREEPATH_PATTERNS : Z -> Z;
  BLACK_PAWN_FREEPATH_PATTERNS : Z -> Z;
  LIGHT_COLORED_FIELD_PATTERN : Z;
  DARK_COLORED_FIELD_PATTERN : Z;
  whiteLeftPawnAttacks : Z -> Z;
  whiteRightPawnAttacks : Z -> Z;
  blackLeftPawnAttacks : Z -> Z;
  blackRightPawnAttacks : Z -> Z;
  horizontalAttacks : Z -> Z -> Z;
  verticalAttacks : Z -> Z -> Z;
  diagonalAttacks : Z -> Z -> Z;
  antiDiagonalAttacks : Z -> Z -> Z;
  (** [PositionHistory.isSingleRepetition] and [isThreefoldRepetion], as
      functions of the stack of pushed hashes. *)
  isSingleRepetition : list Z -> bool;
  isThreefoldRepetion : list Z -> bool
}.

Lemma unpack_pack_first a b : in_i16 a -> unpackFirstScore (packScores a b) = a.
Proof.
  intros Ha. unfold unpackFirstScore, packScores, u32.
  assert (E : Z.land (Z.lor (Z.land (a mod 2 ^ 32) 65535)
                            ((Z.shiftl (b mod 2 ^ 32) 16) mod 2 ^ 32)) 65535
              = a mod 2 ^ 16).
  { apply Z.bits_inj'. intros i Hi.
    change 65535 with (Z.ones 16).
    rewrite Z.land_spec, Z.lor_spec, Z.land_spec, !Z.testbit_ones_nonneg by lia.
    rewrite !Z.testbit_mod_pow2 by lia.
    destruct (Z.ltb_spec i 16) as [Hlt | Hge].
    - rewrite Z.shiftl_spec_low by lia.
      replace (i <? 32) with true by (symmetry; apply Z.ltb_lt; lia).
      cbn. rewrite !andb_true_r, orb_false_r. reflexivity.
    - rewrite !andb_false_r. reflexivity. }
  rewrite E. unfold in_i16 in Ha. unfold i16, wrap.
  change (2 ^ (16 - 1)) with 32768. change (2 ^ 16) with 65536.
  change (2 ^ 15) with 32768 in Ha.
  Z.div_mod_to_equations. lia.
Qed.

Lemma unpack_pack_second a b : in_i16 b -> unpackSecondScore (packScores a b) = b.
Proof.
  intros Hb. unfold unpackSecondScore, packScores, u32.
  assert (E : Z.shiftr (Z.lor (Z.land (a mod 2 ^ 32) 65535)
                              ((Z.shiftl (b mod 2 ^ 32) 16) mod 2 ^ 32)) 16
              = b mod 2 ^ 16).
  { apply Z.bits_inj'. intros i Hi.
    change 65535 with (Z.ones 16).
    rewrite Z.shiftr_spec, Z.lor_spec, Z.land_spec, Z.testbit_ones_nonneg by lia.
    rewrite !Z.testbit_mod_pow2 by lia.
    rewrite Z.shiftl_spec by lia. rewrite Z.testbit_mod_pow2 by lia.
    replace (i + 16 - 16) with i by lia.
    replace (i + 16 <? 16) with false by (symmetry; apply Z.ltb_ge; lia).
    rewrite andb_false_r, orb_false_l.
    destruct (Z.ltb_spec i 16) as [Hlt | Hge].
    - replace (i + 16 <? 32) with true by (symmetry; apply Z.ltb_lt; lia).
      replace (i <? 32) with true by (symmetry; apply Z.ltb_lt; lia).
      reflexivity.
    - replace (i + 16 <? 32) with false by (symmetry; apply Z.ltb_ge; lia).
      reflexivity. }
  rewrite E. unfold in_i16 in Hb. unfold i16, wrap.
  change (2 ^ (16 - 1)) with 32768. change (2 ^ 16) with 65536.
  change (2 ^ 15) with 32768 in Hb.
  Z.div_mod_to_equations. lia.
Qed.

(* ------------------------------------------------------------------ *)
(** ** Piece-square tables *)

Definition PAWN_POSITION_SCORES : list Z := [
  0;  0;  0;  0;  0;  0;  0;  0;
  10; 10; 10; 10; 10; 10; 10; 10;
  6;  6;  7;  8;  8;  7;  6;  6;
  2;  2;  3;  5;  5;  3;  2;  2;
  0;  0;  0;  4;  4;  0;  0;  0;
  1; -1; -2;  0;  0; -2; -1;  1;
  1;  2;  2; -4; -4;  2;  2;  1;
  0;  0;  0;  0;  0;  0;  0;  0 ].

Definition KNIGHT_POSITION_SCORES : list Z := [
  -10; -8; -6; -6; -6; -6; -8; -10;
  -8; -4;  0;  0;  0;  0; -4; -8;
  -6;  0;  2;  3;  3;  2;  0; -6;
  -6;  1;  3;  4;  4;  3;  1; -6;
  -6;  0;  3;  4;  4;  3;  0; -6;
  -6;  1;  2;  3;  3;  2;  1; -6;
  -8; -4;  0;  1;  1;  0; -4; -8;
  -10; -8; -6; -6; -6; -6; -8; -10 ].

Definition BISHOP_POSITION_SCORES : list Z := [
  -4; -2; -2; -2; -2; -2; -2; -4;
  -2;  0;  0;  0;  0;  0;  0; -2;
  -2;  0;  1;  2;  2;  1;  0; -2;
  -2;  1;  1;  2;  2;  1;  1; -2;
  -2;  0;  2;  2;  2;  2;  0; -2;
  -2;  2;  2;  2;  2;  2;  2; -2;
  -2;  1;  0;  0;  0;  0;  1; -2;
  -4; -2; -2; -2; -2; -2; -2; -4 ].

Definition ROOK_POSITION_SCORES : list Z := [
   0;  0;  0;  0;  0;  0;  0;  0;
   1;  2;  2;  2;  2;  2;  2;  1;
  -1;  0;  0;  0;  0;  0;  0; -1;
  -1;  0;  0;  0;  0;  0;  0; -1;
  -1;  0;  0;  0;  0;  0;  0; -1;
  -1;  0;  0;  0;  0;  0;  0; -1;
  -1;  0;  0;  0;  0;  0;  0; -1;
   0;  0;  0;  1;  1;  0;  0;  0 ].

Definition QUEEN_POSITION_SCORES : list Z := [
  -4; -2; -2; -1; -1; -2; -2; -4;
  -2;  0;  0;  0;  0;  0;  0; -2;
  -2;  0;  1;  1;  1;  1;  0; -2;
  -1;  0;  1;  1;  1;  1;  0; -1;
   0;  0;  1;  1;  1;  1;  0; -1;
  -2;  1;  1;  1;  1;  1;  0; -2;
  -2;  0;  1;  0;  0;  0;  0; -2;
  -4; -2; -2; -1; -1; -2; -2; -4 ].

Definition KING_POSITION_SCORES : list Z := [
  -5; -5; -5; -5; -5; -5; -5; -5;
  -5; -5; -5; -5; -5; -5; -5; -5;
  -5; -5; -5; -5; -5; -5; -5; -5;
  -5; -5; -5; -5; -5; -5; -5; -5;
  -5; -5; -5; -5; -5; -5; -5; -5;
  -5; -5; -5; -5; -5; -5; -5; -5;
   2;  2;  0;  0;  0;  0;  2;  2;
   3;  2;  2;  0;  0;  2;  2;  3 ].

Definition KING_ENDGAME_POSITION_SCORES : list Z := [
  -10; -8; -6; -4; -4; -6; -8; -10;
  -6; -4; -2;  0;  0; -2; -4; -6;
  -6; -2;  4;  6;  6;  4; -2; -6;
  -6; -2;  6;  8;  8;  6; -2; -6;
  -6; -2;  6;  8;  8;  6; -2; -6;
  -6; -2;  4;  6;  6;  4; -2; -6;
  -6; -6;  0;  0;  0;  0; -6; -6;
  -10; -6; -6; -6; -6; -6; -6; -10 ].

Definition POSITION_SCORE_MULTIPLIERS : list Z := [0; 5; 3; 6; 3; 3; 6].

(** Swaps rank [r] with rank [7 - r] on every file. *)
Definition mirrored (input : list Z) : list Z :=
  fold_left (fun output column =>
    fold_left (fun output row =>
      let oppositeRow := 7 - row in
      let pos := column + row * 8 in
      let oppositePos := column + oppositeRow * 8 in
      let value := getZ output pos in
      setZ (setZ output pos (getZ output oppositePos)) oppositePos value)
      (seqZ 0 4) output)
    (seqZ 0 8) input.

Section PieceSquareTables.

Context (E : Externals).

(** The table starts at index 64: the first 64 entries stay 0. *)
Definition combineScores (color : Z) (midgameScores endgameScores : list (list Z))
  : list Z :=
  replicate 64 0 ++
  flat_map (fun pieceId =>
    let multiplier := mul32 (getZ POSITION_SCORE_MULTIPLIERS pieceId) color in
    let pieceValue := i16 (PIECE_VALUES E pieceId * color) in
    let egPieceValue := i16 (EG_PIECE_VALUES E pieceId * color) in
    map (fun pos =>
      let posScore :=
        i16 (pieceValue
             + i16 (getZ (nth (Z.to_nat (pieceId - 1)) midgameScores []) pos * multiplier)) in
      let egPosScore :=
        i16 (egPieceValue
             + i16 (getZ (nth (Z.to_nat (pieceId - 1)) endgameScores []) pos * multiplier)) in
      packScores posScore egPosScore) squares)
    (seqZ PAWN KING).

(** The two tables as [calculatePieceSquareTables] leaves them. *)
Definition WHITE_POSITION_SCORES : list Z :=
  combineScores WHITE
    [PAWN_POSITION_SCORES; KNIGHT_POSITION_SCORES; BISHOP_POSITION_SCORES;
     ROOK_POSITION_SCORES; QUEEN_POSITION_SCORES; KING_POSITION_SCORES]
    [PAWN_POSITION_SCORES; KNIGHT_POSITION_SCORES; BISHOP_POSITION_SCORES;
     ROOK_POSITION_SCORES; QUEEN_POSITION_SCORES; KING_ENDGAME_POSITION_SCORES].

Definition BLACK_POSITION_SCORES : list Z :=
  combineScores BLACK
    [mirrored PAWN_POSITION_SCORES; mirrored KNIGHT_POSITION_SCORES;
     mirrored BISHOP_POSITION_SCORES; mirrored ROOK_POSITION_SCORES;
     mirrored QUEEN_POSITION_SCORES; mirrored KING_POSITION_SCORES]
    [mirrored PAWN_POSITION_SCORES; mirrored KNIGHT_POSITION_SCORES;
     mirrored BISHOP_POSITION_SCORES; mirrored ROOK_POSITION_SCORES;
     mirrored QUEEN_POSITION_SCORES; mirrored KING_ENDGAME_POSITION_SCORES].

End PieceSquareTables.

(* ------------------------------------------------------------------ *)
(** ** The board *)

Record Board : Type := mkBoard {
  items : list Z;
  whiteKingIndex : Z;
  blackKingIndex : Z;
  score : Z;
  egScore : Z;
  halfMoveCount : Z;
  halfMoveClock : Z;
  bitBoardPieces : list Z;
  bitBoardAllPieces : list Z;
  hashCode : Z;
  historyCounter : Z;
  stateHistory : list Z;
  hashCodeHistory : list Z;
  scoreHistory : list Z;
  halfMoveClockHistory : list Z;
  (** Modelled from the spec: [PositionHistory] of module [./history],
      which is absent, is a stack with [push(hash)] and [pop()]; head of
      the list = top of the stack. *)
  positionHistory : list Z;
  endgame : Z
}.

Definition set_items (v : list Z) (b : Board) : Board :=
  mkBoard v (whiteKingIndex b) (blackKingIndex b) (score b) (egScore b)
    (halfMoveCount b) (halfMoveClock b) (bitBoardPieces b) (bitBoardAllPieces b)
    (hashCode b) (historyCounter b) (stateHistory b) (hashCodeHistory b)
    (scoreHistory b) (halfMoveClockHistory b) (positionHistory b) (endgame b).

Definition set_whiteKingIndex (v : Z) (b : Board) : Board :=
  mkBoard (items b) v (blackKingIndex b) (score b) (egScore b)
    (halfMoveCount b) (halfMoveClock b) (bitBoardPieces b) (bitBoardAllPieces b)
    (hashCode b) (historyCounter b) (stateHistory b) (hashCodeHistory b)
    (scoreHistory b) (halfMoveClockHistory b) (positionHistory b) (endgame b).

Definition set_blackKingIndex (v : Z) (b : Board) : Board :=
  mkBoard (items b) (whiteKingIndex b) v (score b) (egScore b)
    (halfMoveCount b) (halfMoveClock b) (bitBoardPieces b) (bitBoardAllPieces b)
    (hashCode b) (historyCounter b) (stateHistory b) (hashCodeHistory b)
    (scoreHistory b) (halfMoveClockHistory b) (positionHistory b) (endgame b).

Definition set_scores (s e : Z) (b : Board) : Board :=
  mkBoard (items b) (whiteKingIndex b) (blackKingIndex b) s e
    (halfMoveCount b) (halfMoveClock b) (bitBoardPieces b) (bitBoardAllPieces b)
    (hashCode b) (historyCounter b) (stateHistory b) (hashCodeHistory b)
    (scoreHistory b) (halfMoveClockHistory b) (positionHistory b) (endgame b).

Definition set_halfMoveCount (v : Z) (b : Board) : Board :=
  mkBoard (items b) (whiteKingIndex b) (blackKingIndex b) (score b) (egScore b)
    v (halfMoveClock b) (bitBoardPieces b) (bitBoardAllPieces b)
    (hashCode b) (historyCounter b) (stateHistory b) (hashCodeHistory b)
    (scoreHistory b) (halfMoveClockHistory b) (positionHistory b) (endgame b).

Definition set_halfMoveClock (v : Z) (b : Board) : Board :=
  mkBoard (items b) (whiteKingIndex b) (blackKingIndex b) (score b) (egScore b)
    (halfMoveCount b) v (bitBoardPieces b) (bitBoardAllPieces b)
    (hashCode b) (historyCounter b) (stateHistory b) (hashCodeHistory b)
    (scoreHistory b) (halfMoveClockHistory b) (positionHistory b) (endgame b).

Definition set_bitBoardPieces (v : list Z) (b : Board) : Board :=
  mkBoard (items b) (whiteKingIndex b) (blackKingIndex b) (score b) (egScore b)
    (halfMoveCount b) (halfMoveClock b) v (bitBoardAllPieces b)
    (hashCode b) (historyCounter b) (stateHistory b) (hashCodeHistory b)
    (scoreHistory b) (halfMoveClockHistory b) (positionHistory b) (endgame b).

Definition set_bitBoardAllPieces (v : list Z) (b : Board) : Board :=
  mkBoard (items b) (whiteKingIndex b) (blackKingIndex b) (score b) (egScore b)
    (halfMoveCount b) (halfMoveClock b) (bitBoardPieces b) v
    (hashCode b) (historyCounter b) (stateHistory b) (hashCodeHistory b)
    (scoreHistory b) (halfMoveClockHistory b) (positionHistory b) (endgame b).

Definition set_hashCode (v : Z) (b : Board) : Board :=
  mkBoard (items b) (whiteKingIndex b) (blackKingIndex b) (score b) (egScore b)
    (halfMoveCount b) (halfMoveClock b) (bitBoardPieces b) (bitBoardAllPieces b)
    v (historyCounter b) (stateHistory b) (hashCodeHistory b)
    (scoreHistory b) (halfMoveClockHistory b) (positionHistory b) (endgame b).

(** The history counter and the four parallel history arrays. *)
Definition set_history (c : Z) (st hs sc ck : list Z) (b : Board) : Board :=
  mkBoard (items b) (whiteKingIndex b) (blackKingIndex b) (score b) (egScore b)
    (halfMoveCount b) (halfMoveClock b) (bitBoardPieces b) (bitBoardAllPieces b)
    (hashCode b) c st hs sc ck (positionHistory b) (endgame b).

Definition set_positionHistory (v : list Z) (b : Board) : Board :=
  mkBoard (items b) (whiteKingIndex b) (blackKingIndex b) (score b) (egScore b)
    (halfMoveCount b) (halfMoveClock b) (bitBoardPieces b) (bitBoardAllPieces b)
    (hashCode b) (historyCounter b) (stateHistory b) (hashCodeHistory b)
    (scoreHistory b) (halfMoveClockHistory b) v (endgame b).

Definition set_endgame (v : Z) (b : Board) : Board :=
  mkBoard (items b) (whiteKingIndex b) (blackKingIndex b) (score b) (egScore b)
    (halfMoveCount b) (halfMoveClock b) (bitBoardPieces b) (bitBoardAllPieces b)
    (hashCode b) (historyCounter b) (stateHistory b) (hashCodeHistory b)
    (scoreHistory b) (halfMoveClockHistory b) (positionHistory b) v.

Section BoardOperations.

Context (E : Externals).

Definition getBitBoard (b : Board) (piece : Z) : Z :=
  getZ (bitBoardPieces b) (piece + 6).

Definition getAllPieceBitBoard (b : Board) (color : Z) : Z :=
  getZ (bitBoardAllPieces b) (color + 1).

Definition getItem (b : Board) (pos : Z) : Z := getZ (items b) pos.

Definition getHash (b : Board) : Z := hashCode b.

(** The state is read and written in the last slot of [items]. *)
Definition getState (b : Board) : Z := getZ (items b) (lenZ (items b) - 1).

Definition setState (state : Z) (b : Board) : Board :=
  set_items (setZ (items b) (lenZ (items b) - 1) state) b.

Definition setStateBit (bitMask : Z) (b : Board) : Board :=
  set_items (setZ (items b) (lenZ (items b) - 1) (Z.lor (getState b) bitMask)) b.

Definition clearStateBit (bitMask : Z) (b : Board) : Board :=
  set_items (setZ (items b) (lenZ (items b) - 1)
                  (Z.land (getState b) (Z.lnot bitMask))) b.

Definition getHalfMoveClock (b : Board) : Z := halfMoveClock b.
Definition getHalfMoveCount (b : Board) : Z := halfMoveCount b.

Definition getActivePlayer (b : Board) : Z :=
  if Z.land (halfMoveCount b) 1 =? 0 then WHITE else BLACK.

Definition hasWhiteCastled (b : Board) : bool :=
  negb (Z.land (getState b) WHITE_HAS_CASTLED =? 0).
Definition canWhiteCastleKingSide (b : Board) : bool :=
  negb (Z.land (getState b) WHITE_KING_SIDE_CASTLING =? 0).
Definition canBlackCastleKingSide (b : Board) : bool :=
  negb (Z.land (getState b) BLACK_KING_SIDE_CASTLING =? 0).
Definition canWhiteCastleQueenSide (b : Board) : bool :=
  negb (Z.land (getState b) WHITE_QUEEN_SIDE_CASTLING =? 0).
Definition hasBlackCastled (b : Board) : bool :=
  negb (Z.land (getState b) BLACK_HAS_CASTLED =? 0).
Definition canBlackCastleQueenSide (b : Board) : bool :=
  negb (Z.land (getState b) BLACK_QUEEN_SIDE_CASTLING =? 0).

(** [hashCode ^= v]. *)
Definition xorHash (v : Z) (b : Board) : Board :=
  set_hashCode (Z.lxor (hashCode b) v) b.

Definition getCastlingStateBits (b : Board) : Z :=
  Z.land (Z.shiftr (getState b) CASTLING_BITSTART) 15.

Definition getEnPassantStateBits (b : Board) : Z :=
  Z.land (Z.shiftr (getState b) EN_PASSANT_BITSTART) 65535.

Definition updateHashForCastling (previousCastlingState : Z) (b : Board) : Board :=
  let b := xorHash (CASTLING_RNG_NUMBERS E previousCastlingState) b in
  xorHash (CASTLING_RNG_NUMBERS E (getCastlingStateBits b)) b.

Definition updateHashForEnPassent (previousEnPassantState : Z) (b : Board) : Board :=
  let newEnPassantState := getEnPassantStateBits b in
  if negb (previousEnPassantState =? newEnPassantState) then
    let b := if negb (previousEnPassantState =? 0)
             then xorHash (EN_PASSANT_RNG_NUMBERS E (ctz previousEnPassantState)) b
             else b in
    if negb (newEnPassantState =? 0)
    then xorHash (EN_PASSANT_RNG_NUMBERS E (ctz newEnPassantState)) b
    else b
  else b.

Definition setWhiteKingMoved (b : Board) : Board :=
  if canWhiteCastleKingSide b || canWhiteCastleQueenSide b then
    let previousCastlingState := getCastlingStateBits b in
    let b := clearStateBit WHITE_KING_SIDE_CASTLING b in
    let b := clearStateBit WHITE_QUEEN_SIDE_CASTLING b in
    updateHashForCastling previousCastlingState b
  else b.

Definition setBlackKingMoved (b : Board) : Board :=
  if canBlackCastleKingSide b || canBlackCastleQueenSide b then
    let previousCastlingState := getCastlingStateBits b in
    let b := clearStateBit BLACK_KING_SIDE_CASTLING b in
    let b := clearStateBit BLACK_QUEEN_SIDE_CASTLING b in
    updateHashForCastling previousCastlingState b
  else b.

(** The four [set...RookMoved] methods differ in the right they clear. *)
Definition setRookMoved (can : Board -> bool) (right : Z) (b : Board) : Board :=
  if can b then
    let previousCastlingState := getCastlingStateBits b in
    let b := clearStateBit right b in
    updateHashForCastling previousCastlingState b
  else b.

Definition setWhiteQueenSideRookMoved : Board -> Board :=
  setRookMoved canWhiteCastleQueenSide WHITE_QUEEN_SIDE_CASTLING.
Definition setWhiteKingSideRookMoved : Board -> Board :=
  setRookMoved canWhiteCastleKingSide WHITE_KING_SIDE_CASTLING.
Definition setBlackQueenSideRookMoved : Board -> Board :=
  setRookMoved canBlackCastleQueenSide BLACK_QUEEN_SIDE_CASTLING.
Definition setBlackKingSideRookMoved : Board -> Board :=
  setRookMoved canBlackCastleKingSide BLACK_KING_SIDE_CASTLING.

Definition updateWhiteKingPosition (boardIndex : Z) (b : Board) : Board :=
  setWhiteKingMoved (set_whiteKingIndex boardIndex b).

Definition updateBlackKingPosition (boardIndex : Z) (b : Board) : Board :=
  setBlackKingMoved (set_blackKingIndex boardIndex b).

Definition updateKingPosition (playerColor boardIndex : Z) (b : Board) : Board :=
  if playerColor =? WHITE then updateWhiteKingPosition boardIndex b
  else updateBlackKingPosition boardIndex b.

Definition findKingPosition (b : Board) (playerColor : Z) : Z :=
  if playerColor =? WHITE then whiteKingIndex b else blackKingIndex b.

(** *** History frames *)

Definition storeState (b : Board) : Board :=
  let c := historyCounter b in
  set_history (i32 (c + 1))
    (setZ (stateHistory b) c (getZ (items b) STATE_INDEX))
    (setZ (hashCodeHistory b) c (hashCode b))
    (setZ (scoreHistory b) c (packScores (score b) (egScore b)))
    (setZ (halfMoveClockHistory b) c (halfMoveClock b))
    b.

Definition restoreState (b : Board) : Board :=
  let b := set_halfMoveCount (i16 (halfMoveCount b - 1)) b in
  let c := i32 (historyCounter b - 1) in
  let b := set_history c (stateHistory b) (hashCodeHistory b) (scoreHistory b)
                       (halfMoveClockHistory b) b in
  let b := set_items (setZ (items b) STATE_INDEX (getZ (stateHistory b) c)) b in
  let b := set_halfMoveClock (getZ (halfMoveClockHistory b) c) b in
  let b := set_hashCode (getZ (hashCodeHistory b) c) b in
  let packedScore := getZ (scoreHistory b) c in
  set_scores (unpackFirstScore packedScore) (unpackSecondScore packedScore) b.

(** *** Adding and removing pieces *)

Definition positionScores (pos piece : Z) : Z :=
  if piece >? 0
  then getZ (WHITE_POSITION_SCORES E) (piece * 64 + pos)
  else getZ (BLACK_POSITION_SCORES E) (- piece * 64 + pos).

Definition addPieceScore (pos piece : Z) (b : Board) : Board :=
  let packedScores := positionScores pos piece in
  set_scores (i16 (score b + unpackFirstScore packedScores))
             (i16 (egScore b + unpackSecondScore packedScores)) b.

Definition subtractPieceScore (pos piece : Z) (b : Board) : Board :=
  let packedScores := positionScores pos piece in
  set_scores (i16 (score b - unpackFirstScore packedScores))
             (i16 (egScore b - unpackSecondScore packedScores)) b.

(** [bitBoardPieces[piece + 6] |= (1 << pos)] and the same for the
    occupancy of the colour. *)
Definition setBits (pieceColor piece pos : Z) (b : Board) : Board :=
  let b := set_bitBoardPieces
             (setZ (bitBoardPieces b) (piece + 6)
                   (Z.lor (getZ (bitBoardPieces b) (piece + 6)) (bitAt pos))) b in
  set_bitBoardAllPieces
    (setZ (bitBoardAllPieces b) (pieceColor + 1)
          (Z.lor (getZ (bitBoardAllPieces b) (pieceColor + 1)) (bitAt pos))) b.

Definition addPieceWithoutIncrementalUpdate (pieceColor piece pos : Z) (b : Board)
  : Board :=
  let b := set_items (setZ (items b) pos piece) b in
  setBits pieceColor piece pos b.

Definition addPiece (pieceColor pieceId pos : Z) (b : Board) : Board :=
  let piece := pieceId * pieceColor in
  let b := set_items (setZ (items b) pos piece) b in
  let b := addPieceScore pos piece b in
  let b := xorHash (PIECE_RNG_NUMBERS E ((piece + 6) * 64 + pos)) b in
  setBits pieceColor piece pos b.

Definition remove (piece pieceColor pos : Z) (b : Board) : Board * Z :=
  let b := set_bitBoardPieces
             (setZ (bitBoardPieces b) (piece + 6)
                   (Z.land (getZ (bitBoardPieces b) (piece + 6)) (not64 (bitAt pos)))) b in
  let b := set_bitBoardAllPieces
             (setZ (bitBoardAllPieces b) (pieceColor + 1)
                   (Z.land (getZ (bitBoardAllPieces b) (pieceColor + 1))
                           (not64 (bitAt pos)))) b in
  let b := set_items (setZ (items b) pos EMPTY) b in
  let b :=
    if piece =? ROOK then
      if pos =? WHITE_QUEEN_SIDE_ROOK_START then setWhiteQueenSideRookMoved b
      else if pos =? WHITE_KING_SIDE_ROOK_START then setWhiteKingSideRookMoved b
      else b
    else if piece =? - ROOK then
      if pos =? BLACK_QUEEN_SIDE_ROOK_START then setBlackQueenSideRookMoved b
      else if pos =? BLACK_KING_SIDE_ROOK_START then setBlackKingSideRookMoved b
      else b
    else b in
  (b, piece).

Definition removePiece (pos : Z) (b : Board) : Board * Z :=
  let piece := getZ (items b) pos in
  let b := subtractPieceScore pos piece b in
  let b := xorHash (PIECE_RNG_NUMBERS E ((piece + 6) * 64 + pos)) b in
  let color := sign piece in
  remove piece color pos b.

Definition removePieceWithoutIncrementalUpdate (pos : Z) (b : Board) : Board * Z :=
  let piece := getZ (items b) pos in
  remove piece (sign piece) pos b.

(** *** En passant flags and counters *)

Definition setEnPassantPossible (boardIndex : Z) (b : Board) : Board :=
  let previousEnPassantState := getEnPassantStateBits b in
  let enPassentBitIndex :=
    if boardIndex >=? WHITE_PAWNS_BASELINE_START
    then boardIndex - WHITE_PAWNS_BASELINE_START + 8
    else boardIndex - BLACK_PAWNS_BASELINE_START in
  let b := setStateBit (getZ EN_PASSANT_BITMASKS enPassentBitIndex) b in
  updateHashForEnPassent previousEnPassantState b.

Definition clearEnPassentPossible (b : Board) : Board :=
  let previousEnPassantState := getEnPassantStateBits b in
  if negb (previousEnPassantState =? 0) then
    let b := set_items (setZ (items b) (lenZ (items b) - 1)
               (Z.land (getState b) (sub32 (getZ EN_PASSANT_BITMASKS 0) 1))) b in
    updateHashForEnPassent previousEnPassantState b
  else b.

Definition increaseHalfMoveCount (b : Board) : Board :=
  let b := set_halfMoveClock (i16 (halfMoveClock b + 1)) b in
  let b := set_halfMoveCount (i16 (halfMoveCount b + 1)) b in
  xorHash (PLAYER_RNG_NUMBER E) b.

Definition resetHalfMoveClock (b : Board) : Board := set_halfMoveClock 0 b.

Definition pushPositionHistory (b : Board) : Board :=
  set_positionHistory (getHash b :: positionHistory b) b.

Definition popPositionHistory (b : Board) : Board :=
  set_positionHistory (tail (positionHistory b)) b.

(** *** Make and unmake *)

Definition performMove (pieceId start end_ : Z) (b : Board) : Board * Z :=
  let b := storeState b in
  let b := increaseHalfMoveCount b in
  let '(b, ownPiece) := removePiece start b in
  let pieceColor := sign ownPiece in
  let b := clearEnPassentPossible b in
  if negb (getItem b end_ =? EMPTY) then
    (* Capture move (except en passant) *)
    let '(b, removedPiece) := removePiece end_ b in
    let b := addPiece pieceColor pieceId end_ b in
    let b := resetHalfMoveClock b in
    let b := if pieceId =? KING then updateKingPosition pieceColor end_ b else b in
    (pushPositionHistory b, abs32 removedPiece)
  else
    let b := addPiece pieceColor pieceId end_ b in
    if ownPiece =? PAWN then
      let b := resetHalfMoveClock b in
      (* Special en passant handling *)
      if start - end_ =? 16 then
        let b := setEnPassantPossible start b in
        (pushPositionHistory b, EMPTY)
      else if start - end_ =? 7 then
        let b := fst (removePiece (start + WHITE) b) in
        (pushPositionHistory b, EN_PASSANT_BIT)
      else if start - end_ =? 9 then
        let b := fst (removePiece (start - WHITE) b) in
        (pushPositionHistory b, EN_PASSANT_BIT)
      else (pushPositionHistory b, EMPTY)
    else if ownPiece =? - PAWN then
      let b := resetHalfMoveClock b in
      if start - end_ =? -16 then
        let b := setEnPassantPossible start b in
        (pushPositionHistory b, EMPTY)
      else if start - end_ =? -7 then
        let b := fst (removePiece (start + BLACK) b) in
        (pushPositionHistory b, EN_PASSANT_BIT)
      else if start - end_ =? -9 then
        let b := fst (removePiece (start - BLACK) b) in
        (pushPositionHistory b, EN_PASSANT_BIT)
      else (pushPositionHistory b, EMPTY)
    else if ownPiece =? KING then
      let b := updateWhiteKingPosition end_ b in
      (* Special castling handling *)
      let b :=
        if start - end_ =? -2 then
          let b := fst (removePiece WHITE_KING_SIDE_ROOK_START b) in
          let b := addPiece pieceColor ROOK (WHITE_KING_START + 1) b in
          setStateBit WHITE_HAS_CASTLED b
        else if start - end_ =? 2 then
          let b := fst (removePiece WHITE_QUEEN_SIDE_ROOK_START b) in
          let b := addPiece pieceColor ROOK (WHITE_KING_START - 1) b in
          setStateBit WHITE_HAS_CASTLED b
        else b in
      (pushPositionHistory b, EMPTY)
    else if ownPiece =? - KING then
      let b := updateBlackKingPosition end_ b in
      let b :=
        if start - end_ =? -2 then
          let b := fst (removePiece BLACK_KING_SIDE_ROOK_START b) in
          let b := addPiece pieceColor ROOK (BLACK_KING_START + 1) b in
          setStateBit BLACK_HAS_CASTLED b
        else if start - end_ =? 2 then
          let b := fst (removePiece BLACK_QUEEN_SIDE_ROOK_START b) in
          let b := addPiece pieceColor ROOK (BLACK_KING_START - 1) b in
          setStateBit BLACK_HAS_CASTLED b
        else b in
      (pushPositionHistory b, EMPTY)
    else (pushPositionHistory b, EMPTY).

Definition performNullMove (b : Board) : Board :=
  let b := storeState b in
  let b := increaseHalfMoveCount b in
  clearEnPassentPossible b.

Definition undoMove (piece start end_ removedPieceId : Z) (b : Board) : Board :=
  let b := popPositionHistory b in
  let pieceColor := sign piece in
  let b := fst (removePieceWithoutIncrementalUpdate end_ b) in
  let b := addPieceWithoutIncrementalUpdate pieceColor piece start b in
  let b :=
    if removedPieceId =? EN_PASSANT_BIT then
      if abs32 (start - end_) =? 7 then
        addPieceWithoutIncrementalUpdate (- pieceColor) (PAWN * - pieceColor)
                                         (start + pieceColor) b
      else if abs32 (start - end_) =? 9 then
        addPieceWithoutIncrementalUpdate (- pieceColor) (PAWN * - pieceColor)
                                         (start - pieceColor) b
      else b
    else if negb (removedPieceId =? EMPTY) then
      addPieceWithoutIncrementalUpdate (- pieceColor) (removedPieceId * - pieceColor)
                                       end_ b
    else b in
  let b :=
    if piece =? KING then
      let b := updateWhiteKingPosition start b in
      (* Undo Castle *)
      if start - end_ =? -2 then
        let b := fst (removePieceWithoutIncrementalUpdate (WHITE_KING_START + 1) b) in
        addPieceWithoutIncrementalUpdate WHITE ROOK WHITE_KING_SIDE_ROOK_START b
      else if start - end_ =? 2 then
        let b := fst (removePieceWithoutIncrementalUpdate (WHITE_KING_START - 1) b) in
        addPieceWithoutIncrementalUpdate WHITE ROOK WHITE_QUEEN_SIDE_ROOK_START b
      else b
    else if piece =? - KING then
      let b := updateBlackKingPosition start b in
      if start - end_ =? -2 then
        let b := fst (removePieceWithoutIncrementalUpdate (BLACK_KING_START + 1) b) in
        addPieceWithoutIncrementalUpdate BLACK (- ROOK) BLACK_KING_SIDE_ROOK_START b
      else if start - end_ =? 2 then
        let b := fst (removePieceWithoutIncrementalUpdate (BLACK_KING_START - 1) b) in
        addPieceWithoutIncrementalUpdate BLACK (- ROOK) BLACK_QUEEN_SIDE_ROOK_START b
      else b
    else b in
  restoreState b.

Definition undoNullMove (b : Board) : Board := restoreState b.

(** *** End game status *)

Definition isEndGame (b : Board) : bool := negb (endgame b =? 0).

Definition updateEndGameStatus (b : Board) : Board :=
  let pawnCount := popcnt (getBitBoard b PAWN) + popcnt (getBitBoard b (- PAWN)) in
  if pawnCount <=? 3 then set_endgame 1 b
  else
    let otherPieceCount :=
      popcnt (getBitBoard b KNIGHT) + popcnt (getBitBoard b (- KNIGHT)) +
      popcnt (getBitBoard b BISHOP) + popcnt (getBitBoard b (- BISHOP)) +
      popcnt (getBitBoard b ROOK) + popcnt (getBitBoard b (- ROOK)) +
      popcnt (getBitBoard b QUEEN) + popcnt (getBitBoard b (- QUEEN)) in
    set_endgame (if otherPieceCount <=? 3 then 1 else 0) b.

End BoardOperations.

(* ------------------------------------------------------------------ *)
(** ** Construction *)

Inductive ConstructionError : Type :=
| InvalidBoardItemLength (length : Z)
| WhiteKingMissing
| BlackKingMissing.

(** The message of the thrown [Error]; the length is left out of the text. *)
Definition errorMessage (e : ConstructionError) : string :=
  match e with
  | InvalidBoardItemLength _ => "Invalid board item length: "
  | WhiteKingMissing => "White king is missing on the board"
  | BlackKingMissing => "Black king is missing on the board!"
  end.

Definition isWhiteKing (piece : Z) : bool := piece =? KING.
Definition isBlackKing (piece : Z) : bool := piece =? - KING.

(** [Array.findIndex]: first index whose element satisfies [p], else -1. *)
Fixpoint findIndexFrom (p : Z -> bool) (l : list Z) (i : Z) : Z :=
  match l with
  | [] => -1
  | x :: r => if p x then i else findIndexFrom p r (i + 1)
  end.

Definition findIndex (p : Z -> bool) (l : list Z) : Z := findIndexFrom p l 0.

(** The field initialisers of the class, for an [items] array of [n] slots. *)
Definition freshBoard (n : nat) : Board :=
  let history := replicate (Z.to_nat MAX_GAME_HALFMOVES) 0 in
  mkBoard (replicate n 0) 0 0 0 0 0 0 (replicate 13 0) (replicate 3 0) 0
          0 history history history history [] 0.

Section Construction.

Context (E : Externals).

Definition placeInput (input : list Z) (b : Board) (i : Z) : Board :=
  let piece := getZ input i in
  if negb (piece =? EMPTY)
  then addPiece E (sign piece) (abs32 piece) i b
  else set_items (setZ (items b) i (getZ input i)) b.

Definition Board_constructor (input : list Z) : ConstructionError + Board :=
  if lenZ input <? STATE_INDEX + 1 then inl (InvalidBoardItemLength (lenZ input))
  else
    let b := freshBoard (length input) in
    let b := set_whiteKingIndex (findIndex isWhiteKing input) b in
    let b := set_blackKingIndex (findIndex isBlackKing input) b in
    if whiteKingIndex b =? -1 then inl WhiteKingMissing
    else if blackKingIndex b =? -1 then inl BlackKingMissing
    else
      let b := fold_left (placeInput input) squares b in
      let b := set_items (setZ (items b) STATE_INDEX (getZ input STATE_INDEX)) b in
      let b := set_halfMoveClock (i16 (getZ input HALFMOVE_CLOCK_INDEX)) b in
      let b := set_halfMoveCount (i16 (getZ input HALFMOVE_COUNT_INDEX)) b in
      inr (updateEndGameStatus b).

End Construction.

(* ------------------------------------------------------------------ *)
(** ** The piece placement and its coherence

    The placement of a board is its mailbox (the slots of [items] below
    the state slot) together with the piece and occupancy bitboards. *)

Record Placement : Type := mkPlacement {
  mail : list Z;
  pcs : list Z;
  occ : list Z
}.

Definition placement (b : Board) : Placement :=
  mkPlacement (take 66 (items b)) (bitBoardPieces b) (bitBoardAllPieces b).

Definition clearBit (l : list Z) (k pos : Z) : list Z :=
  setZ l k (Z.land (getZ l k) (not64 (bitAt pos))).

Definition setBit (l : list Z) (k pos : Z) : list Z :=
  setZ l k (Z.lor (getZ l k) (bitAt pos)).

(** What [remove] does to the placement. *)
Definition pRemove (pos : Z) (P : Placement) : Placement :=
  let piece := getZ (mail P) pos in
  mkPlacement (setZ (mail P) pos EMPTY)
              (clearBit (pcs P) (piece + 6) pos)
              (clearBit (occ P) (sign piece + 1) pos).

(** What [addPiece] does to the placement. *)
Definition pAdd (color piece pos : Z) (P : Placement) : Placement :=
  mkPlacement (setZ (mail P) pos piece)
              (setBit (pcs P) (piece + 6) pos)
              (setBit (occ P) (color + 1) pos).

Definition in_u64b (x : Z) : bool := (0 <=? x) && (x <? 2 ^ 64).

(** Bit [s] of piece bitboard [k] is set exactly when the mailbox holds
    piece [k - 6] on [s]; bitboard 6 (no piece) is empty. *)
Definition pieceBitOk (P : Placement) (s k : Z) : bool :=
  Bool.eqb (Z.testbit (getZ (pcs P) k) s)
           (negb (k =? 6) && (getZ (mail P) s =? k - 6)).

(** Bit [s] of occupancy bitboard [c] is set exactly when the piece on
    [s] has colour [c - 1]; bitboard 1 (no colour) is empty. *)
Definition occBitOk (P : Placement) (s c : Z) : bool :=
  Bool.eqb (Z.testbit (getZ (occ P) c) s)
           (negb (c =? 1) && (sign (getZ (mail P) s) =? c - 1)).

Definition squareOk (P : Placement) (s : Z) : bool :=
  (-6 <=? getZ (mail P) s) && (getZ (mail P) s <=? 6)
  && forallb (pieceBitOk P s) (seqZ 0 13)
  && forallb (occBitOk P s) (seqZ 0 3).

Definition coherentb (P : Placement) : bool :=
  (lenZ (mail P) =? 66) && (lenZ (pcs P) =? 13) && (lenZ (occ P) =? 3)
  && forallb in_u64b (pcs P) && forallb in_u64b (occ P)
  && forallb (squareOk P) squares.

Record coherent (P : Placement) : Prop := {
  coh_mail_len : lenZ (mail P) = 66;
  coh_pcs_len : lenZ (pcs P) = 13;
  coh_occ_len : lenZ (occ P) = 3;
  coh_pcs_range : forall k, in_u64 (getZ (pcs P) k);
  coh_occ_range : forall c, in_u64 (getZ (occ P) c);
  coh_piece_range : forall s, 0 <= s < 64 -> -6 <= getZ (mail P) s <= 6;
  coh_pcs_bits : forall s k, 0 <= s < 64 -> 0 <= k < 13 ->
    Z.testbit (getZ (pcs P) k) s = negb (k =? 6) && (getZ (mail P) s =? k - 6);
  coh_occ_bits : forall s c, 0 <= s < 64 -> 0 <= c < 3 ->
    Z.testbit (getZ (occ P) c) s = negb (c =? 1) && (sign (getZ (mail P) s) =? c - 1)
}.

Lemma in_u64b_spec x : in_u64b x = true <-> in_u64 x.
Proof. unfold in_u64b, in_u64. rewrite andb_true_iff, Z.leb_le, Z.ltb_lt. tauto. Qed.

Lemma getZ_range (l : list Z) (R : Z -> Prop) i :
  R 0 -> (forall x, List.In x l -> R x) -> R (getZ l i).
Proof.
  intros H0 H. unfold getZ. destruct (i <? 0); [exact H0 |].
  destruct (Nat.lt_ge_cases (Z.to_nat i) (length l)) as [Hlt | Hge].
  - apply H. apply List.nth_In. exact Hlt.
  - rewrite List.nth_overflow by lia. exact H0.
Qed.

Lemma getZ_In (l : list Z) i : 0 <= i < lenZ l -> List.In (getZ l i) l.
Proof.
  unfold getZ, lenZ. intros H. destruct (Z.ltb_spec i 0); [lia |].
  apply List.nth_In. lia.
Qed.

Lemma in_seqZ a n x : List.In x (seqZ a n) <-> a <= x < a + n.
Proof. rewrite <- list_elem_of_In, elem_of_seqZ. reflexivity. Qed.

Lemma coherentb_sound P : coherentb P = true -> coherent P.
Proof.
  unfold coherentb. rewrite !andb_true_iff.
  intros (((((Hm & Hp) & Ho) & Hpr) & Hor) & Hsq).
  apply Z.eqb_eq in Hm, Hp, Ho.
  rewrite forallb_forall in Hpr, Hor, Hsq.
  assert (Hs : forall s, 0 <= s < 64 -> squareOk P s = true).
  { intros s Hs. apply Hsq. apply in_squares. exact Hs. }
  unfold squareOk in Hs.
  split; trivial.
  - intros k. apply getZ_range; [unfold in_u64; lia |].
    intros x Hx. apply in_u64b_spec. apply Hpr. exact Hx.
  - intros c. apply getZ_range; [unfold in_u64; lia |].
    intros x Hx. apply in_u64b_spec. apply Hor. exact Hx.
  - intros s Hs'. specialize (Hs s Hs'). rewrite !andb_true_iff in Hs.
    destruct Hs as (((Hlo & Hhi) & _) & _). apply Z.leb_le in Hlo, Hhi. lia.
  - intros s k Hs' Hk. specialize (Hs s Hs'). rewrite !andb_true_iff in Hs.
    destruct Hs as ((_ & Hb) & _). rewrite forallb_forall in Hb.
    specialize (Hb k). unfold pieceBitOk in Hb. apply Bool.eqb_prop.
    apply Hb. apply in_seqZ. lia.
  - intros s c Hs' Hc. specialize (Hs s Hs'). rewrite !andb_true_iff in Hs.
    destruct Hs as (_ & Hb). rewrite forallb_forall in Hb.
    specialize (Hb c). unfold occBitOk in Hb. apply Bool.eqb_prop.
    apply Hb. apply in_seqZ. lia.
Qed.

Lemma coherentb_complete P : coherent P -> coherentb P = true.
Proof.
  intros [Hm Hp Ho Hpr Hor Hr Hpb Hob].
  unfold coherentb. rewrite !andb_true_iff. repeat split.
  - apply Z.eqb_eq. exact Hm.
  - apply Z.eqb_eq. exact Hp.
  - apply Z.eqb_eq. exact Ho.
  - apply forallb_forall. intros x Hx. apply in_u64b_spec.
    apply List.In_nth with (d := 0) in Hx. destruct Hx as (n & Hn & <-).
    specialize (Hpr (Z.of_nat n)). unfold getZ in Hpr.
    destruct (Z.ltb_spec (Z.of_nat n) 0); [lia |]. rewrite Nat2Z.id in Hpr. exact Hpr.
  - apply forallb_forall. intros x Hx. apply in_u64b_spec.
    apply List.In_nth with (d := 0) in Hx. destruct Hx as (n & Hn & <-).
    specialize (Hor (Z.of_nat n)). unfold getZ in Hor.
    destruct (Z.ltb_spec (Z.of_nat n) 0); [lia |]. rewrite Nat2Z.id in Hor. exact Hor.
  - apply forallb_forall. intros s Hs. apply in_squares in Hs.
    unfold squareOk. rewrite !andb_true_iff. repeat split.
    + apply Z.leb_le. apply Hr. exact Hs.
    + apply Z.leb_le. apply Hr. exact Hs.
    + apply forallb_forall. intros k Hk. apply in_seqZ in Hk.
      unfold pieceBitOk. rewrite Hpb by lia. apply Bool.eqb_reflx.
    + apply forallb_forall. intros c Hc. apply in_seqZ in Hc.
      unfold occBitOk. rewrite Hob by lia. apply Bool.eqb_reflx.
Qed.

Lemma testbit_clearBit l k pos k' s :
  0 <= k < lenZ l -> 0 <= pos < 64 -> 0 <= s < 64 ->
  Z.testbit (getZ (clearBit l k pos) k') s
  = if k' =? k then Z.testbit (getZ l k) s && negb (s =? pos)
    else Z.testbit (getZ l k') s.
Proof.
  intros Hk Hp Hs. unfold clearBit. rewrite getZ_setZ by trivial.
  destruct (k' =? k); [| reflexivity].
  rewrite Z.land_spec, testbit_not64, testbit_bitAt by lia.
  replace (s <? 64) with true by (symmetry; apply Z.ltb_lt; lia). reflexivity.
Qed.

Lemma testbit_setBit l k pos k' s :
  0 <= k < lenZ l -> 0 <= pos < 64 ->
  Z.testbit (getZ (setBit l k pos) k') s
  = if k' =? k then Z.testbit (getZ l k) s || (s =? pos)
    else Z.testbit (getZ l k') s.
Proof.
  intros Hk Hp. unfold setBit. rewrite getZ_setZ by trivial.
  destruct (k' =? k); [| reflexivity].
  rewrite Z.lor_spec, testbit_bitAt by lia. reflexivity.
Qed.

Lemma clearBit_range l k pos k' :
  0 <= k < lenZ l -> (forall j, in_u64 (getZ l j)) ->
  in_u64 (getZ (clearBit l k pos) k').
Proof.
  intros Hk H. unfold clearBit. rewrite getZ_setZ by trivial.
  destruct (k' =? k); [| apply H]. apply land_range. apply H.
Qed.

Lemma setBit_range l k pos k' :
  0 <= k < lenZ l -> (forall j, in_u64 (getZ l j)) ->
  in_u64 (getZ (setBit l k pos) k').
Proof.
  intros Hk H. unfold setBit. rewrite getZ_setZ by trivial.
  destruct (k' =? k); [| apply H]. apply lor_range; [apply H | apply bitAt_range].
Qed.

(** Case analysis on every integer comparison of the goal, closing the
    cases by linear arithmetic. *)
Ltac split_eqb :=
  cbn [negb andb orb]; change (sign 0) with 0 in *;
  repeat match goal with
         | |- context [?a =? ?b] => destruct (Z.eqb_spec a b); cbn [negb andb orb]
         end;
  try reflexivity; try lia.

Lemma sign_range x : -1 <= sign x <= 1.
Proof. unfold sign. destruct x; cbn; lia. Qed.

Lemma coherent_pRemove P pos :
  coherent P -> 0 <= pos < 64 -> coherent (pRemove pos P).
Proof.
  intros [Hm Hp Ho Hpr Hor Hr Hpb Hob] Hpos.
  pose proof (Hr pos Hpos) as Hrp.
  pose proof (sign_range (getZ (mail P) pos)) as Hsg.
  unfold pRemove. split; cbn [mail pcs occ].
  - rewrite lenZ_setZ. exact Hm.
  - unfold clearBit. rewrite lenZ_setZ. exact Hp.
  - unfold clearBit. rewrite lenZ_setZ. exact Ho.
  - intros k. apply clearBit_range; [lia | exact Hpr].
  - intros c. apply clearBit_range; [lia | exact Hor].
  - intros s Hs. rewrite getZ_setZ by lia. unfold EMPTY.
    destruct (s =? pos); [lia | apply Hr; exact Hs].
  - intros s k Hs Hk. rewrite testbit_clearBit by lia.
    rewrite (getZ_setZ (mail P)) by lia. rewrite !Hpb by lia. unfold EMPTY.
    destruct (Z.eqb_spec s pos) as [Hsp | Hsp]; [subst s |];
      destruct (Z.eqb_spec k (getZ (mail P) pos + 6)); split_eqb.
  - intros s c Hs Hc. rewrite testbit_clearBit by lia.
    rewrite (getZ_setZ (mail P)) by lia. rewrite !Hob by lia. unfold EMPTY.
    destruct (Z.eqb_spec s pos) as [Hsp | Hsp]; [subst s |];
      destruct (Z.eqb_spec c (sign (getZ (mail P) pos) + 1)); split_eqb.
Qed.

Lemma coherent_pAdd P color piece pos :
  coherent P -> 0 <= pos < 64 -> getZ (mail P) pos = 0 ->
  -6 <= piece <= 6 -> piece <> 0 -> color = sign piece ->
  coherent (pAdd color piece pos P).
Proof.
  intros [Hm Hp Ho Hpr Hor Hr Hpb Hob] Hpos Hemp Hpc Hnz ->.
  pose proof (sign_range piece) as Hsg.
  assert (Hs0 : sign piece <> 0) by (unfold sign; destruct piece; cbn; lia).
  unfold pAdd. split; cbn [mail pcs occ].
  - rewrite lenZ_setZ. exact Hm.
  - unfold setBit. rewrite lenZ_setZ. exact Hp.
  - unfold setBit. rewrite lenZ_setZ. exact Ho.
  - intros k. apply setBit_range; [lia | exact Hpr].
  - intros c. apply setBit_range; [lia | exact Hor].
  - intros s Hs. rewrite getZ_setZ by lia.
    destruct (s =? pos); [lia | apply Hr; exact Hs].
  - intros s k Hs Hk. rewrite testbit_setBit by lia.
    rewrite (getZ_setZ (mail P)) by lia. rewrite !Hpb by lia.
    destruct (Z.eqb_spec s pos) as [Hsp | Hsp]; [subst s |];
      destruct (Z.eqb_spec k (piece + 6)); rewrite ?Hemp; split_eqb.
  - intros s c Hs Hc. rewrite testbit_setBit by lia.
    rewrite (getZ_setZ (mail P)) by lia. rewrite !Hob by lia.
    destruct (Z.eqb_spec s pos) as [Hsp | Hsp]; [subst s |];
      destruct (Z.eqb_spec c (sign piece + 1)); rewrite ?Hemp; split_eqb.
Qed.

(** A coherent placement is determined by its mailbox. *)
Lemma coherent_unique P Q :
  coherent P -> coherent Q -> mail P = mail Q -> P = Q.
Proof.
  intros [Hm Hp Ho Hpr Hor Hr Hpb Hob] [Hm' Hp' Ho' Hpr' Hor' Hr' Hpb' Hob'] Heq.
  destruct P as [m p o], Q as [m' p' o']. cbn [mail pcs occ] in *. subst m'.
  f_equal.
  - apply list_eq_getZ; [unfold lenZ in *; lia |].
    intros k Hk. apply bits_eq64; trivial.
    intros s Hs. rewrite Hpb, Hpb' by lia. reflexivity.
  - apply list_eq_getZ; [unfold lenZ in *; lia |].
    intros c Hc. apply bits_eq64; trivial.
    intros s Hs. rewrite Hob, Hob' by lia. reflexivity.
Qed.

(* ------------------------------------------------------------------ *)
(** ** Effects of the board operations

    Every operation is described by what it does to the placement, to the
    frame (king squares, half-move count, position history, end game flag)
    and to the history stack.  The remaining fields (state slot, hash,
    scores, half-move clock) are restored from the history when a move is
    undone. *)

Record Frame : Type := mkFrame {
  f_whiteKing : Z;
  f_blackKing : Z;
  f_count : Z;
  f_positions : list Z;
  f_endgame : Z
}.

Definition frame (b : Board) : Frame :=
  mkFrame (whiteKingIndex b) (blackKingIndex b) (halfMoveCount b)
          (positionHistory b) (endgame b).

Record History : Type := mkHistory {
  h_counter : Z;
  h_state : list Z;
  h_hash : list Z;
  h_score : list Z;
  h_clock : list Z
}.

Definition history (b : Board) : History :=
  mkHistory (historyCounter b) (stateHistory b) (hashCodeHistory b)
            (scoreHistory b) (halfMoveClockHistory b).

(** The two score accumulators hold 16-bit values. *)
Definition scoresOk (b : Board) : Prop := in_i16 (score b) /\ in_i16 (egScore b).

Definition effect (g : Placement -> Placement) (k : Frame -> Frame) (b b' : Board)
  : Prop :=
  lenZ (items b') = lenZ (items b) /\
  placement b' = g (placement b) /\
  frame b' = k (frame b) /\
  history b' = history b /\
  (scoresOk b -> scoresOk b').

(** Proves an effect whose components hold by computation. *)
Ltac effect_refl :=
  split; [reflexivity |]; split; [reflexivity |]; split; [reflexivity |];
  split; [reflexivity |];
  first [ let Hx := fresh in intros Hx; exact Hx
        | intros _; split; apply i16_range ].

(** The last three components of an effect that leaves the frame alone. *)
Ltac effect_rest :=
  split; [reflexivity |]; split; [reflexivity |];
  first [ let Hx := fresh in intros Hx; exact Hx
        | intros _; split; apply i16_range ].

(** An operation that leaves placement and frame alone. *)
Definition keeps (b b' : Board) : Prop := effect id id b b'.

Lemma effect_trans g k g' k' b b' b'' :
  effect g k b b' -> effect g' k' b' b'' ->
  effect (fun P => g' (g P)) (fun F => k' (k F)) b b''.
Proof.
  intros (Hl & Hp & Hf & Hh & Hs) (Hl' & Hp' & Hf' & Hh' & Hs').
  split; [congruence |]. split; [congruence |]. split; [congruence |].
  split; [congruence |]. auto.
Qed.

Lemma keeps_refl b : keeps b b.
Proof. effect_refl. Qed.

Lemma keeps_trans b b' b'' : keeps b b' -> keeps b' b'' -> keeps b b''.
Proof. intros H H'. exact (effect_trans _ _ _ _ _ _ _ H H'). Qed.

Lemma keeps_effect_l g k b b' b'' :
  keeps b b' -> effect g k b' b'' -> effect g k b b''.
Proof. intros H H'. exact (effect_trans _ _ _ _ _ _ _ H H'). Qed.

Lemma effect_keeps_r g k b b' b'' :
  effect g k b b' -> keeps b' b'' -> effect g k b b''.
Proof. intros H H'. exact (effect_trans _ _ _ _ _ _ _ H H'). Qed.

Lemma take_setZ_ge l n i v : Z.of_nat n <= i -> take n (setZ l i v) = take n l.
Proof.
  intros H. unfold setZ. destruct (i <? 0); [reflexivity |].
  apply take_insert_ge. lia.
Qed.

Lemma take_setZ_lt l n i v :
  0 <= i < Z.of_nat n -> take n (setZ l i v) = setZ (take n l) i v.
Proof.
  intros H. unfold setZ. destruct (Z.ltb_spec i 0); [lia |].
  apply take_insert_lt. lia.
Qed.

Lemma getZ_take l n i : i < Z.of_nat n -> getZ (take n l) i = getZ l i.
Proof.
  intros H. unfold getZ. destruct (Z.ltb_spec i 0); [reflexivity |].
  rewrite !nth_lookup. rewrite lookup_take_lt by lia. reflexivity.
Qed.

Lemma lenZ_take l n : Z.of_nat n <= lenZ l -> lenZ (take n l) = Z.of_nat n.
Proof. unfold lenZ. intros H. rewrite length_take_le by lia. reflexivity. Qed.

Section Effects.

Context (E : Externals).

Lemma keeps_xorHash v b : keeps b (xorHash v b).
Proof. effect_refl. Qed.

Lemma keeps_set_halfMoveClock v b : keeps b (set_halfMoveClock v b).
Proof. effect_refl. Qed.

Lemma keeps_set_hashCode v b : keeps b (set_hashCode v b).
Proof. effect_refl. Qed.

(** Writing the state slot: the slot lies above the mailbox. *)
Lemma keeps_state_slot v b :
  67 <= lenZ (items b) ->
  keeps b (set_items (setZ (items b) (lenZ (items b) - 1) v) b).
Proof.
  intros H. split; [apply lenZ_setZ |]. split; [| effect_rest].
  unfold placement. cbn. rewrite take_setZ_ge by lia. reflexivity.
Qed.

Lemma keeps_setStateBit m b : 67 <= lenZ (items b) -> keeps b (setStateBit m b).
Proof. apply keeps_state_slot. Qed.

Lemma keeps_clearStateBit m b : 67 <= lenZ (items b) -> keeps b (clearStateBit m b).
Proof. apply keeps_state_slot. Qed.

Lemma keeps_len b b' : keeps b b' -> lenZ (items b') = lenZ (items b).
Proof. intros H. apply H. Qed.

Lemma keeps_updateHashForCastling p b : keeps b (updateHashForCastling E p b).
Proof. effect_refl. Qed.

Lemma keeps_updateHashForEnPassent p b : keeps b (updateHashForEnPassent E p b).
Proof.
  unfold updateHashForEnPassent.
  destruct (negb (p =? getEnPassantStateBits b)); [| apply keeps_refl].
  destruct (negb (p =? 0)), (negb (getEnPassantStateBits b =? 0));
    effect_refl.
Qed.

Lemma keeps_setRookMoved can right b :
  67 <= lenZ (items b) -> keeps b (setRookMoved E can right b).
Proof.
  intros H. unfold setRookMoved. destruct (can b); [| apply keeps_refl].
  eapply keeps_trans; [apply keeps_clearStateBit; exact H |].
  apply keeps_updateHashForCastling.
Qed.

Lemma keeps_setWhiteKingMoved b :
  67 <= lenZ (items b) -> keeps b (setWhiteKingMoved E b).
Proof.
  intros H. unfold setWhiteKingMoved.
  destruct (canWhiteCastleKingSide b || canWhiteCastleQueenSide b);
    [| apply keeps_refl].
  pose proof (keeps_clearStateBit WHITE_KING_SIDE_CASTLING b H) as H1.
  eapply keeps_trans; [exact H1 |].
  eapply keeps_trans; [apply keeps_clearStateBit; rewrite (keeps_len _ _ H1); exact H |].
  apply keeps_updateHashForCastling.
Qed.

Lemma keeps_setBlackKingMoved b :
  67 <= lenZ (items b) -> keeps b (setBlackKingMoved E b).
Proof.
  intros H. unfold setBlackKingMoved.
  destruct (canBlackCastleKingSide b || canBlackCastleQueenSide b);
    [| apply keeps_refl].
  pose proof (keeps_clearStateBit BLACK_KING_SIDE_CASTLING b H) as H1.
  eapply keeps_trans; [exact H1 |].
  eapply keeps_trans; [apply keeps_clearStateBit; rewrite (keeps_len _ _ H1); exact H |].
  apply keeps_updateHashForCastling.
Qed.

Lemma keeps_clearEnPassentPossible b :
  67 <= lenZ (items b) -> keeps b (clearEnPassentPossible E b).
Proof.
  intros H. unfold clearEnPassentPossible.
  destruct (negb (getEnPassantStateBits b =? 0)); [| apply keeps_refl].
  eapply keeps_trans; [apply keeps_state_slot; exact H |].
  apply keeps_updateHashForEnPassent.
Qed.

Lemma keeps_setEnPassantPossible i b :
  67 <= lenZ (items b) -> keeps b (setEnPassantPossible E i b).
Proof.
  intros H. unfold setEnPassantPossible.
  eapply keeps_trans; [apply keeps_setStateBit; exact H |].
  apply keeps_updateHashForEnPassent.
Qed.

Lemma keeps_resetHalfMoveClock b : keeps b (resetHalfMoveClock b).
Proof. effect_refl. Qed.

Lemma keeps_addPieceScore pos piece b : keeps b (addPieceScore E pos piece b).
Proof. effect_refl. Qed.

Lemma keeps_subtractPieceScore pos piece b : keeps b (subtractPieceScore E pos piece b).
Proof. effect_refl. Qed.

(** *** Removing a piece *)

Lemma effect_remove pos b :
  67 <= lenZ (items b) -> 0 <= pos < 64 ->
  effect (pRemove pos) id b
         (fst (remove E (getZ (items b) pos) (sign (getZ (items b) pos)) pos b)).
Proof.
  intros H Hpos. unfold remove.
  set (piece := getZ (items b) pos).
  set (b1 := set_items _ _).
  assert (H1 : effect (pRemove pos) id b b1).
  { subst b1. split; [apply lenZ_setZ |]. split; [| effect_rest].
    unfold placement, pRemove, clearBit. cbn.
    rewrite take_setZ_lt by lia. rewrite getZ_take by lia.
    fold piece. reflexivity. }
  assert (Hl1 : 67 <= lenZ (items b1)) by (destruct H1 as (-> & _); exact H).
  cbn [fst].
  destruct (piece =? ROOK).
  - destruct (pos =? WHITE_QUEEN_SIDE_ROOK_START);
      [eapply effect_keeps_r; [exact H1 | apply keeps_setRookMoved; exact Hl1] |].
    destruct (pos =? WHITE_KING_SIDE_ROOK_START);
      [eapply effect_keeps_r; [exact H1 | apply keeps_setRookMoved; exact Hl1] |].
    exact H1.
  - destruct (piece =? - ROOK); [| exact H1].
    destruct (pos =? BLACK_QUEEN_SIDE_ROOK_START);
      [eapply effect_keeps_r; [exact H1 | apply keeps_setRookMoved; exact Hl1] |].
    destruct (pos =? BLACK_KING_SIDE_ROOK_START);
      [eapply effect_keeps_r; [exact H1 | apply keeps_setRookMoved; exact Hl1] |].
    exact H1.
Qed.

Lemma snd_remove piece color pos b : snd (remove E piece color pos b) = piece.
Proof. reflexivity. Qed.

Lemma effect_removePieceWithoutIncrementalUpdate pos b :
  67 <= lenZ (items b) -> 0 <= pos < 64 ->
  effect (pRemove pos) id b (fst (removePieceWithoutIncrementalUpdate E pos b)).
Proof. apply effect_remove. Qed.

Lemma effect_removePiece pos b :
  67 <= lenZ (items b) -> 0 <= pos < 64 ->
  effect (pRemove pos) id b (fst (removePiece E pos b)).
Proof.
  intros H Hpos. unfold removePiece.
  set (piece := getZ (items b) pos).
  set (b1 := xorHash _ _).
  assert (K : keeps b b1) by (subst b1; effect_refl).
  eapply keeps_effect_l; [exact K |].
  change piece with (getZ (items b1) pos).
  apply effect_remove; trivial.
Qed.

Lemma snd_removePiece pos b : snd (removePiece E pos b) = getZ (items b) pos.
Proof. reflexivity. Qed.

(** *** Adding a piece *)

Lemma effect_addPieceWithoutIncrementalUpdate color piece pos b :
  67 <= lenZ (items b) -> 0 <= pos < 64 ->
  effect (pAdd color piece pos) id b
         (addPieceWithoutIncrementalUpdate color piece pos b).
Proof.
  intros H Hpos. split; [apply lenZ_setZ |]. split; [| effect_rest].
  unfold placement, pAdd, setBit. cbn.
  rewrite take_setZ_lt by lia. reflexivity.
Qed.

Lemma effect_addPiece color pieceId pos b :
  67 <= lenZ (items b) -> 0 <= pos < 64 ->
  effect (pAdd color (pieceId * color) pos) id b (addPiece E color pieceId pos b).
Proof.
  intros H Hpos. split; [apply lenZ_setZ |]. split; [| effect_rest].
  unfold placement, pAdd, setBit. cbn.
  rewrite take_setZ_lt by lia. reflexivity.
Qed.

(** *** Kings, counters, position history *)

Definition withWhiteKing (i : Z) (F : Frame) : Frame :=
  mkFrame i (f_blackKing F) (f_count F) (f_positions F) (f_endgame F).
Definition withBlackKing (i : Z) (F : Frame) : Frame :=
  mkFrame (f_whiteKing F) i (f_count F) (f_positions F) (f_endgame F).
Definition withCount (c : Z) (F : Frame) : Frame :=
  mkFrame (f_whiteKing F) (f_blackKing F) c (f_positions F) (f_endgame F).
Definition withPositions (p : list Z) (F : Frame) : Frame :=
  mkFrame (f_whiteKing F) (f_blackKing F) (f_count F) p (f_endgame F).

Lemma effect_updateWhiteKingPosition i b :
  67 <= lenZ (items b) ->
  effect id (withWhiteKing i) b (updateWhiteKingPosition E i b).
Proof.
  intros H. unfold updateWhiteKingPosition.
  assert (H1 : effect id (withWhiteKing i) b (set_whiteKingIndex i b))
    by effect_refl.
  eapply effect_keeps_r; [exact H1 |]. apply keeps_setWhiteKingMoved. exact H.
Qed.

Lemma effect_updateBlackKingPosition i b :
  67 <= lenZ (items b) ->
  effect id (withBlackKing i) b (updateBlackKingPosition E i b).
Proof.
  intros H. unfold updateBlackKingPosition.
  assert (H1 : effect id (withBlackKing i) b (set_blackKingIndex i b))
    by effect_refl.
  eapply effect_keeps_r; [exact H1 |]. apply keeps_setBlackKingMoved. exact H.
Qed.

Lemma effect_increaseHalfMoveCount b :
  effect id (fun F => withCount (i16 (f_count F + 1)) F) b
         (increaseHalfMoveCount E b).
Proof. effect_refl. Qed.

Lemma effect_pushPositionHistory b :
  effect id (fun F => withPositions (hashCode b :: f_positions F) F) b
         (pushPositionHistory b).
Proof. effect_refl. Qed.

Lemma effect_popPositionHistory b :
  effect id (fun F => withPositions (tail (f_positions F)) F) b
         (popPositionHistory b).
Proof. effect_refl. Qed.

End Effects.

(* ------------------------------------------------------------------ *)
(** ** Moves the board may be asked to play

    [legalMove] collects what the make/unmake code relies on; every move
    that is legal in chess satisfies it.  The piece on [start] moves to an
    empty square or captures a piece of the other colour; a pawn keeps its
    id or promotes (to anything but a king); on an empty destination a pawn
    pushes one or two ranks forward or captures en passant (the enemy pawn
    stands beside it), and a king that moves two files castles from its
    start square with the rook in its corner. *)

Definition legalMove (b : Board) (pieceId start end_ : Z) : bool :=
  let own := getItem b start in
  let target := getItem b end_ in
  (0 <=? start) && (start <? 64) && (0 <=? end_) && (end_ <? 64)
  && negb (own =? EMPTY)
  && ((target =? EMPTY) || (sign target =? - sign own))
  && (if Z.abs own =? PAWN then (PAWN <=? pieceId) && (pieceId <=? QUEEN)
      else pieceId =? Z.abs own)
  && (if target =? EMPTY then
        if own =? PAWN then
          (start - end_ =? 8) || (start - end_ =? 16)
          || ((start - end_ =? 7) && (start + 1 <? 64)
              && (getItem b (start + 1) =? - PAWN))
          || ((start - end_ =? 9) && (getItem b (start - 1) =? - PAWN))
        else if own =? - PAWN then
          (start - end_ =? -8) || (start - end_ =? -16)
          || ((start - end_ =? -7) && (0 <=? start - 1)
              && (getItem b (start - 1) =? PAWN))
          || ((start - end_ =? -9) && (getItem b (start + 1) =? PAWN))
        else true
      else true)
  && (if own =? KING then
        if start - end_ =? -2 then
          (target =? EMPTY) && (start =? WHITE_KING_START)
          && (getItem b WHITE_KING_SIDE_ROOK_START =? ROOK)
          && (getItem b (WHITE_KING_START + 1) =? EMPTY)
        else if start - end_ =? 2 then
          (target =? EMPTY) && (start =? WHITE_KING_START)
          && (getItem b WHITE_QUEEN_SIDE_ROOK_START =? ROOK)
          && (getItem b (WHITE_KING_START - 1) =? EMPTY)
        else true
      else if own =? - KING then
        if start - end_ =? -2 then
          (target =? EMPTY) && (start =? BLACK_KING_START)
          && (getItem b BLACK_KING_SIDE_ROOK_START =? - ROOK)
          && (getItem b (BLACK_KING_START + 1) =? EMPTY)
        else if start - end_ =? 2 then
          (target =? EMPTY) && (start =? BLACK_KING_START)
          && (getItem b BLACK_QUEEN_SIDE_ROOK_START =? - ROOK)
          && (getItem b (BLACK_KING_START - 1) =? EMPTY)
        else true
      else true).

(** The placement after [performMove], following its branches. *)
Definition performPlacement (pieceId start end_ : Z) (P : Placement) : Placement :=
  let own := getZ (mail P) start in
  let color := sign own in
  let P1 := pRemove start P in
  if negb (getZ (mail P1) end_ =? EMPTY) then
    pAdd color (pieceId * color) end_ (pRemove end_ P1)
  else
    let P2 := pAdd color (pieceId * color) end_ P1 in
    if own =? PAWN then
      if start - end_ =? 16 then P2
      else if start - end_ =? 7 then pRemove (start + WHITE) P2
      else if start - end_ =? 9 then pRemove (start - WHITE) P2
      else P2
    else if own =? - PAWN then
      if start - end_ =? -16 then P2
      else if start - end_ =? -7 then pRemove (start + BLACK) P2
      else if start - end_ =? -9 then pRemove (start - BLACK) P2
      else P2
    else if own =? KING then
      if start - end_ =? -2 then
        pAdd color (ROOK * color) (WHITE_KING_START + 1)
             (pRemove WHITE_KING_SIDE_ROOK_START P2)
      else if start - end_ =? 2 then
        pAdd color (ROOK * color) (WHITE_KING_START - 1)
             (pRemove WHITE_QUEEN_SIDE_ROOK_START P2)
      else P2
    else if own =? - KING then
      if start - end_ =? -2 then
        pAdd color (ROOK * color) (BLACK_KING_START + 1)
             (pRemove BLACK_KING_SIDE_ROOK_START P2)
      else if start - end_ =? 2 then
        pAdd color (ROOK * color) (BLACK_KING_START - 1)
             (pRemove BLACK_QUEEN_SIDE_ROOK_START P2)
      else P2
    else P2.

(** The cached king squares after [performMove]. *)
Definition performKings (pieceId start end_ : Z) (P : Placement) (F : Frame) : Frame :=
  let own := getZ (mail P) start in
  let color := sign own in
  if negb (getZ (mail (pRemove start P)) end_ =? EMPTY) then
    if pieceId =? KING then
      if color =? WHITE then withWhiteKing end_ F else withBlackKing end_ F
    else F
  else if own =? PAWN then F
  else if own =? - PAWN then F
  else if own =? KING then withWhiteKing end_ F
  else if own =? - KING then withBlackKing end_ F
  else F.

(** The value [performMove] returns. *)
Definition performResult (start end_ : Z) (P : Placement) : Z :=
  let own := getZ (mail P) start in
  if negb (getZ (mail (pRemove start P)) end_ =? EMPTY) then
    abs32 (getZ (mail (pRemove start P)) end_)
  else if own =? PAWN then
    if start - end_ =? 16 then EMPTY
    else if start - end_ =? 7 then EN_PASSANT_BIT
    else if start - end_ =? 9 then EN_PASSANT_BIT
    else EMPTY
  else if own =? - PAWN then
    if start - end_ =? -16 then EMPTY
    else if start - end_ =? -7 then EN_PASSANT_BIT
    else if start - end_ =? -9 then EN_PASSANT_BIT
    else EMPTY
  else EMPTY.

(** What [legalMove] gives, unfolded, for a reader [sq] of the squares. *)
Record LegalOn (sq : Z -> Z) (pieceId start end_ : Z) : Prop := {
  lf_start : 0 <= start < 64;
  lf_end : 0 <= end_ < 64;
  lf_own : sq start <> 0;
  lf_target : sq end_ = 0 \/ sign (sq end_) = - sign (sq start);
  lf_id : if Z.abs (sq start) =? PAWN then 1 <= pieceId <= 5
          else pieceId = Z.abs (sq start);
  lf_shape : sq end_ = 0 ->
    (sq start = PAWN ->
       start - end_ = 8 \/ start - end_ = 16
       \/ (start - end_ = 7 /\ start + 1 < 64 /\ sq (start + 1) = - PAWN)
       \/ (start - end_ = 9 /\ sq (start - 1) = - PAWN)) /\
    (sq start = - PAWN ->
       start - end_ = -8 \/ start - end_ = -16
       \/ (start - end_ = -7 /\ 0 <= start - 1 /\ sq (start - 1) = PAWN)
       \/ (start - end_ = -9 /\ sq (start + 1) = PAWN));
  lf_king :
    (sq start = KING ->
       (start - end_ = -2 -> sq end_ = 0 /\ start = WHITE_KING_START
          /\ sq WHITE_KING_SIDE_ROOK_START = ROOK
          /\ sq (WHITE_KING_START + 1) = 0) /\
       (start - end_ = 2 -> sq end_ = 0 /\ start = WHITE_KING_START
          /\ sq WHITE_QUEEN_SIDE_ROOK_START = ROOK
          /\ sq (WHITE_KING_START - 1) = 0)) /\
    (sq start = - KING ->
       (start - end_ = -2 -> sq end_ = 0 /\ start = BLACK_KING_START
          /\ sq BLACK_KING_SIDE_ROOK_START = - ROOK
          /\ sq (BLACK_KING_START + 1) = 0) /\
       (start - end_ = 2 -> sq end_ = 0 /\ start = BLACK_KING_START
          /\ sq BLACK_QUEEN_SIDE_ROOK_START = - ROOK
          /\ sq (BLACK_KING_START - 1) = 0))
}.

Definition LegalFacts (b : Board) : Z -> Z -> Z -> Prop := LegalOn (getItem b).

Ltac bool_to_prop :=
  repeat match goal with
         | H : _ && _ = true |- _ => apply andb_true_iff in H; destruct H
         | H : _ || _ = true |- _ => apply orb_true_iff in H
         | H : negb _ = true |- _ => apply negb_true_iff in H
         | H : (_ =? _) = true |- _ => apply Z.eqb_eq in H
         | H : (_ =? _) = false |- _ => apply Z.eqb_neq in H
         | H : (_ <=? _) = true |- _ => apply Z.leb_le in H
         | H : (_ <? _) = true |- _ => apply Z.ltb_lt in H
         end.

Lemma legalMove_facts b pieceId start end_ :
  legalMove b pieceId start end_ = true -> LegalFacts b pieceId start end_.
Proof.
  unfold LegalFacts, legalMove. cbv zeta. intros H.
  rewrite !andb_true_iff in H.
  destruct H as ((((((((H1 & H2) & H3) & H4) & Hown) & Htgt) & Hid) & Hshape) & Hking).
  unfold EMPTY in *.
  apply Z.leb_le in H1, H3. apply Z.ltb_lt in H2, H4.
  apply negb_true_iff, Z.eqb_neq in Hown.
  change (- PAWN) with (-1) in *. change (- KING) with (-6) in *.
  change (- ROOK) with (-4) in *.
  split; try lia; trivial.
  - destruct (Z.abs (getItem b start) =? PAWN).
    + unfold PAWN, QUEEN in Hid. bool_to_prop. lia.
    + apply Z.eqb_eq in Hid. exact Hid.
  - intros Ht. rewrite Ht in Hshape. cbn [Z.eqb] in Hshape.
    change (- PAWN) with (-1). unfold PAWN in *.
    split; intros Ho; rewrite Ho in Hshape; cbn in Hshape;
      rewrite !orb_true_iff in Hshape;
      destruct Hshape as [[[Hs | Hs] | Hs] | Hs]; bool_to_prop; auto 10.
  - change (- KING) with (-6). change (- ROOK) with (-4).
    unfold KING, ROOK, WHITE_KING_START, BLACK_KING_START,
      WHITE_KING_SIDE_ROOK_START, WHITE_QUEEN_SIDE_ROOK_START,
      BLACK_KING_SIDE_ROOK_START, BLACK_QUEEN_SIDE_ROOK_START in *.
    split; intros Ho; rewrite Ho in Hking; cbn in Hking;
      (split; intros Hd; rewrite Hd in Hking; cbn in Hking; bool_to_prop; auto).
Qed.

(* ------------------------------------------------------------------ *)
(** ** [performMove] and [undoMove] on placement and frame *)

Section MakeUnmake.

Context (E : Externals).

(** The frame after [performMove]; [h] is the hash pushed on the
    position history. *)
Definition performFrame (pieceId start end_ h : Z) (P : Placement) (F : Frame)
  : Frame :=
  withPositions (h :: f_positions F)
    (performKings pieceId start end_ P (withCount (i16 (f_count F + 1)) F)).

Lemma effect_len g k b b' : effect g k b b' -> lenZ (items b') = lenZ (items b).
Proof. intros H. apply H. Qed.

Lemma effect_placement g k b b' : effect g k b b' -> placement b' = g (placement b).
Proof. intros H. apply H. Qed.

Lemma getItem_placement b pos :
  pos < 66 -> getItem b pos = getZ (mail (placement b)) pos.
Proof.
  intros H. unfold getItem, placement. cbn. rewrite getZ_take by lia. reflexivity.
Qed.

Lemma storeState_facts b :
  lenZ (items (storeState b)) = lenZ (items b)
  /\ placement (storeState b) = placement b
  /\ frame (storeState b) = frame b
  /\ (scoresOk b -> scoresOk (storeState b)).
Proof.
  split; [reflexivity |]. split; [reflexivity |]. split; [reflexivity |].
  intros H. exact H.
Qed.

(** The last step of every branch of [performMove]: the push on the
    position history. *)
Lemma push_close g k b0 bX (ret : Z) b' (r : Z) :
  effect g k b0 bX -> (pushPositionHistory bX, ret) = (b', r) ->
  lenZ (items b') = lenZ (items b0)
  /\ placement b' = g (placement b0)
  /\ frame b' = withPositions (hashCode b' :: f_positions (k (frame b0))) (k (frame b0))
  /\ history b' = history b0
  /\ r = ret
  /\ (scoresOk b0 -> scoresOk b').
Proof.
  intros (Hl & Hp & Hf & Hh & Hsc) Heq. injection Heq as <- <-.
  split; [exact Hl |]. split; [exact Hp |].
  split; [| split; [exact Hh | split; [reflexivity | exact Hsc]]].
  change (frame (pushPositionHistory bX))
    with (withPositions (hashCode bX :: f_positions (frame bX)) (frame bX)).
  rewrite Hf. reflexivity.
Qed.

(** Rewrites the conditions decided so far. *)
Ltac use_conds :=
  repeat match goal with
         | H : ?c = true |- context [if ?c then _ else _] => rewrite H
         | H : ?c = false |- context [if ?c then _ else _] => rewrite H
         end.

(** Names the board an effect leads to, hiding how it was computed. *)
Ltac step L b' H :=
  pose proof L as H;
  match type of H with
  | effect _ _ _ ?t => revert H; generalize t; intros b' H
  end;
  cbv beta in H; unfold id in H.

(** Closes a branch of [performMove] from the effect [Htot] accumulated
    up to the push on the position history. *)
Ltac close_branch Htot HL0 HP0 HF0 HS0 Hown' :=
  let Heq := fresh "Heq" in
  let Hl := fresh "Hl" in let Hp := fresh "Hp" in
  let Hf := fresh "Hf" in let Hh := fresh "Hh" in
  let Hr := fresh "Hr" in let Hsc := fresh "Hsc" in
  intros Heq;
  destruct (push_close _ _ _ _ _ _ _ Htot Heq) as (Hl & Hp & Hf & Hh & Hr & Hsc);
  rewrite HL0 in Hl; rewrite HP0 in Hp; rewrite HF0 in Hf;
  split; [exact Hl |];
  split; [rewrite Hp; unfold performPlacement; cbv zeta; rewrite Hown';
          use_conds; reflexivity |];
  split; [rewrite Hf; unfold performFrame, performKings; cbv zeta; rewrite Hown';
          use_conds; reflexivity |];
  split; [exact Hh |];
  split; [| let Hsb := fresh in intros Hsb; apply Hsc; apply HS0; exact Hsb];
  rewrite Hr; unfold performResult; cbv zeta; rewrite Hown'; use_conds;
  try reflexivity.

Lemma performMove_effect pieceId start end_ b b' r :
  67 <= lenZ (items b) -> legalMove b pieceId start end_ = true ->
  performMove E pieceId start end_ b = (b', r) ->
  lenZ (items b') = lenZ (items b)
  /\ placement b' = performPlacement pieceId start end_ (placement b)
  /\ frame b' = performFrame pieceId start end_ (hashCode b') (placement b) (frame b)
  /\ history b' = history (storeState b)
  /\ r = performResult start end_ (placement b)
  /\ (scoresOk b -> scoresOk b').
Proof.
  intros Hlen Hlegal. apply legalMove_facts in Hlegal.
  destruct Hlegal as [Hs He Hown Htgt Hid Hshape Hking].
  unfold performMove.
  destruct (storeState_facts b) as (HL0 & HP0 & HF0 & HS0).
  generalize dependent (storeState b). intros b0 HL0 HP0 HF0 HS0.
  assert (Hlen0 : 67 <= lenZ (items b0)) by (rewrite HL0; exact Hlen).
  step (effect_increaseHalfMoveCount E b0) b2 H2.
  assert (Hlen2 : 67 <= lenZ (items b2)) by (rewrite (effect_len _ _ _ _ H2); exact Hlen0).
  pose proof (effect_removePiece E start b2 Hlen2 Hs) as H3.
  pose proof (snd_removePiece E start b2) as S3.
  destruct (removePiece E start b2) as [b3 own]. cbn [fst snd] in H3, S3.
  assert (Hown' : getZ (mail (placement b)) start = own).
  { rewrite S3. fold (getItem b2 start). rewrite getItem_placement by lia.
    rewrite (effect_placement _ _ _ _ H2), HP0. reflexivity. }
  assert (S3' : own = getItem b start).
  { rewrite <- Hown'. symmetry. apply getItem_placement. lia. }
  assert (Hlen3 : 67 <= lenZ (items b3)) by (rewrite (effect_len _ _ _ _ H3); exact Hlen2).
  pose proof (effect_trans _ _ _ _ _ _ _ H2 H3) as H03.
  cbv beta in H03. unfold id in H03.
  step (effect_trans _ _ _ _ _ _ _ H03 (keeps_clearEnPassentPossible E b3 Hlen3)) b4 H04.
  assert (Hlen4 : 67 <= lenZ (items b4)) by (rewrite (effect_len _ _ _ _ H04); exact Hlen0).
  assert (Hend : getItem b4 end_ = getZ (mail (pRemove start (placement b))) end_).
  { rewrite getItem_placement by lia. rewrite (effect_placement _ _ _ _ H04), HP0.
    reflexivity. }
  rewrite Hend.
  destruct (negb (getZ (mail (pRemove start (placement b))) end_ =? EMPTY)) eqn:Ecap.
  - (* capture *)
    pose proof (effect_removePiece E end_ b4 Hlen4 He) as H5.
    pose proof (snd_removePiece E end_ b4) as S5.
    destruct (removePiece E end_ b4) as [b5 rem]. cbn [fst snd] in H5, S5.
    fold (getItem b4 end_) in S5. rewrite Hend in S5.
    pose proof (effect_trans _ _ _ _ _ _ _ H04 H5) as H05.
    cbv beta in H05. unfold id in H05.
    assert (Hlen5 : 67 <= lenZ (items b5)) by (rewrite (effect_len _ _ _ _ H05); exact Hlen0).
    step (effect_trans _ _ _ _ _ _ _ H05
            (effect_addPiece E (sign own) pieceId end_ b5 Hlen5 He)) b6 H06.
    step (effect_trans _ _ _ _ _ _ _ H06 (keeps_resetHalfMoveClock b6)) b7 H07.
    assert (Hlen7 : 67 <= lenZ (items b7)) by (rewrite (effect_len _ _ _ _ H07); exact Hlen0).
    destruct (pieceId =? KING) eqn:Eking.
    + unfold updateKingPosition. destruct (sign own =? WHITE) eqn:Ecol.
      * step (effect_trans _ _ _ _ _ _ _ H07
                (effect_updateWhiteKingPosition E end_ b7 Hlen7)) b8 Htot.
        close_branch Htot HL0 HP0 HF0 HS0 Hown'. rewrite S5. reflexivity.
      * step (effect_trans _ _ _ _ _ _ _ H07
                (effect_updateBlackKingPosition E end_ b7 Hlen7)) b8 Htot.
        close_branch Htot HL0 HP0 HF0 HS0 Hown'. rewrite S5. reflexivity.
    + close_branch H07 HL0 HP0 HF0 HS0 Hown'. rewrite S5. reflexivity.
  - (* the destination is empty *)
    step (effect_trans _ _ _ _ _ _ _ H04
            (effect_addPiece E (sign own) pieceId end_ b4 Hlen4 He)) b5 H05.
    assert (Hlen5 : 67 <= lenZ (items b5)) by (rewrite (effect_len _ _ _ _ H05); exact Hlen0).
    assert (Hempty : end_ <> start -> getItem b end_ = 0).
    { intros Hne. apply negb_false_iff, Z.eqb_eq in Ecap.
      unfold pRemove in Ecap. cbn [mail] in Ecap.
      rewrite getZ_setZ_ne in Ecap by congruence.
      rewrite getItem_placement by lia. exact Ecap. }
    destruct (own =? PAWN) eqn:Eo1.
    { (* white pawn *)
      step (effect_trans _ _ _ _ _ _ _ H05 (keeps_resetHalfMoveClock b5)) b6 H06.
      assert (Hlen6 : 67 <= lenZ (items b6)) by (rewrite (effect_len _ _ _ _ H06); exact Hlen0).
      destruct (start - end_ =? 16) eqn:Ed16.
      { step (effect_trans _ _ _ _ _ _ _ H06
                (keeps_setEnPassantPossible E start b6 Hlen6)) b7 Htot.
        close_branch Htot HL0 HP0 HF0 HS0 Hown'. }
      destruct (start - end_ =? 7) eqn:Ed7.
      { assert (Hv : 0 <= start + WHITE < 64).
        { apply Z.eqb_eq in Ed7, Eo1. unfold WHITE.
          destruct (Hshape (Hempty ltac:(lia))) as (Hw & _).
          rewrite <- S3', Eo1 in Hw. specialize (Hw eq_refl).
          clear - Hw Ed7 Hs. lia. }
        step (effect_trans _ _ _ _ _ _ _ H06
                (effect_removePiece E (start + WHITE) b6 Hlen6 Hv)) b7 Htot.
        close_branch Htot HL0 HP0 HF0 HS0 Hown'. }
      destruct (start - end_ =? 9) eqn:Ed9.
      { assert (Hv : 0 <= start - WHITE < 64).
        { apply Z.eqb_eq in Ed9. unfold WHITE. clear - Ed9 Hs He. lia. }
        step (effect_trans _ _ _ _ _ _ _ H06
                (effect_removePiece E (start - WHITE) b6 Hlen6 Hv)) b7 Htot.
        close_branch Htot HL0 HP0 HF0 HS0 Hown'. }
      close_branch H06 HL0 HP0 HF0 HS0 Hown'. }
    destruct (own =? - PAWN) eqn:Eo2.
    { (* black pawn *)
      step (effect_trans _ _ _ _ _ _ _ H05 (keeps_resetHalfMoveClock b5)) b6 H06.
      assert (Hlen6 : 67 <= lenZ (items b6)) by (rewrite (effect_len _ _ _ _ H06); exact Hlen0).
      destruct (start - end_ =? -16) eqn:Ed16.
      { step (effect_trans _ _ _ _ _ _ _ H06
                (keeps_setEnPassantPossible E start b6 Hlen6)) b7 Htot.
        close_branch Htot HL0 HP0 HF0 HS0 Hown'. }
      destruct (start - end_ =? -7) eqn:Ed7.
      { assert (Hv : 0 <= start + BLACK < 64).
        { apply Z.eqb_eq in Ed7, Eo2. unfold BLACK.
          destruct (Hshape (Hempty ltac:(lia))) as (_ & Hw).
          rewrite <- S3', Eo2 in Hw. specialize (Hw eq_refl).
          clear - Hw Ed7 Hs. lia. }
        step (effect_trans _ _ _ _ _ _ _ H06
                (effect_removePiece E (start + BLACK) b6 Hlen6 Hv)) b7 Htot.
        close_branch Htot HL0 HP0 HF0 HS0 Hown'. }
      destruct (start - end_ =? -9) eqn:Ed9.
      { assert (Hv : 0 <= start - BLACK < 64).
        { apply Z.eqb_eq in Ed9. unfold BLACK. clear - Ed9 Hs He. lia. }
        step (effect_trans _ _ _ _ _ _ _ H06
                (effect_removePiece E (start - BLACK) b6 Hlen6 Hv)) b7 Htot.
        close_branch Htot HL0 HP0 HF0 HS0 Hown'. }
      close_branch H06 HL0 HP0 HF0 HS0 Hown'. }
    destruct (own =? KING) eqn:Eo3.
    { (* white king *)
      step (effect_trans _ _ _ _ _ _ _ H05
              (effect_updateWhiteKingPosition E end_ b5 Hlen5)) b6 H06.
      assert (Hlen6 : 67 <= lenZ (items b6)) by (rewrite (effect_len _ _ _ _ H06); exact Hlen0).
      destruct (start - end_ =? -2) eqn:Ec1.
      { cbv zeta.
        assert (Hc : 0 <= WHITE_KING_SIDE_ROOK_START < 64) by (cbv; split; congruence).
        step (effect_trans _ _ _ _ _ _ _ H06 (effect_removePiece E _ b6 Hlen6 Hc)) b7 H07.
        assert (Hlen7 : 67 <= lenZ (items b7)) by (rewrite (effect_len _ _ _ _ H07); exact Hlen0).
        assert (Hk : 0 <= WHITE_KING_START + 1 < 64) by (cbv; split; congruence).
        step (effect_trans _ _ _ _ _ _ _ H07
                (effect_addPiece E (sign own) ROOK _ b7 Hlen7 Hk)) b8 H08.
        assert (Hlen8 : 67 <= lenZ (items b8)) by (rewrite (effect_len _ _ _ _ H08); exact Hlen0).
        step (effect_trans _ _ _ _ _ _ _ H08
                (keeps_setStateBit WHITE_HAS_CASTLED b8 Hlen8)) b9 Htot.
        close_branch Htot HL0 HP0 HF0 HS0 Hown'. }
      destruct (start - end_ =? 2) eqn:Ec2.
      { cbv zeta.
        assert (Hc : 0 <= WHITE_QUEEN_SIDE_ROOK_START < 64) by (cbv; split; congruence).
        step (effect_trans _ _ _ _ _ _ _ H06 (effect_removePiece E _ b6 Hlen6 Hc)) b7 H07.
        assert (Hlen7 : 67 <= lenZ (items b7)) by (rewrite (effect_len _ _ _ _ H07); exact Hlen0).
        assert (Hk : 0 <= WHITE_KING_START - 1 < 64) by (cbv; split; congruence).
        step (effect_trans _ _ _ _ _ _ _ H07
                (effect_addPiece E (sign own) ROOK _ b7 Hlen7 Hk)) b8 H08.
        assert (Hlen8 : 67 <= lenZ (items b8)) by (rewrite (effect_len _ _ _ _ H08); exact Hlen0).
        step (effect_trans _ _ _ _ _ _ _ H08
                (keeps_setStateBit WHITE_HAS_CASTLED b8 Hlen8)) b9 Htot.
        close_branch Htot HL0 HP0 HF0 HS0 Hown'. }
      close_branch H06 HL0 HP0 HF0 HS0 Hown'. }
    destruct (own =? - KING) eqn:Eo4.
    { (* black king *)
      step (effect_trans _ _ _ _ _ _ _ H05
              (effect_updateBlackKingPosition E end_ b5 Hlen5)) b6 H06.
      assert (Hlen6 : 67 <= lenZ (items b6)) by (rewrite (effect_len _ _ _ _ H06); exact Hlen0).
      destruct (start - end_ =? -2) eqn:Ec1.
      { cbv zeta.
        assert (Hc : 0 <= BLACK_KING_SIDE_ROOK_START < 64) by (cbv; split; congruence).
        step (effect_trans _ _ _ _ _ _ _ H06 (effect_removePiece E _ b6 Hlen6 Hc)) b7 H07.
        assert (Hlen7 : 67 <= lenZ (items b7)) by (rewrite (effect_len _ _ _ _ H07); exact Hlen0).
        assert (Hk : 0 <= BLACK_KING_START + 1 < 64) by (cbv; split; congruence).
        step (effect_trans _ _ _ _ _ _ _ H07
                (effect_addPiece E (sign own) ROOK _ b7 Hlen7 Hk)) b8 H08.
        assert (Hlen8 : 67 <= lenZ (items b8)) by (rewrite (effect_len _ _ _ _ H08); exact Hlen0).
        step (effect_trans _ _ _ _ _ _ _ H08
                (keeps_setStateBit BLACK_HAS_CASTLED b8 Hlen8)) b9 Htot.
        close_branch Htot HL0 HP0 HF0 HS0 Hown'. }
      destruct (start - end_ =? 2) eqn:Ec2.
      { cbv zeta.
        assert (Hc : 0 <= BLACK_QUEEN_SIDE_ROOK_START < 64) by (cbv; split; congruence).
        step (effect_trans _ _ _ _ _ _ _ H06 (effect_removePiece E _ b6 Hlen6 Hc)) b7 H07.
        assert (Hlen7 : 67 <= lenZ (items b7)) by (rewrite (effect_len _ _ _ _ H07); exact Hlen0).
        assert (Hk : 0 <= BLACK_KING_START - 1 < 64) by (cbv; split; congruence).
        step (effect_trans _ _ _ _ _ _ _ H07
                (effect_addPiece E (sign own) ROOK _ b7 Hlen7 Hk)) b8 H08.
        assert (Hlen8 : 67 <= lenZ (items b8)) by (rewrite (effect_len _ _ _ _ H08); exact Hlen0).
        step (effect_trans _ _ _ _ _ _ _ H08
                (keeps_setStateBit BLACK_HAS_CASTLED b8 Hlen8)) b9 Htot.
        close_branch Htot HL0 HP0 HF0 HS0 Hown'. }
      close_branch H06 HL0 HP0 HF0 HS0 Hown'. }
    close_branch H05 HL0 HP0 HF0 HS0 Hown'.
Qed.

(** *** [undoMove] *)

(** The placement after [undoMove], following its branches. *)
Definition undoPlacement (piece start end_ removedPieceId : Z) (P : Placement)
  : Placement :=
  let color := sign piece in
  let P1 := pAdd color piece start (pRemove end_ P) in
  let P2 :=
    if removedPieceId =? EN_PASSANT_BIT then
      if abs32 (start - end_) =? 7 then
        pAdd (- color) (PAWN * - color) (start + color) P1
      else if abs32 (start - end_) =? 9 then
        pAdd (- color) (PAWN * - color) (start - color) P1
      else P1
    else if negb (removedPieceId =? EMPTY) then
      pAdd (- color) (removedPieceId * - color) end_ P1
    else P1 in
  if piece =? KING then
    if start - end_ =? -2 then
      pAdd WHITE ROOK WHITE_KING_SIDE_ROOK_START (pRemove (WHITE_KING_START + 1) P2)
    else if start - end_ =? 2 then
      pAdd WHITE ROOK WHITE_QUEEN_SIDE_ROOK_START (pRemove (WHITE_KING_START - 1) P2)
    else P2
  else if piece =? - KING then
    if start - end_ =? -2 then
      pAdd BLACK (- ROOK) BLACK_KING_SIDE_ROOK_START (pRemove (BLACK_KING_START + 1) P2)
    else if start - end_ =? 2 then
      pAdd BLACK (- ROOK) BLACK_QUEEN_SIDE_ROOK_START (pRemove (BLACK_KING_START - 1) P2)
    else P2
  else P2.

(** The frame after [undoMove], before the history frame is popped. *)
Definition undoFrame (piece start : Z) (F : Frame) : Frame :=
  let F := withPositions (tail (f_positions F)) F in
  if piece =? KING then withWhiteKing start F
  else if piece =? - KING then withBlackKing start F
  else F.

(** The squares [undoMove] touches lie on the board. *)
Definition undoInRange (piece start end_ removedPieceId : Z) : Prop :=
  0 <= start < 64 /\ 0 <= end_ < 64 /\
  (removedPieceId = EN_PASSANT_BIT ->
     (abs32 (start - end_) = 7 -> 0 <= start + sign piece < 64) /\
     (abs32 (start - end_) = 9 -> 0 <= start - sign piece < 64)).

Ltac close_undo Htot :=
  eexists; split; [exact Htot | reflexivity].

Lemma undoMove_core piece start end_ removedPieceId b :
  67 <= lenZ (items b) -> undoInRange piece start end_ removedPieceId ->
  exists bX,
    effect (undoPlacement piece start end_ removedPieceId)
           (undoFrame piece start) b bX
    /\ undoMove E piece start end_ removedPieceId b = restoreState bX.
Proof.
  intros Hlen (Hs & He & Hep).
  unfold undoMove, undoPlacement, undoFrame. cbv zeta.
  step (effect_popPositionHistory b) b1 H1.
  assert (Hlen1 : 67 <= lenZ (items b1)) by (rewrite (effect_len _ _ _ _ H1); exact Hlen).
  step (effect_trans _ _ _ _ _ _ _ H1
          (effect_removePieceWithoutIncrementalUpdate E end_ b1 Hlen1 He)) b2 H2.
  assert (Hlen2 : 67 <= lenZ (items b2)) by (rewrite (effect_len _ _ _ _ H2); exact Hlen).
  step (effect_trans _ _ _ _ _ _ _ H2
          (effect_addPieceWithoutIncrementalUpdate (sign piece) piece start b2 Hlen2 Hs))
       b3 H3.
  assert (Hlen3 : 67 <= lenZ (items b3)) by (rewrite (effect_len _ _ _ _ H3); exact Hlen).
  (* the captured piece *)
  assert (H4 : exists b4,
    effect (fun P =>
              let P1 := pAdd (sign piece) piece start (pRemove end_ P) in
              if removedPieceId =? EN_PASSANT_BIT then
                if abs32 (start - end_) =? 7 then
                  pAdd (- sign piece) (PAWN * - sign piece) (start + sign piece) P1
                else if abs32 (start - end_) =? 9 then
                  pAdd (- sign piece) (PAWN * - sign piece) (start - sign piece) P1
                else P1
              else if negb (removedPieceId =? EMPTY) then
                pAdd (- sign piece) (removedPieceId * - sign piece) end_ P1
              else P1)
           (fun F => withPositions (tail (f_positions F)) F) b b4
    /\ (if removedPieceId =? EN_PASSANT_BIT then
          if abs32 (start - end_) =? 7 then
            addPieceWithoutIncrementalUpdate (- sign piece) (PAWN * - sign piece)
                                             (start + sign piece) b3
          else if abs32 (start - end_) =? 9 then
            addPieceWithoutIncrementalUpdate (- sign piece) (PAWN * - sign piece)
                                             (start - sign piece) b3
          else b3
        else if negb (removedPieceId =? EMPTY) then
          addPieceWithoutIncrementalUpdate (- sign piece) (removedPieceId * - sign piece)
                                           end_ b3
        else b3) = b4).
  { cbv zeta.
    destruct (removedPieceId =? EN_PASSANT_BIT) eqn:Eep.
    - apply Z.eqb_eq in Eep. destruct (Hep Eep) as (Hep7 & Hep9).
      destruct (abs32 (start - end_) =? 7) eqn:E7.
      + apply Z.eqb_eq in E7.
        eexists. split; [| reflexivity].
        exact (effect_trans _ _ _ _ _ _ _ H3
                 (effect_addPieceWithoutIncrementalUpdate _ _ _ b3 Hlen3 (Hep7 E7))).
      + destruct (abs32 (start - end_) =? 9) eqn:E9.
        * apply Z.eqb_eq in E9.
          eexists. split; [| reflexivity].
          exact (effect_trans _ _ _ _ _ _ _ H3
                   (effect_addPieceWithoutIncrementalUpdate _ _ _ b3 Hlen3 (Hep9 E9))).
        * eexists. split; [exact H3 | reflexivity].
    - destruct (negb (removedPieceId =? EMPTY)).
      + eexists. split; [| reflexivity].
        exact (effect_trans _ _ _ _ _ _ _ H3
                 (effect_addPieceWithoutIncrementalUpdate _ _ _ b3 Hlen3 He)).
      + eexists. split; [exact H3 | reflexivity]. }
  destruct H4 as (b4 & H4 & ->). cbv zeta in H4.
  assert (Hlen4 : 67 <= lenZ (items b4)) by (rewrite (effect_len _ _ _ _ H4); exact Hlen).
  clear H1 H2 H3 Hlen1 Hlen2 Hlen3 b1 b2 b3.
  destruct (piece =? KING) eqn:Ek1.
  - step (effect_trans _ _ _ _ _ _ _ H4
            (effect_updateWhiteKingPosition E start b4 Hlen4)) b5 H5.
    assert (Hlen5 : 67 <= lenZ (items b5)) by (rewrite (effect_len _ _ _ _ H5); exact Hlen).
    destruct (start - end_ =? -2).
    { assert (Hk : 0 <= WHITE_KING_START + 1 < 64) by (cbv; split; congruence).
      assert (Hc : 0 <= WHITE_KING_SIDE_ROOK_START < 64) by (cbv; split; congruence).
      step (effect_trans _ _ _ _ _ _ _ H5
              (effect_removePieceWithoutIncrementalUpdate E _ b5 Hlen5 Hk)) b6 H6.
      assert (Hlen6 : 67 <= lenZ (items b6)) by (rewrite (effect_len _ _ _ _ H6); exact Hlen).
      step (effect_trans _ _ _ _ _ _ _ H6
              (effect_addPieceWithoutIncrementalUpdate WHITE ROOK _ b6 Hlen6 Hc)) b7 H7.
      close_undo H7. }
    destruct (start - end_ =? 2).
    { assert (Hk : 0 <= WHITE_KING_START - 1 < 64) by (cbv; split; congruence).
      assert (Hc : 0 <= WHITE_QUEEN_SIDE_ROOK_START < 64) by (cbv; split; congruence).
      step (effect_trans _ _ _ _ _ _ _ H5
              (effect_removePieceWithoutIncrementalUpdate E _ b5 Hlen5 Hk)) b6 H6.
      assert (Hlen6 : 67 <= lenZ (items b6)) by (rewrite (effect_len _ _ _ _ H6); exact Hlen).
      step (effect_trans _ _ _ _ _ _ _ H6
              (effect_addPieceWithoutIncrementalUpdate WHITE ROOK _ b6 Hlen6 Hc)) b7 H7.
      close_undo H7. }
    close_undo H5.
  - destruct (piece =? - KING) eqn:Ek2.
    + step (effect_trans _ _ _ _ _ _ _ H4
              (effect_updateBlackKingPosition E start b4 Hlen4)) b5 H5.
      assert (Hlen5 : 67 <= lenZ (items b5)) by (rewrite (effect_len _ _ _ _ H5); exact Hlen).
      destruct (start - end_ =? -2).
      { assert (Hk : 0 <= BLACK_KING_START + 1 < 64) by (cbv; split; congruence).
        assert (Hc : 0 <= BLACK_KING_SIDE_ROOK_START < 64) by (cbv; split; congruence).
        step (effect_trans _ _ _ _ _ _ _ H5
                (effect_removePieceWithoutIncrementalUpdate E _ b5 Hlen5 Hk)) b6 H6.
        assert (Hlen6 : 67 <= lenZ (items b6)) by (rewrite (effect_len _ _ _ _ H6); exact Hlen).
        step (effect_trans _ _ _ _ _ _ _ H6
                (effect_addPieceWithoutIncrementalUpdate BLACK (- ROOK) _ b6 Hlen6 Hc))
             b7 H7.
        close_undo H7. }
      destruct (start - end_ =? 2).
      { assert (Hk : 0 <= BLACK_KING_START - 1 < 64) by (cbv; split; congruence).
        assert (Hc : 0 <= BLACK_QUEEN_SIDE_ROOK_START < 64) by (cbv; split; congruence).
        step (effect_trans _ _ _ _ _ _ _ H5
                (effect_removePieceWithoutIncrementalUpdate E _ b5 Hlen5 Hk)) b6 H6.
        assert (Hlen6 : 67 <= lenZ (items b6)) by (rewrite (effect_len _ _ _ _ H6); exact Hlen).
        step (effect_trans _ _ _ _ _ _ _ H6
                (effect_addPieceWithoutIncrementalUpdate BLACK (- ROOK) _ b6 Hlen6 Hc))
             b7 H7.
        close_undo H7. }
      close_undo H5.
    + close_undo H4.
Qed.

(** *** Undoing a move restores the placement *)

Lemma EN_PASSANT_BIT_val : EN_PASSANT_BIT = -2147483648.
Proof. vm_compute. reflexivity. Qed.

Lemma abs32_small x : -2147483648 < x < 2147483648 -> abs32 x = Z.abs x.
Proof. intros H. unfold abs32. apply i32_small. unfold in_i32. lia. Qed.

Lemma mail_pRemove pos P : mail (pRemove pos P) = setZ (mail P) pos 0.
Proof. reflexivity. Qed.

Lemma mail_pAdd c piece pos P : mail (pAdd c piece pos P) = setZ (mail P) pos piece.
Proof. reflexivity. Qed.

Ltac unfold_consts :=
  unfold EMPTY, PAWN, KNIGHT, BISHOP, ROOK, QUEEN, KING, WHITE, BLACK,
    WHITE_KING_START, BLACK_KING_START, WHITE_KING_SIDE_ROOK_START,
    WHITE_QUEEN_SIDE_ROOK_START, BLACK_KING_SIDE_ROOK_START,
    BLACK_QUEEN_SIDE_ROOK_START, sign in *.

Ltac solve_cond := unfold_consts; lia.

(** Decides the conditions of the goal from the arithmetic facts at hand. *)
Ltac resolve_ifs :=
  repeat match goal with
         | |- context [if ?c then _ else _] =>
             first [ replace c with true by (symmetry; solve_cond)
                   | replace c with false by (symmetry; solve_cond) ]
         end.

(** Reads a square of a placement built by [pAdd] and [pRemove]. *)
Ltac mail_unfold := repeat first [rewrite mail_pAdd | rewrite mail_pRemove].

Ltac mail_norm :=
  mail_unfold;
  repeat rewrite getZ_setZ by (rewrite ?lenZ_setZ; lia).

Ltac coherent_chain :=
  lazymatch goal with
  | |- coherent (pRemove _ _) => apply coherent_pRemove; [coherent_chain | solve_cond]
  | |- coherent (pAdd _ _ _ _) =>
      apply coherent_pAdd;
      [ coherent_chain | solve_cond
      | mail_norm; resolve_ifs; solve_cond
      | solve_cond | solve_cond | solve_cond ]
  | |- coherent _ => assumption
  end.

(** Two mailboxes built by [pAdd] and [pRemove] agree. *)
Ltac mail_eq :=
  apply list_eq_getZ;
  [ mail_unfold; unfold lenZ in *; rewrite ?length_setZ; lia
  | let i := fresh "i" in let Hi := fresh "Hi" in
    intros i Hi; mail_unfold; repeat rewrite lenZ_setZ in Hi;
    mail_norm;
    repeat match goal with
           | |- context [?a =? ?b] => destruct (Z.eqb_spec a b)
           end;
    subst; solve_cond ].

(** Closes a case of the round trip once the move is pinned down: the
    conditions of [performMove] and [undoMove] are decided, the placements
    on the way are coherent, and the mailbox is the one before the move. *)
Ltac norm_idx :=
  repeat match goal with
         | |- context [?a + -1] => replace (a + -1) with (a - 1) by lia
         | |- context [?a - -1] => replace (a - -1) with (a + 1) by lia
         | |- context [?a + - (1)] => replace (a + - (1)) with (a - 1) by lia
         | |- context [?a - - (1)] => replace (a - - (1)) with (a + 1) by lia
         end.

(** The cached king squares are those of the kings on the board. *)
Definition kingsOkP (P : Placement) (F : Frame) : Prop :=
  forall sq, 0 <= sq < 64 ->
    (getZ (mail P) sq = KING -> f_whiteKing F = sq) /\
    (getZ (mail P) sq = - KING -> f_blackKing F = sq).

(** The cached king squares follow the kings of the mailbox. *)
Ltac kings_leaf Eown Hs He :=
  let F := fresh "F" in let HK := fresh "HK" in
  let sq := fresh "sq" in let Hsq := fresh "Hsq" in
  intros F HK;
  pose proof (HK _ Hs) as ?HKs; pose proof (HK _ He) as ?HKe;
  rewrite <- ?Eown in *;
  first
    [ intros sq Hsq; pose proof (HK sq Hsq) as ?HKq; clear HK;
      mail_norm;
      repeat match goal with
             | |- context [?a =? ?b] => destruct (Z.eqb_spec a b)
             end;
      cbn [f_whiteKing f_blackKing withWhiteKing withBlackKing withPositions];
      subst; solve_cond
    | clear HK;
      cbn [f_whiteKing f_blackKing withWhiteKing withBlackKing withPositions];
      solve_cond ].

Ltac rt_leaf Eown Etgt Hc Hs He :=
  unfold performPlacement, performResult, undoPlacement, performKings, undoFrame,
    kingsOkP;
  cbv zeta;
  rewrite <- ?Eown; mail_norm; rewrite <- ?Etgt;
  rewrite ?EN_PASSANT_BIT_val; unfold_consts; rewrite ?Hc; norm_idx;
  first [apply Z.sgn_pos_iff in Hc | apply Z.sgn_neg_iff in Hc];
  resolve_ifs;
  rewrite ?abs32_small by solve_cond;
  resolve_ifs;
  split; [coherent_chain |];
  split; [apply coherent_unique; [coherent_chain | assumption | mail_eq] |];
  split; kings_leaf Eown Hs He.

Lemma placement_roundtrip P pieceId start end_ :
  coherent P -> LegalOn (getZ (mail P)) pieceId start end_ ->
  coherent (performPlacement pieceId start end_ P)
  /\ undoPlacement (getZ (mail P) start) start end_ (performResult start end_ P)
                   (performPlacement pieceId start end_ P) = P
  /\ (forall F, kingsOkP P F ->
        kingsOkP (performPlacement pieceId start end_ P)
                 (performKings pieceId start end_ P F))
  /\ (forall F, kingsOkP P F ->
        f_whiteKing (undoFrame (getZ (mail P) start) start
                               (performKings pieceId start end_ P F))
        = f_whiteKing F
        /\ f_blackKing (undoFrame (getZ (mail P) start) start
                                  (performKings pieceId start end_ P F))
           = f_blackKing F).
Proof.
  intros Hcoh [Hs He Hown Htgt Hid Hshape Hking].
  pose proof (coh_mail_len P Hcoh) as Hm.
  pose proof (coh_piece_range P Hcoh start Hs) as Hrs.
  pose proof (coh_piece_range P Hcoh end_ He) as Hre.
  unfold sign in *.
  remember (getZ (mail P) start) as own eqn:Eown.
  remember (getZ (mail P) end_) as tgt eqn:Etgt.
  assert (Hne : start <> end_).
  { intros ->. rewrite <- Eown in Etgt. subst tgt. clear - Htgt Hown. lia. }
  assert (Hid' : 1 <= pieceId <= 6 /\ (pieceId = 6 <-> own = 6 \/ own = -6)).
  { clear - Hid Hrs Hown. unfold PAWN in Hid.
    destruct (Z.eqb_spec (Z.abs own) 1); lia. }
  clear Hid.
  assert (Hsgn : Z.sgn own = 1 \/ Z.sgn own = -1) by (clear - Hown; lia).
  destruct (Z.eq_dec tgt 0) as [Ht0 | Ht0].
  2: { (* capture *)
    assert (Hsg : (0 < own -> tgt < 0) /\ (own < 0 -> 0 < tgt)).
    { clear - Htgt Ht0. destruct Htgt; [contradiction | lia]. }
    clear Htgt Hshape.
    assert (Hd : own = KING \/ own = - KING -> start - end_ <> -2 /\ start - end_ <> 2).
    { destruct Hking as (Hk1 & Hk2).
      intros [Hk | Hk]; [destruct (Hk1 Hk) as (Ha & Hb) | destruct (Hk2 Hk) as (Ha & Hb)];
        split; intros Hdd; [destruct (Ha Hdd) | destruct (Hb Hdd)
                            | destruct (Ha Hdd) | destruct (Hb Hdd)]; contradiction. }
    clear Hking.
    destruct Hsgn as [Hc | Hc].
    - destruct (Z.eq_dec own KING) as [Hk | Hk].
      { destruct (Hd (or_introl Hk)). clear Hd. rt_leaf Eown Etgt Hc Hs He. }
      assert (Hk' : own <> - KING) by (clear - Hc; unfold KING; lia).
      clear Hd. rt_leaf Eown Etgt Hc Hs He.
    - destruct (Z.eq_dec own (- KING)) as [Hk | Hk].
      { destruct (Hd (or_intror Hk)). clear Hd. rt_leaf Eown Etgt Hc Hs He. }
      assert (Hk' : own <> KING) by (clear - Hc; unfold KING; lia).
      clear Hd. rt_leaf Eown Etgt Hc Hs He. }
  (* the destination is empty *)
  clear Htgt. destruct (Hshape Ht0) as (Hwp & Hbp). clear Hshape.
  destruct Hking as (Hwk & Hbk).
  destruct (Z.eq_dec own PAWN) as [Ho | Ho1].
  { clear Hbp Hwk Hbk. assert (Hc : Z.sgn own = 1) by (clear - Ho; unfold PAWN in Ho; lia).
    clear Hsgn.
    destruct (Hwp Ho) as [Hd | [Hd | [(Hd & Hv1 & Hv2) | (Hd & Hv)]]]; clear Hwp;
      rt_leaf Eown Etgt Hc Hs He. }
  destruct (Z.eq_dec own (- PAWN)) as [Ho | Ho2].
  { clear Hwp Hwk Hbk. assert (Hc : Z.sgn own = -1) by (clear - Ho; unfold PAWN in Ho; lia).
    clear Hsgn.
    destruct (Hbp Ho) as [Hd | [Hd | [(Hd & Hv1 & Hv2) | (Hd & Hv)]]]; clear Hbp;
      rt_leaf Eown Etgt Hc Hs He. }
  clear Hwp Hbp.
  destruct (Z.eq_dec own KING) as [Ho | Ho3].
  { clear Hbk. assert (Hc : Z.sgn own = 1) by (clear - Ho; unfold KING in Ho; lia).
    clear Hsgn. destruct (Hwk Ho) as (Hk1 & Hk2). clear Hwk.
    destruct (Z.eq_dec (start - end_) (-2)) as [Hd | Hd1].
    { destruct (Hk1 Hd) as (_ & Hst & Hrook & Hfree). clear Hk1 Hk2.
      rt_leaf Eown Etgt Hc Hs He. }
    destruct (Z.eq_dec (start - end_) 2) as [Hd | Hd2].
    { destruct (Hk2 Hd) as (_ & Hst & Hrook & Hfree). clear Hk1 Hk2.
      rt_leaf Eown Etgt Hc Hs He. }
    clear Hk1 Hk2. rt_leaf Eown Etgt Hc Hs He. }
  destruct (Z.eq_dec own (- KING)) as [Ho | Ho4].
  { clear Hwk. assert (Hc : Z.sgn own = -1) by (clear - Ho; unfold KING in Ho; lia).
    clear Hsgn. destruct (Hbk Ho) as (Hk1 & Hk2). clear Hbk.
    destruct (Z.eq_dec (start - end_) (-2)) as [Hd | Hd1].
    { destruct (Hk1 Hd) as (_ & Hst & Hrook & Hfree). clear Hk1 Hk2.
      rt_leaf Eown Etgt Hc Hs He. }
    destruct (Z.eq_dec (start - end_) 2) as [Hd | Hd2].
    { destruct (Hk2 Hd) as (_ & Hst & Hrook & Hfree). clear Hk1 Hk2.
      rt_leaf Eown Etgt Hc Hs He. }
    clear Hk1 Hk2. rt_leaf Eown Etgt Hc Hs He. }
  clear Hwk Hbk.
  destruct Hsgn as [Hc | Hc]; rt_leaf Eown Etgt Hc Hs He.
Qed.

End MakeUnmake.

(* ------------------------------------------------------------------ *)
(** ** History frames and the fields they restore *)

(** The fields [restoreState] takes from the history. *)
Record Saved : Type := mkSaved {
  s_state : Z;
  s_clock : Z;
  s_hash : Z;
  s_score : Z;
  s_egScore : Z
}.

Definition saved (b : Board) : Saved :=
  mkSaved (getZ (items b) STATE_INDEX) (halfMoveClock b) (hashCode b)
          (score b) (egScore b).

Lemma storeState_history b :
  history (storeState b)
  = mkHistory (i32 (historyCounter b + 1))
      (setZ (stateHistory b) (historyCounter b) (getZ (items b) STATE_INDEX))
      (setZ (hashCodeHistory b) (historyCounter b) (hashCode b))
      (setZ (scoreHistory b) (historyCounter b) (packScores (score b) (egScore b)))
      (setZ (halfMoveClockHistory b) (historyCounter b) (halfMoveClock b)).
Proof. reflexivity. Qed.

Lemma restoreState_spec b :
  67 <= lenZ (items b) ->
  lenZ (items (restoreState b)) = lenZ (items b)
  /\ placement (restoreState b) = placement b
  /\ frame (restoreState b) = withCount (i16 (f_count (frame b) - 1)) (frame b)
  /\ history (restoreState b)
     = mkHistory (i32 (historyCounter b - 1)) (stateHistory b) (hashCodeHistory b)
                 (scoreHistory b) (halfMoveClockHistory b)
  /\ saved (restoreState b)
     = mkSaved (getZ (stateHistory b) (i32 (historyCounter b - 1)))
               (getZ (halfMoveClockHistory b) (i32 (historyCounter b - 1)))
               (getZ (hashCodeHistory b) (i32 (historyCounter b - 1)))
               (unpackFirstScore (getZ (scoreHistory b) (i32 (historyCounter b - 1))))
               (unpackSecondScore (getZ (scoreHistory b) (i32 (historyCounter b - 1)))).
Proof.
  intros H.
  assert (EI : items (restoreState b)
               = setZ (items b) STATE_INDEX
                      (getZ (stateHistory b) (i32 (historyCounter b - 1))))
    by reflexivity.
  split; [rewrite EI; apply lenZ_setZ |].
  split; [unfold placement; rewrite EI; rewrite take_setZ_ge by (unfold STATE_INDEX; lia);
          reflexivity |].
  split; [reflexivity |]. split; [reflexivity |].
  unfold saved. rewrite EI. rewrite getZ_setZ_eq by (unfold STATE_INDEX; lia). reflexivity.
Qed.

(* ------------------------------------------------------------------ *)
(** ** Well-formed boards *)

(** The history stack has its allocated size and the counter lies in it. *)
Definition historyOk (b : Board) : Prop :=
  0 <= historyCounter b <= MAX_GAME_HALFMOVES
  /\ lenZ (stateHistory b) = MAX_GAME_HALFMOVES
  /\ lenZ (hashCodeHistory b) = MAX_GAME_HALFMOVES
  /\ lenZ (scoreHistory b) = MAX_GAME_HALFMOVES
  /\ lenZ (halfMoveClockHistory b) = MAX_GAME_HALFMOVES.

Record goodBoard (b : Board) : Prop := {
  gb_len : lenZ (items b) = 67;
  gb_coherent : coherent (placement b);
  gb_kings : kingsOkP (placement b) (frame b);
  gb_scores : scoresOk b;
  gb_count : in_i16 (halfMoveCount b);
  gb_history : historyOk b
}.

Definition in_i16b (x : Z) : bool := (- 2 ^ 15 <=? x) && (x <? 2 ^ 15).

Definition kingsOkb (b : Board) : bool :=
  forallb (fun sq =>
             implb (getItem b sq =? KING) (whiteKingIndex b =? sq)
             && implb (getItem b sq =? - KING) (blackKingIndex b =? sq))
          squares.

Definition historyOkb (b : Board) : bool :=
  (0 <=? historyCounter b) && (historyCounter b <=? MAX_GAME_HALFMOVES)
  && (lenZ (stateHistory b) =? MAX_GAME_HALFMOVES)
  && (lenZ (hashCodeHistory b) =? MAX_GAME_HALFMOVES)
  && (lenZ (scoreHistory b) =? MAX_GAME_HALFMOVES)
  && (lenZ (halfMoveClockHistory b) =? MAX_GAME_HALFMOVES).

(** The executable form of [goodBoard]. *)
Definition goodBoardb (b : Board) : bool :=
  (lenZ (items b) =? 67) && coherentb (placement b) && kingsOkb b
  && in_i16b (score b) && in_i16b (egScore b) && in_i16b (halfMoveCount b)
  && historyOkb b.

Lemma in_i16b_spec x : in_i16b x = true <-> in_i16 x.
Proof. unfold in_i16b, in_i16. rewrite andb_true_iff, Z.leb_le, Z.ltb_lt. tauto. Qed.

Lemma getItem_mail b pos :
  pos < 66 -> getItem b pos = getZ (mail (placement b)) pos.
Proof. intros H. unfold getItem, placement. cbn. rewrite getZ_take by lia. reflexivity. Qed.

Lemma goodBoardb_sound b : goodBoardb b = true -> goodBoard b.
Proof.
  unfold goodBoardb. rewrite !andb_true_iff.
  intros ((((((Hl & Hc) & Hk) & Hs1) & Hs2) & Hct) & Hh).
  split.
  - apply Z.eqb_eq. exact Hl.
  - apply coherentb_sound. exact Hc.
  - intros sq Hsq. unfold kingsOkb in Hk. rewrite forallb_forall in Hk.
    specialize (Hk sq (proj2 (in_squares sq) Hsq)).
    apply andb_true_iff in Hk. destruct Hk as [Hw Hb].
    rewrite <- getItem_mail by lia. cbn [frame f_whiteKing f_blackKing].
    split; intros Hq; rewrite Hq in *; rewrite Z.eqb_refl in *; cbn in *;
      apply Z.eqb_eq; assumption.
  - split; apply in_i16b_spec; assumption.
  - apply in_i16b_spec. exact Hct.
  - unfold historyOkb in Hh. rewrite !andb_true_iff in Hh.
    destruct Hh as (((((H1 & H2) & H3) & H4) & H5) & H6).
    apply Z.leb_le in H1, H2. apply Z.eqb_eq in H3, H4, H5, H6.
    repeat split; assumption.
Qed.

(* ------------------------------------------------------------------ *)
(** ** Boards that differ only in dead history entries

    [undoMove] leaves the frame it popped in the history arrays, above the
    counter.  Two boards are similar when they agree on everything but the
    entries at and above the counter. *)

Definition histAgree (b b' : Board) : Prop :=
  historyCounter b = historyCounter b'
  /\ lenZ (stateHistory b) = lenZ (stateHistory b')
  /\ lenZ (hashCodeHistory b) = lenZ (hashCodeHistory b')
  /\ lenZ (scoreHistory b) = lenZ (scoreHistory b')
  /\ lenZ (halfMoveClockHistory b) = lenZ (halfMoveClockHistory b')
  /\ forall i, 0 <= i < historyCounter b ->
       getZ (stateHistory b) i = getZ (stateHistory b') i
       /\ getZ (hashCodeHistory b) i = getZ (hashCodeHistory b') i
       /\ getZ (scoreHistory b) i = getZ (scoreHistory b') i
       /\ getZ (halfMoveClockHistory b) i = getZ (halfMoveClockHistory b') i.

Definition similar (b b' : Board) : Prop :=
  lenZ (items b) = lenZ (items b')
  /\ placement b = placement b'
  /\ frame b = frame b'
  /\ saved b = saved b'
  /\ histAgree b b'.

Lemma histAgree_refl b : histAgree b b.
Proof. repeat split. Qed.

Lemma histAgree_sym b b' : histAgree b b' -> histAgree b' b.
Proof.
  intros (Hc & H1 & H2 & H3 & H4 & Hi).
  split; [congruence |]. split; [congruence |]. split; [congruence |].
  split; [congruence |]. split; [congruence |].
  intros i Hr. rewrite <- Hc in Hr. destruct (Hi i Hr) as (A & B & C & D).
  repeat split; congruence.
Qed.

Lemma histAgree_trans b b' b'' : histAgree b b' -> histAgree b' b'' -> histAgree b b''.
Proof.
  intros (Hc & H1 & H2 & H3 & H4 & Hi) (Hc' & H1' & H2' & H3' & H4' & Hi').
  split; [congruence |]. split; [congruence |]. split; [congruence |].
  split; [congruence |]. split; [congruence |].
  intros i Hr. destruct (Hi i Hr) as (A & B & C & D).
  rewrite Hc in Hr. destruct (Hi' i Hr) as (A' & B' & C' & D').
  repeat split; congruence.
Qed.

Lemma similar_refl b : similar b b.
Proof.
  split; [reflexivity |]. split; [reflexivity |]. split; [reflexivity |].
  split; [reflexivity |]. apply histAgree_refl.
Qed.

Lemma similar_sym b b' : similar b b' -> similar b' b.
Proof.
  intros (H1 & H2 & H3 & H4 & H5).
  split; [congruence |]. split; [congruence |]. split; [congruence |].
  split; [congruence |]. apply histAgree_sym. exact H5.
Qed.

Lemma similar_trans b b' b'' : similar b b' -> similar b' b'' -> similar b b''.
Proof.
  intros (H1 & H2 & H3 & H4 & H5) (H1' & H2' & H3' & H4' & H5').
  split; [congruence |]. split; [congruence |]. split; [congruence |].
  split; [congruence |]. eapply histAgree_trans; eassumption.
Qed.

Lemma goodBoard_similar b b' : goodBoard b -> similar b b' -> goodBoard b'.
Proof.
  intros [Hl Hc Hk Hs Hct Hh] (H1 & H2 & H3 & H4 & (Hc' & L1 & L2 & L3 & L4 & _)).
  assert (E1 : score b' = score b) by (apply (f_equal s_score) in H4; cbn in H4; congruence).
  assert (E2 : egScore b' = egScore b)
    by (apply (f_equal s_egScore) in H4; cbn in H4; congruence).
  assert (E3 : halfMoveCount b' = halfMoveCount b)
    by (apply (f_equal f_count) in H3; cbn in H3; congruence).
  split.
  - congruence.
  - rewrite <- H2. exact Hc.
  - rewrite <- H2, <- H3. exact Hk.
  - unfold scoresOk. rewrite E1, E2. exact Hs.
  - rewrite E3. exact Hct.
  - unfold historyOk in *. rewrite <- Hc', <- L1, <- L2, <- L3, <- L4. exact Hh.
Qed.

(** Similar boards of 67 slots agree on every field the engine reads. *)
Lemma similar_fields b b' :
  similar b b' -> lenZ (items b) = 67 ->
  items b = items b' /\ whiteKingIndex b = whiteKingIndex b'
  /\ blackKingIndex b = blackKingIndex b' /\ score b = score b'
  /\ egScore b = egScore b' /\ halfMoveCount b = halfMoveCount b'
  /\ halfMoveClock b = halfMoveClock b'
  /\ bitBoardPieces b = bitBoardPieces b'
  /\ bitBoardAllPieces b = bitBoardAllPieces b'
  /\ hashCode b = hashCode b' /\ historyCounter b = historyCounter b'
  /\ positionHistory b = positionHistory b' /\ endgame b = endgame b'.
Proof.
  intros (H1 & H2 & H3 & H4 & (Hc & _)) Hl.
  unfold placement in H2. injection H2 as P1 P2 P3.
  unfold frame in H3. injection H3 as F1 F2 F3 F4 F5.
  unfold saved in H4. injection H4 as S1 S2 S3 S4 S5.
  repeat split; try assumption.
  apply list_eq_getZ; [unfold lenZ in *; lia |].
  intros i Hi. destruct (Z.eq_dec i 66) as [-> | Hne].
  - exact S1.
  - rewrite <- (getZ_take (items b) 66) by lia.
    rewrite <- (getZ_take (items b') 66) by lia. rewrite P1. reflexivity.
Qed.

(* ------------------------------------------------------------------ *)
(** ** Taking a move back *)

Lemma frame_ext F G :
  f_whiteKing F = f_whiteKing G -> f_blackKing F = f_blackKing G ->
  f_count F = f_count G -> f_positions F = f_positions G ->
  f_endgame F = f_endgame G -> F = G.
Proof. destruct F, G. cbn. intros. subst. reflexivity. Qed.

Lemma performKings_rest pieceId start end_ P F :
  f_count (performKings pieceId start end_ P F) = f_count F
  /\ f_positions (performKings pieceId start end_ P F) = f_positions F
  /\ f_endgame (performKings pieceId start end_ P F) = f_endgame F.
Proof.
  unfold performKings. cbv zeta.
  repeat match goal with
         | |- context [if ?c then _ else _] => destruct c
         end; repeat split.
Qed.

Lemma performKings_withCount pieceId start end_ P c F :
  performKings pieceId start end_ P (withCount c F)
  = withCount c (performKings pieceId start end_ P F).
Proof.
  unfold performKings. cbv zeta.
  repeat match goal with
         | |- context [if ?c then _ else _] => destruct c
         end; reflexivity.
Qed.

Lemma undoFrame_fields piece start F :
  f_count (undoFrame piece start F) = f_count F
  /\ f_positions (undoFrame piece start F) = tail (f_positions F)
  /\ f_endgame (undoFrame piece start F) = f_endgame F.
Proof.
  unfold undoFrame. cbv zeta.
  repeat match goal with
         | |- context [if ?c then _ else _] => destruct c
         end; repeat split.
Qed.

Lemma undoFrame_kings piece start ps c F :
  f_whiteKing (undoFrame piece start (withPositions ps (withCount c F)))
  = f_whiteKing (undoFrame piece start F)
  /\ f_blackKing (undoFrame piece start (withPositions ps (withCount c F)))
     = f_blackKing (undoFrame piece start F).
Proof.
  unfold undoFrame. cbv zeta.
  repeat match goal with
         | |- context [if ?c then _ else _] => destruct c
         end; split; reflexivity.
Qed.

(** A move and its inverse leave the frame as it was. *)
Lemma frame_roundtrip P F pieceId start end_ h :
  coherent P -> LegalOn (getZ (mail P)) pieceId start end_ -> kingsOkP P F ->
  in_i16 (f_count F) ->
  let F1 := performFrame pieceId start end_ h P F in
  let Fu := undoFrame (getZ (mail P) start) start F1 in
  withCount (i16 (f_count Fu - 1)) Fu = F.
Proof.
  intros Hc Hl Hk Hct F1 Fu.
  destruct (placement_roundtrip P pieceId start end_ Hc Hl) as (_ & _ & _ & HK).
  destruct (HK F Hk) as (Hw & Hb).
  destruct (undoFrame_fields (getZ (mail P) start) start F1) as (U1 & U2 & U3).
  destruct (performKings_rest pieceId start end_ P (withCount (i16 (f_count F + 1)) F))
    as (K1 & K2 & K3).
  assert (EF1 : F1 = withPositions (h :: f_positions F)
                       (withCount (i16 (f_count F + 1))
                          (performKings pieceId start end_ P F))).
  { unfold F1, performFrame. rewrite performKings_withCount. reflexivity. }
  destruct (undoFrame_kings (getZ (mail P) start) start (h :: f_positions F)
              (i16 (f_count F + 1)) (performKings pieceId start end_ P F)) as (V1 & V2).
  rewrite <- EF1 in V1, V2. fold Fu in V1, V2, U1, U2, U3.
  apply frame_ext.
  - change (f_whiteKing Fu = f_whiteKing F). congruence.
  - change (f_blackKing Fu = f_blackKing F). congruence.
  - change (i16 (f_count Fu - 1) = f_count F). rewrite U1.
    change (f_count F1) with
      (f_count (performKings pieceId start end_ P (withCount (i16 (f_count F + 1)) F))).
    rewrite K1. change (f_count (withCount (i16 (f_count F + 1)) F)) with (i16 (f_count F + 1)).
    apply i16_inc_dec. exact Hct.
  - change (f_positions Fu = f_positions F). rewrite U2. reflexivity.
  - change (f_endgame Fu = f_endgame F). rewrite U3.
    change (f_endgame F1) with
      (f_endgame (performKings pieceId start end_ P (withCount (i16 (f_count F + 1)) F))).
    rewrite K3. reflexivity.
Qed.

(** The squares [undoMove] touches when it takes back a legal move. *)
Lemma undoInRange_perform P pieceId start end_ :
  coherent P -> LegalOn (getZ (mail P)) pieceId start end_ ->
  undoInRange (getZ (mail P) start) start end_ (performResult start end_ P).
Proof.
  intros Hcoh [Hs He Hown Htgt Hid Hshape Hking].
  pose proof (coh_mail_len P Hcoh) as Hm.
  pose proof (coh_piece_range P Hcoh end_ He) as Hre.
  split; [exact Hs |]. split; [exact He |].
  unfold performResult. cbv zeta. rewrite mail_pRemove.
  rewrite getZ_setZ by lia.
  assert (Hne : start <> end_).
  { intros ->. unfold sign in Htgt. clear - Htgt Hown. lia. }
  destruct (Z.eqb_spec end_ start) as [Heq | _]; [congruence |].
  unfold EMPTY. rewrite EN_PASSANT_BIT_val.
  destruct (Z.eqb_spec (getZ (mail P) end_) 0) as [Ht0 | Ht0]; cbn [negb].
  2: { rewrite abs32_small by lia. intros Habs. clear - Habs Hre. lia. }
  destruct (Hshape Ht0) as (Hwp & Hbp).
  unfold PAWN in *. change (- (1)) with (-1) in *.
  destruct (Z.eqb_spec (getZ (mail P) start) 1) as [Ho | Ho].
  - rewrite Ho. change (sign 1) with 1.
    specialize (Hwp Ho). clear - Hwp Hs He.
    intros _. rewrite abs32_small by lia. lia.
  - destruct (Z.eqb_spec (getZ (mail P) start) (-1)) as [Ho' | Ho'].
    + rewrite Ho'. change (sign (-1)) with (-1).
      specialize (Hbp Ho'). clear - Hbp Hs He.
      intros _. rewrite abs32_small by lia. lia.
    + intros Habs. discriminate Habs.
Qed.

Section RoundTrip.

Context (E : Externals).

Lemma history_inj b c st hs sc ck :
history b = mkHistory c st hs sc ck ->
historyCounter b = c /\ stateHistory b = st /\ hashCodeHistory b = hs
/\ scoreHistory b = sc /\ halfMoveClockHistory b = ck.
Proof. unfold history. intros H. injection H as -> -> -> -> ->. repeat split. Qed.

(** [undoMove] on placement, frame, history and restored fields. *)
Lemma undoMove_spec piece start end_ removedPieceId b :
67 <= lenZ (items b) -> undoInRange piece start end_ removedPieceId ->
let b' := undoMove E piece start end_ removedPieceId b in
let c := i32 (historyCounter b - 1) in
lenZ (items b') = lenZ (items b)
/\ placement b' = undoPlacement piece start end_ removedPieceId (placement b)
/\ frame b' = (let Fu := undoFrame piece start (frame b) in
               withCount (i16 (f_count Fu - 1)) Fu)
/\ history b' = mkHistory c (stateHistory b) (hashCodeHistory b) (scoreHistory b)
                          (halfMoveClockHistory b)
/\ saved b' = mkSaved (getZ (stateHistory b) c) (getZ (halfMoveClockHistory b) c)
                      (getZ (hashCodeHistory b) c)
                      (unpackFirstScore (getZ (scoreHistory b) c))
                      (unpackSecondScore (getZ (scoreHistory b) c)).
Proof.
intros Hlen Hr b' c. subst b' c.
destruct (undoMove_core E piece start end_ removedPieceId b Hlen Hr)
  as (bX & (Hl & Hp & Hf & Hh & _) & ->).
assert (HlX : 67 <= lenZ (items bX)) by (rewrite Hl; exact Hlen).
destruct (restoreState_spec bX HlX) as (R1 & R2 & R3 & R4 & R5).
unfold history in Hh. injection Hh as Hc H1 H2 H3 H4.
rewrite Hc, H1, H2, H3, H4 in *.
split; [congruence |]. split; [congruence |].
split; [rewrite R3, Hf; reflexivity |].
split; [exact R4 | exact R5].
Qed.

(** The facts of a legal move, read on the placement. *)
Lemma legalOn_placement b pieceId start end_ :
legalMove b pieceId start end_ = true ->
LegalOn (getZ (mail (placement b))) pieceId start end_.
Proof.
intros Hlegal. apply legalMove_facts in Hlegal. unfold LegalFacts in Hlegal.
destruct Hlegal as [Hs He Hown Htgt Hid Hshape Hking].
assert (Hsq : forall q, q < 66 -> getItem b q = getZ (mail (placement b)) q)
  by (intros q Hq; apply getItem_mail; exact Hq).
split;
  unfold WHITE_KING_START, BLACK_KING_START, WHITE_KING_SIDE_ROOK_START,
    WHITE_QUEEN_SIDE_ROOK_START, BLACK_KING_SIDE_ROOK_START,
    BLACK_QUEEN_SIDE_ROOK_START in *;
  repeat match goal with
         | |- context [getZ (mail (placement b)) ?q] =>
             rewrite <- (Hsq q) by lia
         end; assumption.
Qed.

(** A legal move on a well-formed board below the history limit leads to
  a well-formed board, and taking it back (with the piece that stood on
  the start square) gives a board similar to the one before. *)
Lemma perform_undo_one pieceId start end_ b b1 r :
goodBoard b -> historyCounter b < MAX_GAME_HALFMOVES ->
legalMove b pieceId start end_ = true ->
performMove E pieceId start end_ b = (b1, r) ->
goodBoard b1
/\ historyCounter b1 = historyCounter b + 1
/\ undoInRange (getItem b start) start end_ r
/\ similar (undoMove E (getItem b start) start end_ r b1) b.
Proof.
intros [Hlen Hcoh Hk Hsc Hct (Hh0 & Hh1 & Hh2 & Hh3 & Hh4)] Hmax Hlegal Hperf.
assert (Hlen' : 67 <= lenZ (items b)) by lia.
destruct (performMove_effect E pieceId start end_ b b1 r Hlen' Hlegal Hperf)
  as (P1 & P2 & P3 & P4 & P5 & P6).
pose proof (legalOn_placement b pieceId start end_ Hlegal) as HL.
pose proof (lf_start _ _ _ _ HL) as Hs.
assert (Eown : getItem b start = getZ (mail (placement b)) start)
  by (apply getItem_mail; lia).
destruct (placement_roundtrip (placement b) pieceId start end_ Hcoh HL)
  as (C1 & C2 & C3 & C4).
pose proof (undoInRange_perform (placement b) pieceId start end_ Hcoh HL) as Hur.
rewrite <- P5, <- Eown in Hur.
rewrite storeState_history in P4.
assert (Ec : i32 (historyCounter b + 1) = historyCounter b + 1).
{ apply i32_small. unfold in_i32, MAX_GAME_HALFMOVES in *. lia. }
rewrite Ec in P4.
destruct (history_inj _ _ _ _ _ _ P4) as (Q0 & Q1 & Q2 & Q3 & Q4).
assert (G1 : goodBoard b1).
{ split.
  - congruence.
  - rewrite P2. exact C1.
  - rewrite P2, P3. unfold performFrame.
    assert (K : kingsOkP (performPlacement pieceId start end_ (placement b))
                  (performKings pieceId start end_ (placement b)
                     (withCount (i16 (f_count (frame b) + 1)) (frame b)))).
    { apply C3. exact Hk. }
    exact K.
  - apply P6. exact Hsc.
  - destruct (performKings_rest pieceId start end_ (placement b)
                (withCount (i16 (f_count (frame b) + 1)) (frame b))) as (K1 & _).
    assert (Ecount : halfMoveCount b1 = i16 (f_count (frame b) + 1)).
    { change (halfMoveCount b1) with (f_count (frame b1)). rewrite P3.
      unfold performFrame.
      change (f_count (withPositions ?p ?F)) with (f_count F).
      rewrite K1. reflexivity. }
    rewrite Ecount. apply i16_range.
  - unfold historyOk. rewrite Q0, Q1, Q2, Q3, Q4, !lenZ_setZ.
    repeat split; try assumption; lia. }
split; [exact G1 |]. split; [exact Q0 |]. split; [exact Hur |].
assert (Hlen1 : 67 <= lenZ (items b1)) by lia.
destruct (undoMove_spec (getItem b start) start end_ r b1 Hlen1 Hur)
  as (U1 & U2 & U3 & U4 & U5).
cbv zeta in U3.
rewrite Q0, Q1, Q2, Q3, Q4 in U4, U5.
replace (i32 (historyCounter b + 1 - 1)) with (historyCounter b) in U4, U5
  by (replace (historyCounter b + 1 - 1) with (historyCounter b) by lia;
      symmetry; apply i32_small; unfold in_i32, MAX_GAME_HALFMOVES in *; lia).
rewrite !getZ_setZ_eq in U5 by lia.
rewrite unpack_pack_first, unpack_pack_second in U5 by apply Hsc.
split; [congruence |].
split; [rewrite U2, P2, P5, Eown; exact C2 |].
split.
{ rewrite U3, P3, Eown.
  apply (frame_roundtrip (placement b) (frame b) pieceId start end_ (hashCode b1)
           Hcoh HL Hk). exact Hct. }
split; [exact U5 |].
destruct (history_inj _ _ _ _ _ _ U4) as (V0 & V1 & V2 & V3 & V4).
unfold histAgree. rewrite V0, V1, V2, V3, V4, !lenZ_setZ.
split; [reflexivity |]. split; [reflexivity |]. split; [reflexivity |].
split; [reflexivity |]. split; [reflexivity |].
intros i Hi. rewrite !getZ_setZ_ne by lia. repeat split.
Qed.

(** [undoMove] reads the history below the counter only. *)
Lemma undoMove_similar piece start end_ removedPieceId b b' :
similar b b' -> 67 <= lenZ (items b) ->
1 <= historyCounter b <= MAX_GAME_HALFMOVES ->
undoInRange piece start end_ removedPieceId ->
similar (undoMove E piece start end_ removedPieceId b)
        (undoMove E piece start end_ removedPieceId b').
Proof.
intros (S1 & S2 & S3 & S4 & (Hc & L1 & L2 & L3 & L4 & Hi)) Hlen Hhc Hur.
assert (Hlen' : 67 <= lenZ (items b')) by lia.
destruct (undoMove_spec piece start end_ removedPieceId b Hlen Hur)
  as (U1 & U2 & U3 & U4 & U5).
destruct (undoMove_spec piece start end_ removedPieceId b' Hlen' Hur)
  as (U1' & U2' & U3' & U4' & U5').
assert (Ec : i32 (historyCounter b - 1) = historyCounter b - 1).
{ apply i32_small. unfold in_i32, MAX_GAME_HALFMOVES in *. lia. }
rewrite <- Hc in U4', U5'. rewrite Ec in *.
assert (Hlt : 0 <= historyCounter b - 1 < historyCounter b) by lia.
destruct (Hi _ Hlt) as (A & B & C & D).
split; [congruence |]. split; [congruence |].
split; [rewrite U3, U3', S3; reflexivity |].
split; [rewrite U5, U5', A, B, C, D; reflexivity |].
destruct (history_inj _ _ _ _ _ _ U4) as (V0 & V1 & V2 & V3 & V4).
destruct (history_inj _ _ _ _ _ _ U4') as (V0' & V1' & V2' & V3' & V4').
unfold histAgree. rewrite V0, V1, V2, V3, V4, V0', V1', V2', V3', V4'.
split; [reflexivity |]. split; [exact L1 |]. split; [exact L2 |].
split; [exact L3 |]. split; [exact L4 |].
intros i Hir. apply Hi. lia.
Qed.

End RoundTrip.

(* ------------------------------------------------------------------ *)
(** ** Null moves and sequences of moves *)

(** A move as the search passes it to [performMove]. *)
Record Move : Type := mkMove {
  mv_pieceId : Z;
  mv_start : Z;
  mv_end : Z
}.

(** What the caller keeps of a performed move to take it back: the
    [piece] argument of [undoMove], the two squares and the value
    [performMove] returned. *)
Record Played : Type := mkPlayed {
  pl_piece : Z;
  pl_start : Z;
  pl_end : Z;
  pl_removed : Z
}.

Section Sequences.

Context (E : Externals).

(** [arg b m] is the piece the caller will hand to [undoMove]. *)
Context (arg : Board -> Move -> Z).

(** Performs the moves in order; [done] collects the performed moves,
    the last one first. *)
Fixpoint performMoves (ms : list Move) (b : Board) (done : list Played)
  : Board * list Played :=
  match ms with
  | [] => (b, done)
  | m :: rest =>
      let '(b', r) := performMove E (mv_pieceId m) (mv_start m) (mv_end m) b in
      performMoves rest b' (mkPlayed (arg b m) (mv_start m) (mv_end m) r :: done)
  end.

(** Takes the performed moves back, the last one first. *)
Definition undoMoves (done : list Played) (b : Board) : Board :=
  fold_left (fun b p => undoMove E (pl_piece p) (pl_start p) (pl_end p) (pl_removed p) b)
            done b.

(** Every move of the sequence is legal on the board it is played on. *)
Fixpoint legalMoves (ms : list Move) (b : Board) : bool :=
  match ms with
  | [] => true
  | m :: rest =>
      legalMove b (mv_pieceId m) (mv_start m) (mv_end m)
      && legalMoves rest (fst (performMove E (mv_pieceId m) (mv_start m) (mv_end m) b))
  end.

Lemma performMoves_done ms b done :
  performMoves ms b done
  = (fst (performMoves ms b []), snd (performMoves ms b []) ++ done).
Proof.
  revert b done. induction ms as [| m rest IH]; intros b done; [reflexivity |].
  cbn [performMoves].
  destruct (performMove E (mv_pieceId m) (mv_start m) (mv_end m) b) as [b' r].
  rewrite (IH b' (_ :: done)), (IH b' [_]). cbn [fst snd].
  rewrite <- app_assoc. reflexivity.
Qed.

Lemma undoMoves_app d d' b : undoMoves (d ++ d') b = undoMoves d' (undoMoves d b).
Proof. unfold undoMoves. apply fold_left_app. Qed.

End Sequences.

(** The caller hands [undoMove] the piece that stood on the start square. *)
Definition movedPiece (b : Board) (m : Move) : Z := getItem b (mv_start m).

(** The caller hands [undoMove] the piece id it gave to [performMove]. *)
Definition samePieceId (b : Board) (m : Move) : Z := mv_pieceId m.

(** The fields a round trip is observed on. *)
Record Observed : Type := mkObserved {
  o_hash : Z;
  o_score : Z;
  o_egScore : Z;
  o_state : Z;
  o_halfMoveClock : Z;
  o_mailbox : list Z;
  o_pieces : list Z;
  o_occupancy : list Z;
  o_whiteKing : Z;
  o_blackKing : Z
}.

Definition observed (b : Board) : Observed :=
  mkObserved (hashCode b) (score b) (egScore b) (getState b) (halfMoveClock b)
             (take 64 (items b)) (bitBoardPieces b) (bitBoardAllPieces b)
             (whiteKingIndex b) (blackKingIndex b).

Lemma similar_observed b b' :
  similar b b' -> lenZ (items b) = 67 -> observed b = observed b'.
Proof.
  intros Hs Hl. pose proof Hs as (Hl' & _).
  destruct (similar_fields b b' Hs Hl)
    as (F1 & F2 & F3 & F4 & F5 & F6 & F7 & F8 & F9 & F10 & _).
  unfold observed, getState. rewrite <- Hl', F1, F2, F3, F4, F5, F7, F8, F9, F10.
  reflexivity.
Qed.

Section SequenceRoundTrip.

Context (E : Externals).

Lemma roundtrip_similar ms : forall b,
  goodBoard b ->
  historyCounter b + Z.of_nat (length ms) <= MAX_GAME_HALFMOVES ->
  legalMoves E ms b = true ->
  similar (undoMoves E (snd (performMoves E movedPiece ms b []))
                     (fst (performMoves E movedPiece ms b [])))
          b.
Proof.
  induction ms as [| m rest IH]; intros b Hg Hh Hl.
  - apply similar_refl.
  - cbn [legalMoves] in Hl. apply andb_true_iff in Hl. destruct Hl as [Hl1 Hl2].
    cbn [performMoves].
    destruct (performMove E (mv_pieceId m) (mv_start m) (mv_end m) b) as [b1 r] eqn:Ep.
    cbn [fst] in Hl2. cbn [length] in Hh.
    assert (Hmax : historyCounter b < MAX_GAME_HALFMOVES) by lia.
    destruct (perform_undo_one E _ _ _ b b1 r Hg Hmax Hl1 Ep) as (G1 & C1 & R1 & S1).
    assert (Hh1 : historyCounter b1 + Z.of_nat (length rest) <= MAX_GAME_HALFMOVES)
      by lia.
    specialize (IH b1 G1 Hh1 Hl2).
    rewrite performMoves_done. cbn [fst snd]. rewrite undoMoves_app.
    revert IH.
    generalize (undoMoves E (snd (performMoves E movedPiece rest b1 []))
                          (fst (performMoves E movedPiece rest b1 []))).
    intros bu IH. unfold undoMoves at 1. cbn [fold_left pl_piece pl_start pl_end pl_removed].
    unfold movedPiece.
    apply similar_trans with (b' := undoMove E (getItem b (mv_start m)) (mv_start m)
                                            (mv_end m) r b1); [| exact S1].
    destruct IH as (I1 & I2 & I3 & I4 & I5).
    pose proof (gb_len b1 G1) as L1.
    pose proof (gb_history b1 G1) as (Hc1 & _).
    apply undoMove_similar; trivial.
    + split; [exact I1 | split; [exact I2 | split; [exact I3 | split; [exact I4 | exact I5]]]].
    + lia.
    + destruct I5 as (I5 & _). pose proof (gb_history b Hg) as (Hc0 & _). lia.
Qed.

(** *** Null moves *)

Lemma performNullMove_spec b :
  67 <= lenZ (items b) ->
  lenZ (items (performNullMove E b)) = lenZ (items b)
  /\ placement (performNullMove E b) = placement b
  /\ frame (performNullMove E b) = withCount (i16 (f_count (frame b) + 1)) (frame b)
  /\ history (performNullMove E b) = history (storeState b)
  /\ (scoresOk b -> scoresOk (performNullMove E b)).
Proof.
  intros Hlen. unfold performNullMove.
  destruct (storeState_facts b) as (HL0 & HP0 & HF0 & HS0).
  generalize dependent (storeState b). intros b0 HL0 HP0 HF0 HS0.
  assert (Hlen0 : 67 <= lenZ (items b0)) by (rewrite HL0; exact Hlen).
  pose proof (effect_increaseHalfMoveCount E b0) as H1.
  assert (Hlen1 : 67 <= lenZ (items (increaseHalfMoveCount E b0)))
    by (rewrite (effect_len _ _ _ _ H1); exact Hlen0).
  pose proof (effect_keeps_r _ _ _ _ _ H1
                (keeps_clearEnPassentPossible E _ Hlen1)) as (A & B & C & D & F).
  cbv zeta.
  split; [congruence |]. split; [rewrite B; exact HP0 |].
  split; [rewrite C, HF0; reflexivity |]. split; [exact D |]. auto.
Qed.

Lemma undoNullMove_similar b b' :
  similar b b' -> 67 <= lenZ (items b) ->
  1 <= historyCounter b <= MAX_GAME_HALFMOVES ->
  similar (undoNullMove b) (undoNullMove b').
Proof.
  intros (S1 & S2 & S3 & S4 & (Hc & L1 & L2 & L3 & L4 & Hi)) Hlen Hhc.
  assert (Hlen' : 67 <= lenZ (items b')) by lia.
  unfold undoNullMove.
  destruct (restoreState_spec b Hlen) as (U1 & U2 & U3 & U4 & U5).
  destruct (restoreState_spec b' Hlen') as (U1' & U2' & U3' & U4' & U5').
  assert (Ec : i32 (historyCounter b - 1) = historyCounter b - 1).
  { apply i32_small. unfold in_i32, MAX_GAME_HALFMOVES in *. lia. }
  rewrite <- Hc in U4', U5'. rewrite Ec in *.
  assert (Hlt : 0 <= historyCounter b - 1 < historyCounter b) by lia.
  destruct (Hi _ Hlt) as (A & B & C & D).
  split; [congruence |]. split; [congruence |].
  split; [rewrite U3, U3', S3; reflexivity |].
  split; [rewrite U5, U5', A, B, C, D; reflexivity |].
  destruct (history_inj _ _ _ _ _ _ U4) as (V0 & V1 & V2 & V3 & V4).
  destruct (history_inj _ _ _ _ _ _ U4') as (V0' & V1' & V2' & V3' & V4').
  unfold histAgree. rewrite V0, V1, V2, V3, V4, V0', V1', V2', V3', V4'.
  split; [reflexivity |]. split; [exact L1 |]. split; [exact L2 |].
  split; [exact L3 |]. split; [exact L4 |].
  intros i Hir. apply Hi. lia.
Qed.

Lemma null_undo_one b :
  goodBoard b -> historyCounter b < MAX_GAME_HALFMOVES ->
  goodBoard (performNullMove E b)
  /\ historyCounter (performNullMove E b) = historyCounter b + 1
  /\ similar (undoNullMove (performNullMove E b)) b.
Proof.
  intros [Hlen Hcoh Hk Hsc Hct (Hh0 & Hh1 & Hh2 & Hh3 & Hh4)] Hmax.
  assert (Hlen' : 67 <= lenZ (items b)) by lia.
  destruct (performNullMove_spec b Hlen') as (P1 & P2 & P3 & P4 & P6).
  revert P1 P2 P3 P4 P6. generalize (performNullMove E b). intros b1 P1 P2 P3 P4 P6.
  rewrite storeState_history in P4.
  assert (Ec : i32 (historyCounter b + 1) = historyCounter b + 1).
  { apply i32_small. unfold in_i32, MAX_GAME_HALFMOVES in *. lia. }
  rewrite Ec in P4.
  destruct (history_inj _ _ _ _ _ _ P4) as (Q0 & Q1 & Q2 & Q3 & Q4).
  assert (G1 : goodBoard b1).
  { split.
    - congruence.
    - rewrite P2. exact Hcoh.
    - rewrite P2, P3. exact Hk.
    - apply P6. exact Hsc.
    - change (halfMoveCount b1) with (f_count (frame b1)). rewrite P3.
      apply i16_range.
    - unfold historyOk. rewrite Q0, Q1, Q2, Q3, Q4, !lenZ_setZ.
      repeat split; try assumption; lia. }
  split; [exact G1 |]. split; [exact Q0 |].
  assert (Hlen1 : 67 <= lenZ (items b1)) by lia.
  unfold undoNullMove.
  destruct (restoreState_spec b1 Hlen1) as (U1 & U2 & U3 & U4 & U5).
  revert U1 U2 U3 U4 U5. generalize (restoreState b1). intros b2 U1 U2 U3 U4 U5.
  rewrite Q0, Q1, Q2, Q3, Q4 in U4, U5.
  replace (i32 (historyCounter b + 1 - 1)) with (historyCounter b) in U4, U5
    by (replace (historyCounter b + 1 - 1) with (historyCounter b) by lia;
        symmetry; apply i32_small; unfold in_i32, MAX_GAME_HALFMOVES in *; lia).
  rewrite !getZ_setZ_eq in U5 by lia.
  rewrite unpack_pack_first, unpack_pack_second in U5 by apply Hsc.
  split; [congruence |]. split; [congruence |].
  split.
  { rewrite U3, P3. apply frame_ext; try reflexivity.
    change (i16 (i16 (f_count (frame b) + 1) - 1) = f_count (frame b)).
    apply i16_inc_dec. exact Hct. }
  split; [exact U5 |].
  destruct (history_inj _ _ _ _ _ _ U4) as (V0 & V1 & V2 & V3 & V4).
  unfold histAgree. rewrite V0, V1, V2, V3, V4, !lenZ_setZ.
  split; [reflexivity |]. split; [reflexivity |]. split; [reflexivity |].
  split; [reflexivity |]. split; [reflexivity |].
  intros i Hi. rewrite !getZ_setZ_ne by lia. repeat split.
Qed.

End SequenceRoundTrip.

(* ------------------------------------------------------------------ *)
(** ** Construction yields a coherent placement *)

Definition piecesInRange (input : list Z) : bool :=
  forallb (fun s => (-6 <=? getZ input s) && (getZ input s <=? 6)) squares.

Lemma piecesInRange_spec input :
  piecesInRange input = true ->
  forall s, 0 <= s < 64 -> -6 <= getZ input s <= 6.
Proof.
  unfold piecesInRange. rewrite forallb_forall. intros H s Hs.
  specialize (H s (proj2 (in_squares s) Hs)).
  apply andb_true_iff in H. destruct H as [H1 H2].
  apply Z.leb_le in H1, H2. lia.
Qed.

Lemma fold_left_seqZ_inv {A} (Inv : Z -> A -> Prop) (f : A -> Z -> A) (n : nat) :
  forall m a,
    Inv m a ->
    (forall i x, m <= i < m + Z.of_nat n -> Inv i x -> Inv (i + 1) (f x i)) ->
    Inv (m + Z.of_nat n) (fold_left f (seqZ m (Z.of_nat n)) a).
Proof.
  induction n as [| n IH]; intros m a H0 Hstep.
  - change (Z.of_nat 0) with 0. rewrite Z.add_0_r. exact H0.
  - rewrite Nat2Z.inj_succ. rewrite seqZ_cons by lia. cbn [fold_left].
    replace (Z.pred (Z.succ (Z.of_nat n))) with (Z.of_nat n) by lia.
    replace (m + Z.succ (Z.of_nat n)) with (Z.succ m + Z.of_nat n) by lia.
    apply IH.
    + replace (Z.succ m) with (m + 1) by lia. apply Hstep; [lia | exact H0].
    + intros i x Hi. apply Hstep. lia.
Qed.

Lemma coherent_empty :
  coherent (mkPlacement (replicate 66 0) (replicate 13 0) (replicate 3 0)).
Proof. apply coherentb_sound. vm_compute. reflexivity. Qed.

Lemma abs32_sign piece : -6 <= piece <= 6 -> abs32 piece * sign piece = piece.
Proof.
  intros H. rewrite abs32_small by lia. unfold sign. lia.
Qed.

Section ConstructionFacts.

Context (E : Externals).

(** While the constructor places the input, the squares already visited
hold the input and the others are still empty. *)
Definition placing (input : list Z) (i : Z) (b : Board) : Prop :=
lenZ (items b) = lenZ input
/\ coherent (placement b)
/\ (forall s, 0 <= s < i -> getItem b s = getZ input s)
/\ (forall s, i <= s < 64 -> getItem b s = 0).

Lemma placeInput_placing input i b :
67 <= lenZ input -> piecesInRange input = true -> 0 <= i < 64 ->
placing input i b -> placing input (i + 1) (placeInput E input b i).
Proof.
intros Hlen Hrange Hi (Hl & Hcoh & Hdone & Htodo).
pose proof (piecesInRange_spec input Hrange i Hi) as Hp.
assert (Hlb : 67 <= lenZ (items b)) by lia.
assert (Hempty : getZ (mail (placement b)) i = 0).
{ rewrite <- getItem_mail by lia. apply Htodo. lia. }
unfold placeInput. cbv zeta. unfold EMPTY.
destruct (Z.eqb_spec (getZ input i) 0) as [Hz | Hnz]; cbn [negb].
- rewrite Hz.
assert (Es : setZ (items b) i 0 = items b).
{ rewrite <- (Htodo i) at 1 by lia. apply setZ_same. }
rewrite Es.
replace (set_items (items b) b) with b by (destruct b; reflexivity).
split; [exact Hl |]. split; [exact Hcoh |].
split.
+ intros s Hs. destruct (Z.eq_dec s i) as [-> | Hne].
  * rewrite Hz. apply Htodo. lia.
  * apply Hdone. lia.
+ intros s Hs. apply Htodo. lia.
- destruct (effect_addPiece E (sign (getZ input i)) (abs32 (getZ input i)) i b Hlb Hi)
  as (A1 & A2 & _).
rewrite abs32_sign in A2 by exact Hp.
revert A1 A2.
generalize (addPiece E (sign (getZ input i)) (abs32 (getZ input i)) i b).
intros b' A1 A2.
assert (Hq : forall s, s < 66 -> getItem b' s
            = if s =? i then getZ input i else getItem b s).
{ intros s Hs. rewrite !getItem_mail by lia. rewrite A2, mail_pAdd.
  apply getZ_setZ. rewrite (coh_mail_len _ Hcoh). lia. }
split; [congruence |].
split.
{ rewrite A2. apply coherent_pAdd; trivial; lia. }
split.
+ intros s Hs. rewrite Hq by lia.
  destruct (Z.eqb_spec s i) as [-> | Hne]; [reflexivity | apply Hdone; lia].
+ intros s Hs. rewrite Hq by lia.
  destruct (Z.eqb_spec s i) as [-> | Hne]; [lia | apply Htodo; lia].
Qed.

Lemma placement_freshBoard n w k :
(66 <= n)%nat ->
placement (set_blackKingIndex k (set_whiteKingIndex w (freshBoard n)))
= mkPlacement (replicate 66 0) (replicate 13 0) (replicate 3 0).
Proof.
intros H. unfold placement, freshBoard. cbn [items set_blackKingIndex set_whiteKingIndex
bitBoardPieces bitBoardAllPieces].
rewrite take_replicate. replace (66 `min` n)%nat with 66%nat by lia. reflexivity.
Qed.

(** What the constructor leaves behind on success. *)
Lemma Board_constructor_spec input b :
piecesInRange input = true -> Board_constructor E input = inr b ->
lenZ (items b) = lenZ input /\ 67 <= lenZ input
/\ coherent (placement b)
/\ (forall s, 0 <= s < 64 -> getItem b s = getZ input s)
/\ whiteKingIndex b = findIndex isWhiteKing input
/\ blackKingIndex b = findIndex isBlackKing input
/\ historyCounter b = 0.
Proof.
intros Hrange. unfold Board_constructor. cbv zeta.
destruct (Z.ltb_spec (lenZ input) (STATE_INDEX + 1)) as [Hlt | Hge]; [discriminate |].
unfold STATE_INDEX in Hge.
cbn [whiteKingIndex blackKingIndex set_whiteKingIndex set_blackKingIndex].
destruct (findIndex isWhiteKing input =? -1); [discriminate |].
destruct (findIndex isBlackKing input =? -1); [discriminate |].
set (b0 := set_blackKingIndex _ (set_whiteKingIndex _ _)).
assert (H0 : placing input 0 b0
           /\ whiteKingIndex b0 = findIndex isWhiteKing input
           /\ blackKingIndex b0 = findIndex isBlackKing input
           /\ historyCounter b0 = 0).
{ split; [| repeat split].
split; [| split; [| split]].
- unfold b0, freshBoard, lenZ. cbn [items set_blackKingIndex set_whiteKingIndex].
  rewrite length_replicate. reflexivity.
- unfold b0. rewrite placement_freshBoard by (unfold lenZ in Hge; lia).
  exact coherent_empty.
- intros s Hs. lia.
- intros s Hs. rewrite getItem_mail by lia. unfold b0.
  rewrite placement_freshBoard by (unfold lenZ in Hge; lia).
  cbn [mail]. apply getZ_range; [reflexivity |].
  intros x Hx. apply list_elem_of_In, elem_of_replicate in Hx. apply Hx. }
clearbody b0.
pose proof (fold_left_seqZ_inv
            (fun i x => placing input i x
                        /\ whiteKingIndex x = findIndex isWhiteKing input
                        /\ blackKingIndex x = findIndex isBlackKing input
                        /\ historyCounter x = 0)
            (placeInput E input) 64 0 b0 H0) as Hfold.
cbv beta in Hfold. change (Z.of_nat 64) with 64 in Hfold. change (0 + 64) with 64 in Hfold.
fold squares in Hfold.
assert (Hstep : forall i x, 0 <= i < 64 ->
        placing input i x
        /\ whiteKingIndex x = findIndex isWhiteKing input
        /\ blackKingIndex x = findIndex isBlackKing input
        /\ historyCounter x = 0 ->
        placing input (i + 1) (placeInput E input x i)
        /\ whiteKingIndex (placeInput E input x i) = findIndex isWhiteKing input
        /\ blackKingIndex (placeInput E input x i) = findIndex isBlackKing input
        /\ historyCounter (placeInput E input x i) = 0).
{ intros i x Hi (Hp & Hw & Hb & Hc).
split; [apply placeInput_placing; trivial; lia |].
unfold placeInput. cbv zeta.
destruct (negb (getZ input i =? EMPTY)); repeat split; assumption. }
specialize (Hfold Hstep). clear Hstep H0.
revert Hfold. generalize (fold_left (placeInput E input) squares b0).
intros b1 ((Hl & Hcoh & Hdone & _) & Hw & Hb & Hc) Heq.
injection Heq as <-.
assert (Hl1 : 67 <= lenZ (items b1)) by lia.
assert (Hup : forall x, items (updateEndGameStatus x) = items x
                      /\ bitBoardPieces (updateEndGameStatus x) = bitBoardPieces x
                      /\ bitBoardAllPieces (updateEndGameStatus x) = bitBoardAllPieces x
                      /\ whiteKingIndex (updateEndGameStatus x) = whiteKingIndex x
                      /\ blackKingIndex (updateEndGameStatus x) = blackKingIndex x
                      /\ historyCounter (updateEndGameStatus x) = historyCounter x).
{ intros x. unfold updateEndGameStatus. cbv zeta.
destruct (_ <=? 3); repeat split. }
match goal with
| |- context [updateEndGameStatus ?x] =>
  destruct (Hup x) as (U1 & U2 & U3 & U4 & U5 & U6);
  revert U1 U2 U3 U4 U5 U6; generalize (updateEndGameStatus x)
end.
intros b2 U1 U2 U3 U4 U5 U6.
cbn [items bitBoardPieces bitBoardAllPieces whiteKingIndex blackKingIndex historyCounter
   set_halfMoveCount set_halfMoveClock set_items] in U1, U2, U3, U4, U5, U6.
assert (HP : placement b2 = placement b1).
{ unfold placement. rewrite U1, U2, U3.
rewrite take_setZ_ge by (unfold STATE_INDEX; lia). reflexivity. }
split; [rewrite U1, lenZ_setZ; exact Hl |].
split; [exact Hge |].
split; [rewrite HP; exact Hcoh |].
split.
{ intros s Hs. rewrite getItem_mail by lia. rewrite HP.
rewrite <- getItem_mail by lia. apply Hdone. exact Hs. }
split; [congruence |]. split; congruence.
Qed.

Lemma inr_inj {A B : Type} (x y : B) : @inr A B x = inr y -> x = y.
Proof. intros H. injection H as ->. reflexivity. Qed.

(** The constructor ends with [updateEndGameStatus]. *)
Lemma Board_constructor_last input b :
Board_constructor E input = inr b -> exists x, b = updateEndGameStatus x.
Proof.
unfold Board_constructor. cbv zeta.
destruct (_ <? _); [discriminate |].
destruct (_ =? -1); [discriminate |].
destruct (_ =? -1); [discriminate |].
intros H. eexists. symmetry. exact (inr_inj _ _ H).
Qed.

End ConstructionFacts.

(* ------------------------------------------------------------------ *)
(** ** Boards reached through the public operations *)

(** An operation that can be taken back: a move or a null move. *)
Inductive Taken : Type :=
| TakenMove (p : Played)
| TakenNull.

(** The placements a stack of taken operations went through: below a
    taken move lies the placement it was legal on. *)
Fixpoint stackOk (P : Placement) (st : list Taken) : Prop :=
  match st with
  | [] => coherent P
  | TakenNull :: st' => stackOk P st'
  | TakenMove p :: st' =>
      exists P0 pieceId,
        stackOk P0 st'
        /\ LegalOn (getZ (mail P0)) pieceId (pl_start p) (pl_end p)
        /\ pl_piece p = getZ (mail P0) (pl_start p)
        /\ pl_removed p = performResult (pl_start p) (pl_end p) P0
        /\ P = performPlacement pieceId (pl_start p) (pl_end p) P0
  end.

Lemma stackOk_coherent st : forall P, stackOk P st -> coherent P.
Proof.
  induction st as [| [p |] st IH]; intros P H.
  - exact H.
  - destruct H as (P0 & pieceId & H0 & HL & _ & _ & ->).
    apply (placement_roundtrip P0 pieceId (pl_start p) (pl_end p) (IH P0 H0) HL).
  - apply IH. exact H.
Qed.

(** The 12 piece bitboards, by index, and those of them with bit [s] set. *)
Definition pieceBoards : list Z := [0; 1; 2; 3; 4; 5; 7; 8; 9; 10; 11; 12].

Definition pieceBoardsWith (b : Board) (s : Z) : list Z :=
  List.filter (fun k => Z.testbit (getZ (bitBoardPieces b) k) s) pieceBoards.

(** For every square: the mailbox entry is not empty iff exactly one of the
    12 piece bitboards has the bit of the square, and then this bitboard is
    the one of the piece and the occupancy bitboard of its colour has the
    bit too. *)
Definition decomposed (b : Board) : Prop :=
  forall s, 0 <= s < 64 ->
    (getItem b s <> 0 <-> length (pieceBoardsWith b s) = 1%nat)
    /\ (getItem b s <> 0 ->
          pieceBoardsWith b s = [getItem b s + 6]
          /\ Z.testbit (getBitBoard b (getItem b s)) s = true
          /\ Z.testbit (getAllPieceBitBoard b (sign (getItem b s))) s = true)
    /\ (getItem b s = 0 -> pieceBoardsWith b s = []).

Lemma filter_piece m :
  -6 <= m <= 6 ->
  List.filter (fun k => m =? k - 6) pieceBoards = if m =? 0 then [] else [m + 6].
Proof.
  intros H.
  assert (Hcases : m = -6 \/ m = -5 \/ m = -4 \/ m = -3 \/ m = -2 \/ m = -1 \/ m = 0
                   \/ m = 1 \/ m = 2 \/ m = 3 \/ m = 4 \/ m = 5 \/ m = 6) by lia.
  repeat (destruct Hcases as [-> | Hcases]); try subst m; vm_compute; reflexivity.
Qed.

Lemma coherent_decomposed b : coherent (placement b) -> decomposed b.
Proof.
  intros Hc s Hs.
  pose proof (coh_piece_range _ Hc s Hs) as Hr.
  rewrite <- getItem_mail in Hr by lia.
  assert (Hf : pieceBoardsWith b s
               = List.filter (fun k => getItem b s =? k - 6) pieceBoards).
  { unfold pieceBoardsWith. apply List.filter_ext_in. intros k Hk.
    change (getZ (bitBoardPieces b) k) with (getZ (pcs (placement b)) k).
    assert (Hk' : 0 <= k < 13 /\ k <> 6).
    { unfold pieceBoards in Hk. cbn in Hk. lia. }
    rewrite (coh_pcs_bits _ Hc) by lia. rewrite <- getItem_mail by lia.
    destruct (Z.eqb_spec k 6); [lia | reflexivity]. }
  assert (Ho : getItem b s <> 0 ->
               Z.testbit (getBitBoard b (getItem b s)) s = true
               /\ Z.testbit (getAllPieceBitBoard b (sign (getItem b s))) s = true).
  { intros Hnz. pose proof (sign_range (getItem b s)) as Hsr.
    assert (Hs0 : sign (getItem b s) <> 0)
      by (unfold sign; destruct (getItem b s); cbn; lia).
    unfold getBitBoard, getAllPieceBitBoard.
    change (bitBoardPieces b) with (pcs (placement b)).
    change (bitBoardAllPieces b) with (occ (placement b)).
    rewrite (coh_pcs_bits _ Hc), (coh_occ_bits _ Hc) by lia.
    rewrite <- !getItem_mail by lia.
    split; split_eqb. }
  rewrite Hf. clear Hf. rewrite filter_piece by exact Hr.
  destruct (Z.eqb_spec (getItem b s) 0) as [Hz | Hnz].
  - split; [split; [contradiction | discriminate] |].
    split; [contradiction | reflexivity].
  - split; [split; [reflexivity | intros _; exact Hnz] |].
    split; [| contradiction].
    intros _. split; [reflexivity | exact (Ho Hnz)].
Qed.

Section Reachable.

Context (E : Externals).

(** The boards the public operations lead to, with the operations that
    can still be taken back (the last one first).  A move is taken back
    with the arguments a caller has for it: the piece that stood on the
    start square, the two squares, and the value [performMove] returned. *)
Inductive reachable : Board -> list Taken -> Prop :=
| reach_construct input b :
    piecesInRange input = true -> Board_constructor E input = inr b ->
    reachable b []
| reach_perform b st pieceId start end_ :
    reachable b st -> legalMove b pieceId start end_ = true ->
    historyCounter b < MAX_GAME_HALFMOVES ->
    reachable (fst (performMove E pieceId start end_ b))
              (TakenMove (mkPlayed (getItem b start) start end_
                                   (snd (performMove E pieceId start end_ b))) :: st)
| reach_undo b st p :
    reachable b (TakenMove p :: st) ->
    reachable (undoMove E (pl_piece p) (pl_start p) (pl_end p) (pl_removed p) b) st
| reach_null b st :
    reachable b st -> historyCounter b < MAX_GAME_HALFMOVES ->
    reachable (performNullMove E b) (TakenNull :: st)
| reach_undo_null b st :
    reachable b (TakenNull :: st) -> reachable (undoNullMove b) st.

Lemma reachable_stackOk b st :
  reachable b st -> 67 <= lenZ (items b) /\ stackOk (placement b) st.
Proof.
  induction 1 as [input b Hr Hc | b st pieceId start end_ Hb IH Hl Hh
                  | b st p Hb IH | b st Hb IH Hh | b st Hb IH].
  - destruct (Board_constructor_spec E input b Hr Hc) as (H1 & H2 & H3 & _).
    split; [lia | exact H3].
  - destruct IH as (Hlen & Hst).
    destruct (performMove E pieceId start end_ b) as [b' r] eqn:Ep. cbn [fst snd].
    destruct (performMove_effect E _ _ _ _ _ _ Hlen Hl Ep) as (P1 & P2 & _ & _ & P5 & _).
    split; [lia |].
    cbn [stackOk pl_start pl_end pl_piece pl_removed].
    exists (placement b), pieceId.
    pose proof (legalOn_placement b pieceId start end_ Hl) as HL.
    split; [exact Hst |]. split; [exact HL |].
    split; [apply getItem_mail; pose proof (lf_start _ _ _ _ HL); lia |].
    split; [exact P5 | exact P2].
  - destruct IH as (Hlen & Hst). cbn [stackOk] in Hst.
    destruct Hst as (P0 & pieceId & H0 & HL & Hp & Hr & HP).
    pose proof (stackOk_coherent _ _ H0) as Hc0.
    pose proof (undoInRange_perform P0 pieceId _ _ Hc0 HL) as Hur.
    rewrite <- Hp, <- Hr in Hur.
    destruct (undoMove_spec E _ _ _ _ b Hlen Hur) as (U1 & U2 & _).
    split; [lia |]. rewrite U2, HP, Hp, Hr.
    destruct (placement_roundtrip P0 pieceId _ _ Hc0 HL) as (_ & C2 & _).
    rewrite C2. exact H0.
  - destruct IH as (Hlen & Hst).
    destruct (performNullMove_spec E b Hlen) as (P1 & P2 & _).
    split; [lia |]. cbn [stackOk]. rewrite P2. exact Hst.
  - destruct IH as (Hlen & Hst). cbn [stackOk] in Hst.
    unfold undoNullMove.
    destruct (restoreState_spec b Hlen) as (U1 & U2 & _).
    split; [lia |]. rewrite U2. exact Hst.
Qed.

End Reachable.

(* ------------------------------------------------------------------ *)
(** ** Attackers and static exchange evaluation *)

Section Attackers.

Context (E : Externals).

Definition getOccupancyBitboard (b : Board) : Z :=
Z.lor (getAllPieceBitBoard b WHITE) (getAllPieceBitBoard b BLACK).

(** The checks [findSmallestAttacker] makes after the pawns; they are
  written out twice in the source, for the pieces of either colour
  ([color] is the sign of the attacking pieces, [kingPos] the cached
  square of their king). *)
Definition findPieceAttacker (b : Board) (occupiedBB color kingPos pos : Z) : Z :=
let targetBB := bitAt pos in
(* Check knights *)
let knights := Z.land (getBitBoard b (KNIGHT * color)) occupiedBB in
let attackingKnights := Z.land knights (KNIGHT_PATTERNS E pos) in
if negb (attackingKnights =? 0) then ctz attackingKnights
else
  (* Check bishops *)
  let allDiagonalAttacks :=
    Z.lor (diagonalAttacks E occupiedBB pos) (antiDiagonalAttacks E occupiedBB pos) in
  let bishops := Z.land (getBitBoard b (BISHOP * color)) occupiedBB in
  let attackingBishops := Z.land bishops allDiagonalAttacks in
  if negb (attackingBishops =? 0) then ctz attackingBishops
  else
    (* Check rooks *)
    let orthogonalAttacks :=
      Z.lor (horizontalAttacks E occupiedBB pos) (verticalAttacks E occupiedBB pos) in
    let rooks := Z.land (getBitBoard b (ROOK * color)) occupiedBB in
    let attackingRooks := Z.land rooks orthogonalAttacks in
    if negb (attackingRooks =? 0) then ctz attackingRooks
    else
      (* Check queens *)
      let queens := Z.land (getBitBoard b (QUEEN * color)) occupiedBB in
      let attackingQueens :=
        Z.land queens (Z.lor orthogonalAttacks allDiagonalAttacks) in
      if negb (attackingQueens =? 0) then ctz attackingQueens
      else
        (* Check king *)
        let attackingKing := Z.land (KING_PATTERNS E kingPos) targetBB in
        if negb (attackingKing =? 0) then
          let kingBB := bitAt kingPos in
          if negb (Z.land kingBB occupiedBB =? 0) then kingPos else -1
        else -1.

(** Returns the position of the smallest attacker or -1 if there is no
  attacker. *)
Definition findSmallestAttacker (b : Board) (occupiedBB opponentColor pos : Z) : Z :=
let targetBB := bitAt pos in
if opponentColor =? WHITE then
  (* Check pawns *)
  let whitePawns := Z.land (getBitBoard b PAWN) occupiedBB in
  if negb (Z.land (whiteLeftPawnAttacks E whitePawns) targetBB =? 0) then pos + 9
  else if negb (Z.land (whiteRightPawnAttacks E whitePawns) targetBB =? 0) then pos + 7
  else findPieceAttacker b occupiedBB WHITE (whiteKingIndex b) pos
else
  let blackPawns := Z.land (getBitBoard b (- PAWN)) occupiedBB in
  if negb (Z.land (blackLeftPawnAttacks E blackPawns) targetBB =? 0) then pos - 7
  else if negb (Z.land (blackRightPawnAttacks E blackPawns) targetBB =? 0) then pos - 9
  else findPieceAttacker b occupiedBB BLACK (blackKingIndex b) pos.

Definition isAttacked (b : Board) (opponentColor pos : Z) : bool :=
findSmallestAttacker b (getOccupancyBitboard b) opponentColor pos >=? 0.

Definition isInCheck (b : Board) (activeColor : Z) : bool :=
isAttacked b (- activeColor) (findKingPosition b activeColor).

Definition isKnightAttacked (b : Board) (opponentColor pos : Z) : bool :=
negb (Z.land (getZ (bitBoardPieces b) (KNIGHT * opponentColor + 6))
             (KNIGHT_PATTERNS E pos) =? 0).

(** *** Static exchange evaluation *)

(** The outcome of one pass through the loop of [seeScore]. *)
Inductive SeeStep : Type :=
| SeeReturn (score : Z)
| SeeContinue (score trophyPieceScore occupied : Z).

(** The body of the [do ... while (true)] loop of [seeScore]. *)
Definition seeIteration (b : Board) (opponentColor target : Z)
         (score trophyPieceScore occupied : Z) : SeeStep :=
(* Opponent attack *)
let attackerPos := findSmallestAttacker b occupied opponentColor target in
if attackerPos <? 0 then SeeReturn score
else
  let score := sub32 score trophyPieceScore in
  let trophyPieceScore := PIECE_VALUES E (abs32 (getItem b attackerPos)) in
  if add32 score trophyPieceScore <? 0 then SeeReturn score
  else
    let occupied := Z.land occupied (not64 (bitAt attackerPos)) in
    (* Own attack *)
    let ownAttackerPos := findSmallestAttacker b occupied (- opponentColor) target in
    if ownAttackerPos <? 0 then SeeReturn score
    else
      let score := add32 score trophyPieceScore in
      let trophyPieceScore := PIECE_VALUES E (abs32 (getItem b ownAttackerPos)) in
      if sub32 score trophyPieceScore >? 0 then SeeReturn score
      else
        let occupied := Z.land occupied (not64 (bitAt ownAttackerPos)) in
        SeeContinue score trophyPieceScore occupied.

(** The loop, for at most [fuel] passes. *)
Fixpoint seeLoop (fuel : nat) (b : Board) (opponentColor target : Z)
       (score trophyPieceScore occupied : Z) : option Z :=
match fuel with
| O => None
| S fuel' =>
    match seeIteration b opponentColor target score trophyPieceScore occupied with
    | SeeReturn s => Some s
    | SeeContinue s t o => seeLoop fuel' b opponentColor target s t o
    end
end.

(** [seeScore], with room for 64 passes through the loop. *)
Definition seeScore (b : Board) (opponentColor from target ownPieceId capturedPieceId : Z)
: option Z :=
let score := PIECE_VALUES E capturedPieceId in
let occupied := Z.land (getOccupancyBitboard b) (not64 (bitAt from)) in
let trophyPieceScore := PIECE_VALUES E ownPieceId in
seeLoop 64 b opponentColor target score trophyPieceScore occupied.

(** What the development assumes of the pawn attack functions of module
  [./bitboard]: a square is attacked only from the square the attacker
  search then names. *)
Definition pawnAttacksSound : Prop :=
forall x pos,
  (Z.testbit (whiteLeftPawnAttacks E x) pos = true -> Z.testbit x (pos + 9) = true)
  /\ (Z.testbit (whiteRightPawnAttacks E x) pos = true -> Z.testbit x (pos + 7) = true)
  /\ (Z.testbit (blackLeftPawnAttacks E x) pos = true -> Z.testbit x (pos - 7) = true)
  /\ (Z.testbit (blackRightPawnAttacks E x) pos = true -> Z.testbit x (pos - 9) = true).

End Attackers.

Lemma land_range_r x y : in_u64 y -> in_u64 (Z.land x y).
Proof. intros H. rewrite Z.land_comm. apply land_range. exact H. Qed.

Lemma not64_range x : in_u64 (not64 x).
Proof. apply u64_range. Qed.

(** A bitboard that meets the bit of a square has the bit. *)
Lemma land_bitAt_testbit x pos :
  0 <= pos < 64 -> Z.land x (bitAt pos) <> 0 -> Z.testbit x pos = true.
Proof.
  intros Hp Hne.
  destruct (Z.testbit x pos) eqn:Eb; [reflexivity |].
  exfalso. apply Hne. apply Z.bits_inj'. intros i Hi.
  rewrite Z.land_spec, testbit_bitAt, Z.bits_0 by trivial.
  destruct (Z.eqb_spec i pos) as [-> | _]; [rewrite Eb; reflexivity | apply andb_false_r].
Qed.

Lemma testbit_land_bitAt x pos :
  0 <= pos < 64 -> Z.testbit x pos = true -> Z.land x (bitAt pos) <> 0.
Proof.
  intros Hp Hb Hz.
  assert (Hc : Z.testbit (Z.land x (bitAt pos)) pos = true).
  { rewrite Z.land_spec, testbit_bitAt, Hb, Z.eqb_refl by trivial. reflexivity. }
  rewrite Hz, Z.bits_0 in Hc. discriminate.
Qed.

Lemma bitAt_land63 pos : bitAt (Z.land pos 63) = bitAt pos.
Proof.
  unfold bitAt. f_equal. rewrite <- Z.land_assoc. reflexivity.
Qed.

Lemma land63_range pos : 0 <= Z.land pos 63 < 64.
Proof.
  change 63 with (Z.ones 6). rewrite Z.land_ones by lia.
  change (2 ^ 6) with 64. apply Z.mod_pos_bound. lia.
Qed.

(** Clearing the bit of [pos] from a bitboard that has it. *)
Lemma popcnt_clear_bitAt x pos :
  Z.testbit x (Z.land pos 63) = true ->
  popcnt (Z.land x (not64 (bitAt pos))) < popcnt x.
Proof.
  intros Hb. pose proof (land63_range pos) as Hr.
  apply popcnt_clear_lt with (s := Z.land pos 63); trivial.
  - intros i Hi. rewrite Z.land_spec. intros H. apply andb_true_iff in H. apply H.
  - rewrite Z.land_spec, testbit_not64 by lia. rewrite <- bitAt_land63.
    rewrite testbit_bitAt, Z.eqb_refl by trivial.
    rewrite Hb. destruct (_ <? 64); reflexivity.
Qed.

Section AttackerFacts.

Context (E : Externals).

(** A piece attacker lies on a square of the occupancy it was searched in. *)
Lemma findPieceAttacker_occupied b occupiedBB color kingPos pos :
in_u64 occupiedBB ->
let p := findPieceAttacker E b occupiedBB color kingPos pos in
p = -1 \/ Z.testbit occupiedBB (Z.land p 63) = true.
Proof.
intros Hocc p. subst p. unfold findPieceAttacker. cbv zeta.
assert (Hctz : forall bb pat,
          Z.land (Z.land bb occupiedBB) pat <> 0 ->
          Z.testbit occupiedBB (Z.land (ctz (Z.land (Z.land bb occupiedBB) pat)) 63)
          = true).
{ intros bb pat Hne.
  assert (Hr : in_u64 (Z.land (Z.land bb occupiedBB) pat))
    by (apply land_range, land_range_r; exact Hocc).
  destruct (ctz_nonzero _ Hr Hne) as (Hc & Hb).
  rewrite land63_small by exact Hc.
  rewrite !Z.land_spec in Hb. apply andb_true_iff in Hb. destruct Hb as [Hb _].
  apply andb_true_iff in Hb. apply Hb. }
repeat match goal with
       | |- context [negb (?x =? 0)] =>
           destruct (Z.eqb_spec x 0); cbn [negb];
           [| first [right; apply Hctz; assumption | idtac]]
       end; try (left; reflexivity).
right. rewrite <- bitAt_land63 in *.
apply land_bitAt_testbit; [apply land63_range |].
rewrite Z.land_comm. assumption.
Qed.

(** An attacker lies on a square of the occupancy it was searched in. *)
Lemma findSmallestAttacker_occupied b occupiedBB opponentColor pos :
pawnAttacksSound E -> in_u64 occupiedBB -> 0 <= pos < 64 ->
let p := findSmallestAttacker E b occupiedBB opponentColor pos in
p = -1 \/ Z.testbit occupiedBB (Z.land p 63) = true.
Proof.
intros Hsound Hocc Hpos p. subst p. unfold findSmallestAttacker. cbv zeta.
assert (Hpawn : forall bb q,
          Z.testbit (Z.land bb occupiedBB) q = true ->
          Z.testbit occupiedBB (Z.land q 63) = true).
{ intros bb q Hb.
  assert (Hr : in_u64 (Z.land bb occupiedBB)) by (apply land_range_r; exact Hocc).
  assert (Hd : 0 <= q < 64).
  { destruct (Z.lt_ge_cases q 0) as [Hn | Hn];
      [rewrite Z.testbit_neg_r in Hb by exact Hn; discriminate |].
    destruct (Z.lt_ge_cases q 64) as [Hh | Hh]; [lia |].
    rewrite testbit_high in Hb by trivial. discriminate. }
  rewrite land63_small by exact Hd.
  rewrite Z.land_spec in Hb. apply andb_true_iff in Hb. apply Hb. }
destruct (opponentColor =? WHITE).
- destruct (Hsound (Z.land (getBitBoard b PAWN) occupiedBB) pos) as (S1 & S2 & _ & _).
  destruct (Z.eqb_spec (Z.land (whiteLeftPawnAttacks E
              (Z.land (getBitBoard b PAWN) occupiedBB)) (bitAt pos)) 0) as [_ | Hne];
    cbn [negb].
  2: { right. apply (Hpawn (getBitBoard b PAWN)). apply S1. apply land_bitAt_testbit; trivial. }
  destruct (Z.eqb_spec (Z.land (whiteRightPawnAttacks E
              (Z.land (getBitBoard b PAWN) occupiedBB)) (bitAt pos)) 0) as [_ | Hne];
    cbn [negb].
  2: { right. apply (Hpawn (getBitBoard b PAWN)). apply S2. apply land_bitAt_testbit; trivial. }
  apply findPieceAttacker_occupied. exact Hocc.
- destruct (Hsound (Z.land (getBitBoard b (- PAWN)) occupiedBB) pos)
    as (_ & _ & S3 & S4).
  destruct (Z.eqb_spec (Z.land (blackLeftPawnAttacks E
              (Z.land (getBitBoard b (- PAWN)) occupiedBB)) (bitAt pos)) 0) as [_ | Hne];
    cbn [negb].
  2: { right. apply (Hpawn (getBitBoard b (- PAWN))). apply S3. apply land_bitAt_testbit; trivial. }
  destruct (Z.eqb_spec (Z.land (blackRightPawnAttacks E
              (Z.land (getBitBoard b (- PAWN)) occupiedBB)) (bitAt pos)) 0) as [_ | Hne];
    cbn [negb].
  2: { right. apply (Hpawn (getBitBoard b (- PAWN))). apply S4. apply land_bitAt_testbit; trivial. }
  apply findPieceAttacker_occupied. exact Hocc.
Qed.

(** A pass through the loop that does not return takes at least one
  square out of [occupied]. *)
Lemma seeIteration_decreases b opponentColor target score trophy occupied s t o :
pawnAttacksSound E -> in_u64 occupied -> 0 <= target < 64 ->
seeIteration E b opponentColor target score trophy occupied = SeeContinue s t o ->
in_u64 o /\ popcnt o < popcnt occupied
/\ (forall i, Z.testbit o i = true -> Z.testbit occupied i = true).
Proof.
intros Hsound Hocc Htgt. unfold seeIteration. cbv zeta.
pose proof (findSmallestAttacker_occupied b occupied opponentColor target
              Hsound Hocc Htgt) as H1.
cbv zeta in H1. revert H1.
generalize (findSmallestAttacker E b occupied opponentColor target). intros p1 H1.
destruct (Z.ltb_spec p1 0) as [Hn1 | Hp1]; [discriminate |].
destruct (_ <? 0); [discriminate |].
assert (Hocc1 : in_u64 (Z.land occupied (not64 (bitAt p1))))
  by (apply land_range; exact Hocc).
assert (Hlt1 : popcnt (Z.land occupied (not64 (bitAt p1))) < popcnt occupied).
{ apply popcnt_clear_bitAt. destruct H1 as [-> | H1]; [lia | exact H1]. }
pose proof (findSmallestAttacker_occupied b (Z.land occupied (not64 (bitAt p1)))
              (- opponentColor) target Hsound Hocc1 Htgt) as H2.
cbv zeta in H2. revert H2.
generalize (findSmallestAttacker E b (Z.land occupied (not64 (bitAt p1)))
              (- opponentColor) target). intros p2 H2.
destruct (Z.ltb_spec p2 0) as [Hn2 | Hp2]; [discriminate |].
destruct (_ >? 0); [discriminate |].
intros Heq. injection Heq as <- <- <-.
split; [apply land_range; exact Hocc1 |].
assert (Hlt2 : popcnt (Z.land (Z.land occupied (not64 (bitAt p1))) (not64 (bitAt p2)))
               < popcnt (Z.land occupied (not64 (bitAt p1)))).
{ apply popcnt_clear_bitAt. destruct H2 as [-> | H2]; [lia | exact H2]. }
split; [lia |].
intros i Hi. rewrite !Z.land_spec in Hi.
apply andb_true_iff in Hi. destruct Hi as [Hi _].
apply andb_true_iff in Hi. apply Hi.
Qed.

(** The loop returns within as many passes as [occupied] has squares,
  plus one. *)
Lemma seeLoop_returns fuel : forall b opponentColor target score trophy occupied,
pawnAttacksSound E -> in_u64 occupied -> 0 <= target < 64 ->
popcnt occupied < Z.of_nat fuel ->
exists v, seeLoop E fuel b opponentColor target score trophy occupied = Some v.
Proof.
induction fuel as [| fuel IH]; intros b opp target score trophy occupied Hs Ho Ht Hp.
- pose proof (popcnt_range occupied). lia.
- cbn [seeLoop].
  destruct (seeIteration E b opp target score trophy occupied) as [v | s t o] eqn:Ei.
  + exists v. reflexivity.
  + destruct (seeIteration_decreases _ _ _ _ _ _ _ _ _ Hs Ho Ht Ei) as (Ho' & Hlt & _).
    apply IH; trivial. lia.
Qed.

End AttackerFacts.

Section PawnDefence.

Context (E : Externals).

(** The pawn test of [findSmallestAttacker]: a pawn of [opponentColor]
  that stands in [occupiedBB] attacks [pos]. *)
Definition pawnAttacked (b : Board) (occupiedBB opponentColor pos : Z) : bool :=
let targetBB := bitAt pos in
if opponentColor =? WHITE then
  let whitePawns := Z.land (getBitBoard b PAWN) occupiedBB in
  negb (Z.land (whiteLeftPawnAttacks E whitePawns) targetBB =? 0)
  || negb (Z.land (whiteRightPawnAttacks E whitePawns) targetBB =? 0)
else
  let blackPawns := Z.land (getBitBoard b (- PAWN)) occupiedBB in
  negb (Z.land (blackLeftPawnAttacks E blackPawns) targetBB =? 0)
  || negb (Z.land (blackRightPawnAttacks E blackPawns) targetBB =? 0).

(** When the pawn test succeeds the attacker found is a pawn. *)
Lemma pawnAttacked_attacker b occupiedBB opponentColor pos :
pawnAttacksSound E -> coherent (placement b) -> 0 <= pos < 64 ->
pawnAttacked b occupiedBB opponentColor pos = true ->
let p := findSmallestAttacker E b occupiedBB opponentColor pos in
0 <= p < 64 /\ Z.abs (getItem b p) = PAWN.
Proof.
intros Hsound Hcoh Hpos Hatt p. subst p.
assert (Hbit : forall piece q,
          piece = PAWN \/ piece = - PAWN ->
          Z.testbit (Z.land (getBitBoard b piece) occupiedBB) q = true ->
          0 <= q < 64 /\ Z.abs (getItem b q) = PAWN).
{ intros piece q Hpc Hb.
  rewrite Z.land_spec in Hb. apply andb_true_iff in Hb. destruct Hb as [Hb _].
  unfold getBitBoard in Hb. change (bitBoardPieces b) with (pcs (placement b)) in Hb.
  assert (Hq : 0 <= q < 64).
  { destruct (Z.lt_ge_cases q 0) as [Hn | Hn];
      [rewrite Z.testbit_neg_r in Hb by exact Hn; discriminate |].
    destruct (Z.lt_ge_cases q 64) as [Hh | Hh]; [lia |].
    rewrite testbit_high in Hb by (trivial; apply (coh_pcs_range _ Hcoh)).
    discriminate. }
  split; [exact Hq |].
  unfold PAWN in *.
  rewrite (coh_pcs_bits _ Hcoh) in Hb by lia.
  apply andb_true_iff in Hb. destruct Hb as [_ Hb]. apply Z.eqb_eq in Hb.
  rewrite getItem_mail by lia. lia. }
unfold pawnAttacked in Hatt. unfold findSmallestAttacker. cbv zeta in *.
destruct (opponentColor =? WHITE).
- destruct (Hsound (Z.land (getBitBoard b PAWN) occupiedBB) pos) as (S1 & S2 & _ & _).
  destruct (Z.eqb_spec (Z.land (whiteLeftPawnAttacks E
              (Z.land (getBitBoard b PAWN) occupiedBB)) (bitAt pos)) 0) as [_ | Hne];
    cbn [negb orb] in *.
  2: { apply (Hbit PAWN); [left; reflexivity |].
       apply S1. apply land_bitAt_testbit; trivial. }
  destruct (Z.eqb_spec (Z.land (whiteRightPawnAttacks E
              (Z.land (getBitBoard b PAWN) occupiedBB)) (bitAt pos)) 0) as [_ | Hne];
    cbn [negb] in *; [discriminate |].
  apply (Hbit PAWN); [left; reflexivity |].
  apply S2. apply land_bitAt_testbit; trivial.
- destruct (Hsound (Z.land (getBitBoard b (- PAWN)) occupiedBB) pos)
    as (_ & _ & S3 & S4).
  destruct (Z.eqb_spec (Z.land (blackLeftPawnAttacks E
              (Z.land (getBitBoard b (- PAWN)) occupiedBB)) (bitAt pos)) 0) as [_ | Hne];
    cbn [negb orb] in *.
  2: { apply (Hbit (- PAWN)); [right; reflexivity |].
       apply S3. apply land_bitAt_testbit; trivial. }
  destruct (Z.eqb_spec (Z.land (blackRightPawnAttacks E
              (Z.land (getBitBoard b (- PAWN)) occupiedBB)) (bitAt pos)) 0) as [_ | Hne];
    cbn [negb] in *; [discriminate |].
  apply (Hbit (- PAWN)); [right; reflexivity |].
  apply S4. apply land_bitAt_testbit; trivial.
Qed.

End PawnDefence.

(* ------------------------------------------------------------------ *)
(** ** Draws *)

Section Draws.

Context (E : Externals).

Definition isFiftyMoveDraw (b : Board) : bool := getHalfMoveClock b >=? 100.

Definition isInsufficientMaterialDraw (b : Board) : bool :=
let count :=
  popcnt (Z.lor (getAllPieceBitBoard b WHITE) (getAllPieceBitBoard b BLACK)) in
if count =? 2 then
  (* K vs K *)
  true
else if count =? 3 then
  (* K vs K+N or K vs K+B *)
  let knightsOrBishops :=
    Z.lor (Z.lor (Z.lor (getBitBoard b KNIGHT) (getBitBoard b (- KNIGHT)))
                 (getBitBoard b BISHOP))
          (getBitBoard b (- BISHOP)) in
  negb (knightsOrBishops =? 0)
else if count =? 4 then
  (* Check for K+B vs K+B where bishops are on fields with the same color *)
  let whiteBishops := getBitBoard b BISHOP in
  let blackBishops := getBitBoard b (- BISHOP) in
  (negb (Z.land whiteBishops (LIGHT_COLORED_FIELD_PATTERN E) =? 0)
   && negb (Z.land blackBishops (LIGHT_COLORED_FIELD_PATTERN E) =? 0))
  || (negb (Z.land whiteBishops (DARK_COLORED_FIELD_PATTERN E) =? 0)
      && negb (Z.land blackBishops (DARK_COLORED_FIELD_PATTERN E) =? 0))
else false.

(** Return true, if the engine considers the current position as a draw. *)
Definition isEngineDraw (b : Board) : bool :=
isSingleRepetition E (positionHistory b) || isFiftyMoveDraw b
|| isInsufficientMaterialDraw b.

Definition Board_isThreefoldRepetion (b : Board) : bool :=
isThreefoldRepetion E (positionHistory b).

End Draws.

(* ------------------------------------------------------------------ *)
(** ** Static evaluation *)

(** [while (x != 0) { pos = ctz(x); x ^= 1 << pos; ... }]: the body runs
    once for every set bit, lowest first; a 64-bit word gives at most 64
    passes. *)
Fixpoint bbLoop {A : Type} (fuel : nat) (body : Z -> A -> A) (x : Z) (acc : A) : A :=
  match fuel with
  | O => acc
  | S fuel' =>
      if x =? 0 then acc
      else
        let pos := ctz x in
        bbLoop fuel' body (Z.lxor x (bitAt pos)) (body pos acc)
  end.

Section Evaluation.

Context (E : Externals).

(** One of the eight loops of [mobilityScore]: [upd] adds to the score
  for White and subtracts for Black; the result is the score and the
  union of the moves of the pieces. *)
Definition mobilityLoop (moves : Z -> Z) (safeTargets bonus : Z)
         (upd : Z -> Z -> Z) (pieces score : Z) : Z * Z :=
bbLoop 64
  (fun pos '(score, attacks) =>
     let possibleMoves := moves pos in
     let moveCount := popcnt (Z.land possibleMoves safeTargets) in
     (upd score (mul32 moveCount bonus), Z.lor attacks possibleMoves))
  pieces (score, 0).

Definition mobilityScore (b : Board)
         (whitePawnAttacks blackPawnAttacks whitePieces blackPieces : Z) : Z :=
let emptyBoard := Z.land (not64 whitePieces) (not64 blackPieces) in
let emptyOrBlackPiece := Z.lor emptyBoard blackPieces in
let whiteSafeTargets := Z.land emptyOrBlackPiece (not64 blackPawnAttacks) in
let score := 0 in
(* Knights *)
let '(score, whiteKnightAttacks) :=
  mobilityLoop (KNIGHT_PATTERNS E) whiteSafeTargets KNIGHT_MOB_BONUS add32
               (getBitBoard b KNIGHT) score in
let emptyOrWhitePiece := Z.lor emptyBoard whitePieces in
let blackSafeTargets := Z.land emptyOrWhitePiece (not64 whitePawnAttacks) in
let '(score, blackKnightAttacks) :=
  mobilityLoop (KNIGHT_PATTERNS E) blackSafeTargets KNIGHT_MOB_BONUS sub32
               (getBitBoard b (- KNIGHT)) score in
let whiteSafeTargets := Z.land whiteSafeTargets (not64 blackKnightAttacks) in
let blackSafeTargets := Z.land blackSafeTargets (not64 whiteKnightAttacks) in
(* Bishops *)
let occupied := not64 emptyBoard in
let bishopMoves pos :=
  Z.lor (diagonalAttacks E occupied pos) (antiDiagonalAttacks E occupied pos) in
let '(score, whiteBishopAttacks) :=
  mobilityLoop bishopMoves whiteSafeTargets BISHOP_MOB_BONUS add32
               (getBitBoard b BISHOP) score in
let '(score, blackBishopAttacks) :=
  mobilityLoop bishopMoves blackSafeTargets BISHOP_MOB_BONUS sub32
               (getBitBoard b (- BISHOP)) score in
let whiteSafeTargets := Z.land whiteSafeTargets (not64 blackBishopAttacks) in
let blackSafeTargets := Z.land blackSafeTargets (not64 whiteBishopAttacks) in
(* Rooks *)
let rookMoves pos :=
  Z.lor (horizontalAttacks E occupied pos) (verticalAttacks E occupied pos) in
let '(score, whiteRookAttacks) :=
  mobilityLoop rookMoves whiteSafeTargets ROOK_MOB_BONUS add32
               (getBitBoard b ROOK) score in
let '(score, blackRookAttacks) :=
  mobilityLoop rookMoves blackSafeTargets ROOK_MOB_BONUS sub32
               (getBitBoard b (- ROOK)) score in
let whiteSafeTargets := Z.land whiteSafeTargets (not64 blackRookAttacks) in
let blackSafeTargets := Z.land blackSafeTargets (not64 whiteRookAttacks) in
(* Queens *)
let queenMoves pos :=
  Z.lor (Z.lor (Z.lor (horizontalAttacks E occupied pos) (verticalAttacks E occupied pos))
               (diagonalAttacks E occupied pos))
        (antiDiagonalAttacks E occupied pos) in
let '(score, _) :=
  mobilityLoop queenMoves whiteSafeTargets QUEEN_MOB_BONUS add32
               (getBitBoard b QUEEN) score in
let '(score, _) :=
  mobilityLoop queenMoves blackSafeTargets QUEEN_MOB_BONUS sub32
               (getBitBoard b (- QUEEN)) score in
score.

(** The body of the two passed-pawn loops of [getScore]: [freepath] is the
  free-path table of the colour, [distance pos] the distance to
  promotion, [upd] adds for White and subtracts for Black. *)
Definition passedPawnBonus (freepath : Z -> Z) (distance : Z -> Z) (upd : Z -> Z -> Z)
         (opponentPieces opponentPawns : Z) (pos interpolatedScore : Z) : Z :=
let distanceToPromotion := distance pos in
if (distanceToPromotion <=? 4) && (Z.land (freepath pos) opponentPieces =? 0) then
  let col := Z.land pos 7 in
  if (col =? 0) || (Z.land (freepath (pos - 1)) opponentPawns =? 0) then
    let reversedDistance := sub32 5 distanceToPromotion in
    let interpolatedScore :=
      upd interpolatedScore (mul32 PASSED_PAWN_BONUS reversedDistance) in
    if (col =? 7) || (Z.land (freepath (pos + 1)) opponentPawns =? 0) then
      upd interpolatedScore (add32 (shl32 1 reversedDistance) reversedDistance)
    else interpolatedScore
  else if (col =? 7) || (Z.land (freepath (pos + 1)) opponentPawns =? 0) then
    let reversedDistance := sub32 5 distanceToPromotion in
    upd interpolatedScore (mul32 PASSED_PAWN_BONUS reversedDistance)
  else interpolatedScore
else interpolatedScore.

(** The two king threat blocks of [getScore]. *)
Definition kingThreat (upd : Z -> Z -> Z) (kingIndex : Z)
         (opponentPieces opponentPawns opponentQueens : Z) (interpolatedScore : Z) : Z :=
let kingDangerZone := KING_DANGER_ZONE_PATTERNS E kingIndex in
let opponentPiecesInKingDangerZone :=
  popcnt (Z.land (Z.land opponentPieces (not64 opponentPawns)) kingDangerZone) in
if opponentPiecesInKingDangerZone >=? KING_DANGER_THRESHOLD then
  let queensInKingDangerZone := popcnt (Z.land opponentQueens kingDangerZone) in
  let dangerScore :=
    shl32 KING_DANGER_PIECE_PENALTY
          (sub32 (add32 opponentPiecesInKingDangerZone queensInKingDangerZone)
                 KING_DANGER_THRESHOLD) in
  upd interpolatedScore (Z.min dangerScore 500)
else interpolatedScore.

(** [getScore] up to the adjustment for positions that are likely drawn:
  the value of the variable [interpolatedScore] when the last [if] of
  the function is reached. *)
Definition interpolatedScore (b : Board) : Z :=
let score := score b in
let egScore := egScore b in
let whitePawns := getBitBoard b PAWN in
let blackPawns := getBitBoard b (- PAWN) in
(* Add bonus for pawns which form a shield in front of the king *)
let whiteFrontKingShield :=
  popcnt (Z.land whitePawns (WHITE_KING_SHIELD_PATTERNS E (whiteKingIndex b))) in
let blackFrontKingShield :=
  popcnt (Z.land blackPawns (BLACK_KING_SHIELD_PATTERNS E (blackKingIndex b))) in
let score := add32 score (mul32 whiteFrontKingShield KING_SHIELD_BONUS) in
let score := sub32 score (mul32 blackFrontKingShield KING_SHIELD_BONUS) in
(* Castling *)
let score :=
  if hasWhiteCastled b then add32 score CASTLING_BONUS
  else
    let score :=
      if negb (canWhiteCastleQueenSide b)
      then sub32 score LOST_QUEENSIDE_CASTLING_PENALTY else score in
    if negb (canWhiteCastleKingSide b)
    then sub32 score LOST_KINGSIDE_CASTLING_PENALTY else score in
let score :=
  if hasBlackCastled b then sub32 score CASTLING_BONUS
  else
    let score :=
      if negb (canBlackCastleQueenSide b)
      then add32 score LOST_QUEENSIDE_CASTLING_PENALTY else score in
    if negb (canBlackCastleKingSide b)
    then add32 score LOST_KINGSIDE_CASTLING_PENALTY else score in
let whiteQueens := getBitBoard b QUEEN in
let blackQueens := getBitBoard b (- QUEEN) in
(* Interpolate between opening/mid-game score and the end game score *)
let phase :=
  add32 (add32 (popcnt (Z.lor whitePawns blackPawns))
               (mul32 (if whiteQueens >? 0 then 1 else 0) 4))
        (mul32 (if blackQueens >? 0 then 1 else 0) 4) in
let egPhase := sub32 24 phase in
let interpolatedScore :=
  div32 (add32 (mul32 score phase) (mul32 egScore egPhase)) 24 in
(* Pawn cover bonus *)
let whitePawnAttacks :=
  Z.lor (whiteLeftPawnAttacks E whitePawns) (whiteRightPawnAttacks E whitePawns) in
let whiteKnights := getBitBoard b KNIGHT in
let whitePawnsAndKnights := Z.lor whitePawns whiteKnights in
let interpolatedScore :=
  add32 interpolatedScore
        (mul32 (popcnt (Z.land whitePawnsAndKnights whitePawnAttacks)) PAWN_COVER_BONUS) in
let blackPawnAttacks :=
  Z.lor (blackLeftPawnAttacks E blackPawns) (blackRightPawnAttacks E blackPawns) in
let blackKnights := getBitBoard b (- KNIGHT) in
let blackPawnsAndKnights := Z.lor blackPawns blackKnights in
let interpolatedScore :=
  sub32 interpolatedScore
        (mul32 (popcnt (Z.land blackPawnsAndKnights blackPawnAttacks)) PAWN_COVER_BONUS) in
(* Doubled pawn penalty *)
let interpolatedScore := sub32 interpolatedScore (calcDoubledPawnPenalty whitePawns) in
let interpolatedScore := add32 interpolatedScore (calcDoubledPawnPenalty blackPawns) in
let whitePieces := getAllPieceBitBoard b WHITE in
let blackPieces := getAllPieceBitBoard b BLACK in
let interpolatedScore :=
  add32 interpolatedScore
        (mobilityScore b whitePawnAttacks blackPawnAttacks whitePieces blackPieces) in
(* Passed white pawns bonus *)
let interpolatedScore :=
  bbLoop 64
    (passedPawnBonus (WHITE_PAWN_FREEPATH_PATTERNS E) (fun pos => div32 pos 8) add32
                     blackPieces blackPawns)
    whitePawns interpolatedScore in
(* Passed black pawns bonus *)
let interpolatedScore :=
  bbLoop 64
    (passedPawnBonus (BLACK_PAWN_FREEPATH_PATTERNS E)
                     (fun pos => sub32 7 (div32 pos 8)) sub32
                     whitePieces whitePawns)
    blackPawns interpolatedScore in
(* King threat *)
let interpolatedScore :=
  kingThreat sub32 (whiteKingIndex b) blackPieces blackPawns blackQueens
             interpolatedScore in
kingThreat add32 (blackKingIndex b) whitePieces whitePawns whiteQueens
           interpolatedScore.

(** The condition of the last [if] of [getScore]: one side has no pawns
  and the score lies between the thresholds in its favour. *)
Definition pawnlessDrawLikely (b : Board) (interpolatedScore : Z) : bool :=
let whitePawns := getBitBoard b PAWN in
let blackPawns := getBitBoard b (- PAWN) in
((blackPawns =? 0)
 && (interpolatedScore <? - PAWNLESS_DRAW_SCORE_LOW_THRESHOLD)
 && (interpolatedScore >? - PAWNLESS_DRAW_SCORE_HIGH_THRESHOLD))
|| ((whitePawns =? 0)
    && (interpolatedScore >? PAWNLESS_DRAW_SCORE_LOW_THRESHOLD)
    && (interpolatedScore <? PAWNLESS_DRAW_SCORE_HIGH_THRESHOLD)).

Definition getScore (b : Board) : Z :=
let interpolatedScore := interpolatedScore b in
(* Adjust score for positions, which are very likely to end in a draw *)
if pawnlessDrawLikely b interpolatedScore then
  let divider := sub32 PAWNLESS_DRAW_CLOCK_THRESHOLD (getHalfMoveClock b) in
  if divider >? 0 then
    div32 (mul32 interpolatedScore divider) PAWNLESS_DRAW_CLOCK_THRESHOLD
  else div32 interpolatedScore PAWNLESS_DRAW_CLOCK_THRESHOLD
else interpolatedScore.

Definition getMaterialScore (b : Board) : Z :=
if isEndGame b then egScore b else score b.

Definition getFullMoveCount (b : Board) : Z :=
add32 (div32 (halfMoveCount b) 2) 1.

Definition isPawnMoveCloseToPromotion (b : Board) (piece moveEnd movesLeft : Z) : bool :=
if piece =? PAWN then
  let distanceToPromotion := div32 moveEnd 8 in
  (distanceToPromotion <=? movesLeft)
  && (Z.land (WHITE_PAWN_FREEPATH_PATTERNS E moveEnd) (getAllPieceBitBoard b BLACK) =? 0)
else if piece =? - PAWN then
  let distanceToPromotion := sub32 7 (div32 moveEnd 8) in
  (distanceToPromotion <=? movesLeft)
  && (Z.land (BLACK_PAWN_FREEPATH_PATTERNS E moveEnd) (getAllPieceBitBoard b WHITE) =? 0)
else false.

End Evaluation.

(** Return index 0 for BLACK (-1) and 1 for WHITE (+1). *)
Definition indexFromColor (color : Z) : Z := Z.shiftr (add32 color 1) 1.

(* ------------------------------------------------------------------ *)
(** ** A sample instance of the imported tables, and sample positions

    The theorems below hold for every instance of the imported tables.
    The instance here serves to run the board on concrete positions. *)

Module Sample.

(** The bitboard of the squares that satisfy [p]. *)
Definition bitsWhere (p : Z -> bool) : Z :=
fold_right (fun s acc => if p s then Z.lor (bitAt s) acc else acc) 0 squares.

Definition knightPattern (pos : Z) : Z :=
bitsWhere (fun t =>
  let df := Z.abs (file t - file pos) in
  let dr := Z.abs (rank t - rank pos) in
  ((df =? 1) && (dr =? 2)) || ((df =? 2) && (dr =? 1))).

Definition kingPattern (pos : Z) : Z :=
bitsWhere (fun t =>
  let df := Z.abs (file t - file pos) in
  let dr := Z.abs (rank t - rank pos) in
  (df <=? 1) && (dr <=? 1) && negb (t =? pos)).

Definition kingZone (pos : Z) : Z :=
bitsWhere (fun t =>
  (Z.abs (file t - file pos) <=? 1) && (Z.abs (rank t - rank pos) <=? 1)).

Definition whiteShield (pos : Z) : Z :=
bitsWhere (fun t => (Z.abs (file t - file pos) <=? 1) && (rank t =? rank pos - 1)).

Definition blackShield (pos : Z) : Z :=
bitsWhere (fun t => (Z.abs (file t - file pos) <=? 1) && (rank t =? rank pos + 1)).

Definition whiteFreepath (pos : Z) : Z :=
bitsWhere (fun t => (file t =? file pos) && (rank t <? rank pos)).

Definition blackFreepath (pos : Z) : Z :=
bitsWhere (fun t => (file t =? file pos) && (rank pos <? rank t)).

Definition lightSquares : Z :=
bitsWhere (fun t => Z.even (file t + rank t)).

Definition darkSquares : Z :=
bitsWhere (fun t => Z.odd (file t + rank t)).

(** The squares seen from file [f], rank [r] in direction [(df, dr)], up
  to and including the first occupied one. *)
Fixpoint ray (fuel : nat) (occupied f r df dr : Z) : Z :=
match fuel with
| O => 0
| S fuel' =>
    let f' := f + df in
    let r' := r + dr in
    if (0 <=? f') && (f' <? 8) && (0 <=? r') && (r' <? 8) then
      let s := r' * 8 + f' in
      if Z.testbit occupied s then bitAt s
      else Z.lor (bitAt s) (ray fuel' occupied f' r' df dr)
    else 0
end.

Definition line (df dr : Z) (occupied pos : Z) : Z :=
Z.lor (ray 7 occupied (file pos) (rank pos) df dr)
      (ray 7 occupied (file pos) (rank pos) (- df) (- dr)).

Definition notLeftFile : Z := 0xfefefefefefefefe.
Definition notRightFile : Z := 0x7f7f7f7f7f7f7f7f.

Definition whiteLeft (pawns : Z) : Z := Z.shiftr (Z.land pawns notLeftFile) 9.
Definition whiteRight (pawns : Z) : Z := Z.shiftr (Z.land pawns notRightFile) 7.
Definition blackLeft (pawns : Z) : Z := u64 (Z.shiftl (Z.land pawns notLeftFile) 7).
Definition blackRight (pawns : Z) : Z := u64 (Z.shiftl (Z.land pawns notRightFile) 9).

Definition values : list Z := [0; 100; 320; 330; 500; 900; 1500].

Definition occursIn (h : Z) (l : list Z) : nat :=
length (List.filter (Z.eqb h) l).

Definition sampleExternals : Externals := {|
PIECE_VALUES := getZ values;
EG_PIECE_VALUES := getZ values;
PIECE_RNG_NUMBERS := fun i => u64 (i * 2654435761 + 12345);
CASTLING_RNG_NUMBERS := fun i => u64 (i * 40503 + 7);
EN_PASSANT_RNG_NUMBERS := fun i => u64 (i * 69069 + 3);
PLAYER_RNG_NUMBER := 1442695040888963407;
KNIGHT_PATTERNS := knightPattern;
KING_PATTERNS := kingPattern;
WHITE_KING_SHIELD_PATTERNS := whiteShield;
BLACK_KING_SHIELD_PATTERNS := blackShield;
KING_DANGER_ZONE_PATTERNS := kingZone;
WHITE_PAWN_FREEPATH_PATTERNS := whiteFreepath;
BLACK_PAWN_FREEPATH_PATTERNS := blackFreepath;
LIGHT_COLORED_FIELD_PATTERN := lightSquares;
DARK_COLORED_FIELD_PATTERN := darkSquares;
whiteLeftPawnAttacks := whiteLeft;
whiteRightPawnAttacks := whiteRight;
blackLeftPawnAttacks := blackLeft;
blackRightPawnAttacks := blackRight;
horizontalAttacks := line 1 0;
verticalAttacks := line 0 1;
diagonalAttacks := line 1 1;
antiDiagonalAttacks := line 1 (-1);
isSingleRepetition := fun l =>
  match l with
  | [] => false
  | h :: _ => (2 <=? occursIn h l)%nat
  end;
isThreefoldRepetion := fun l =>
  match l with
  | [] => false
  | h :: _ => (3 <=? occursIn h l)%nat
  end
|}.

Lemma sample_pawnAttacksSound : pawnAttacksSound sampleExternals.
Proof.
intros x pos. cbn [whiteLeftPawnAttacks whiteRightPawnAttacks blackLeftPawnAttacks
                   blackRightPawnAttacks sampleExternals].
unfold whiteLeft, whiteRight, blackLeft, blackRight, u64.
assert (Hand : forall m q, Z.testbit (Z.land x m) q = true -> Z.testbit x q = true).
{ intros m q H. rewrite Z.land_spec in H. apply andb_true_iff in H. apply H. }
assert (Hneg : forall y q, q < 0 -> Z.testbit y q = true -> False).
{ intros y q Hq H. rewrite Z.testbit_neg_r in H by exact Hq. discriminate. }
repeat split; intros H.
- destruct (Z.lt_ge_cases pos 0) as [Hn | Hn]; [destruct (Hneg _ _ Hn H) |].
  rewrite Z.shiftr_spec in H by exact Hn. apply (Hand _ _ H).
- destruct (Z.lt_ge_cases pos 0) as [Hn | Hn]; [destruct (Hneg _ _ Hn H) |].
  rewrite Z.shiftr_spec in H by exact Hn. apply (Hand _ _ H).
- destruct (Z.lt_ge_cases pos 0) as [Hn | Hn]; [destruct (Hneg _ _ Hn H) |].
  rewrite Z.testbit_mod_pow2 in H by lia.
  apply andb_true_iff in H. destruct H as [_ H].
  rewrite Z.shiftl_spec in H by exact Hn. apply (Hand _ _ H).
- destruct (Z.lt_ge_cases pos 0) as [Hn | Hn]; [destruct (Hneg _ _ Hn H) |].
  rewrite Z.testbit_mod_pow2 in H by lia.
  apply andb_true_iff in H. destruct H as [_ H].
  rewrite Z.shiftl_spec in H by exact Hn. apply (Hand _ _ H).
Qed.

(** The input vector of the initial position: Black on ranks 0 and 1,
  White on ranks 6 and 7, clock 0, count 0, all castling rights. *)
Definition startInput : list Z :=
[-4; -2; -3; -5; -6; -3; -2; -4;
 -1; -1; -1; -1; -1; -1; -1; -1;
  0;  0;  0;  0;  0;  0;  0;  0;
  0;  0;  0;  0;  0;  0;  0;  0;
  0;  0;  0;  0;  0;  0;  0;  0;
  0;  0;  0;  0;  0;  0;  0;  0;
  1;  1;  1;  1;  1;  1;  1;  1;
  4;  2;  3;  5;  6;  3;  2;  4;
  0; 0; ALL_CASTLING_RIGHTS].

(** An input vector with the given pieces on otherwise empty squares. *)
Definition inputWith (pieces : list (Z * Z)) (clock count state : Z) : list Z :=
fold_left (fun l '(pos, piece) => setZ l pos piece) pieces (replicate 64 0)
++ [clock; count; state].

(** The board of an input vector; the empty board when construction fails. *)
Definition boardOf (input : list Z) : Board :=
match Board_constructor sampleExternals input with
| inr b => b
| inl _ => freshBoard 67
end.

Definition startBoard : Board := boardOf startInput.

(** A White pawn on square 8, one step from promotion. *)
Definition promotionBoard : Board :=
boardOf (inputWith [(60, 6); (4, -6); (8, 1)] 0 0 0).

(** Four pawns and four other pieces; the White pawn on 48 can take the
  Black pawn on 41. *)
Definition captureBoard : Board :=
boardOf (inputWith [(60, 6); (56, 4); (63, 4); (57, 2); (58, 3); (48, 1); (49, 1);
                    (4, -6); (8, -1); (41, -1)] 0 0 0).

(** The White knight on 44 can take the Black pawn on 27, which the Black
  pawn on 18 defends. *)
Definition exchangeBoard : Board :=
boardOf (inputWith [(60, 6); (44, 2); (4, -6); (27, -1); (18, -1)] 0 0 0).

(** King and bishop against king, 70 half moves after the last capture. *)
Definition bishopEndingBoard : Board :=
boardOf (inputWith [(60, 6); (58, 3); (4, -6)] 70 140 0).

(** King and bishop against king and bishop, both bishops on light
  squares. *)
Definition bishopsBoard : Board :=
boardOf (inputWith [(60, 6); (59, 3); (4, -6); (2, -3)] 0 0 0).

End Sample.

(* ------------------------------------------------------------------ *)
(** ** Facts about construction, the end game flag and the draw rules *)

Lemma findIndexFrom_none p l : forall i,
  0 <= i -> (findIndexFrom p l i = -1 <-> forall x, List.In x l -> p x = false).
Proof.
  induction l as [| a l IH]; intros i Hi; cbn [findIndexFrom].
  - split; [intros _ x [] | reflexivity].
  - destruct (p a) eqn:Ea.
    + split; [lia |]. intros H. rewrite (H a) in Ea by (left; reflexivity). discriminate.
    + rewrite IH by lia. split.
      * intros H x [<- | Hx]; [exact Ea | apply H; exact Hx].
      * intros H x Hx. apply H. right. exact Hx.
Qed.

Lemma findIndex_none p l :
  findIndex p l = -1 <-> forall x, List.In x l -> p x = false.
Proof. apply findIndexFrom_none. lia. Qed.

Lemma findIndex_king_missing k l :
  findIndex (fun piece => piece =? k) l = -1 <-> ~ List.In k l.
Proof.
  rewrite findIndex_none. split.
  - intros H Hin. specialize (H k Hin). rewrite Z.eqb_refl in H. discriminate.
  - intros H x Hx. apply Z.eqb_neq. intros ->. contradiction.
Qed.

(** The position counts behind the end game flag: at most three pawns, or
    at most three pieces that are neither pawn nor king. *)
Definition countPieces (b : Board) (p : Z -> bool) : Z :=
  Z.of_nat (length (List.filter (fun s => p (getItem b s)) squares)).

Definition endGamePosition (b : Board) : bool :=
  (countPieces b (fun m => Z.abs m =? PAWN) <=? 3)
  || (countPieces b (fun m => (KNIGHT <=? Z.abs m) && (Z.abs m <=? QUEEN)) <=? 3).

Lemma filter_length_or {A} (f g : A -> bool) (l : list A) :
  (forall x, List.In x l -> f x && g x = false) ->
  length (List.filter (fun x => f x || g x) l)
  = (length (List.filter f l) + length (List.filter g l))%nat.
Proof.
  induction l as [| a l IH]; intros H; [reflexivity |].
  cbn [List.filter].
  pose proof (H a (or_introl eq_refl)) as Ha.
  assert (IH' := IH (fun x Hx => H x (or_intror Hx))).
  destruct (f a), (g a); cbn [orb andb length] in *; try discriminate; lia.
Qed.

(** On a coherent placement the population count of a piece bitboard is
    the number of squares the mailbox has the piece on. *)
Lemma popcnt_piece b piece :
  coherent (placement b) -> -6 <= piece <= 6 -> piece <> 0 ->
  popcnt (getBitBoard b piece) = countPieces b (fun m => m =? piece).
Proof.
  intros Hc Hr Hnz. unfold popcnt, countPieces. f_equal.
  apply filter_length_ext. intros s Hs. apply in_squares in Hs.
  unfold getBitBoard. change (bitBoardPieces b) with (pcs (placement b)).
  rewrite (coh_pcs_bits _ Hc) by lia. rewrite <- getItem_mail by lia.
  destruct (Z.eqb_spec (piece + 6) 6); [lia |]. cbn [negb andb].
  f_equal. lia.
Qed.

Lemma countPieces_ext b p q :
  (forall m, -6 <= m <= 6 -> p m = q m) -> coherent (placement b) ->
  countPieces b p = countPieces b q.
Proof.
  intros H Hc. unfold countPieces. f_equal. apply filter_length_ext.
  intros s Hs. apply in_squares in Hs. apply H.
  rewrite getItem_mail by lia. apply (coh_piece_range _ Hc). exact Hs.
Qed.

Lemma countPieces_or b p q :
  (forall m, p m && q m = false) ->
  countPieces b (fun m => p m || q m) = countPieces b p + countPieces b q.
Proof.
  intros H. unfold countPieces. rewrite <- Nat2Z.inj_add. f_equal.
  apply (filter_length_or (fun s => p (getItem b s)) (fun s => q (getItem b s))).
  intros s _. apply H.
Qed.

Lemma countPieces_range b p : 0 <= countPieces b p <= 64.
Proof.
  unfold countPieces.
  pose proof (List.filter_length_le (fun s => p (getItem b s)) squares) as H.
  change (length squares) with 64%nat in H. lia.
Qed.

Ltac bool_cases m :=
  let H := fresh in
  let Hm := fresh in
  intros m H;
  assert (m = -6 \/ m = -5 \/ m = -4 \/ m = -3 \/ m = -2 \/ m = -1 \/ m = 0
          \/ m = 1 \/ m = 2 \/ m = 3 \/ m = 4 \/ m = 5 \/ m = 6) as Hm
    by (clear - H; lia);
  clear H;
  repeat (destruct Hm as [-> | Hm]); try subst m; reflexivity.

(** Two tests for different pieces never hold together. *)
Ltac disjoint_cases :=
  let m := fresh "m" in
  intros m; cbv beta;
  match goal with
  | |- _ && (m =? ?k) = false =>
      destruct (Z.eqb_spec m k) as [-> | _]; [reflexivity | apply andb_false_r]
  end.

(** [updateEndGameStatus] sets the flag to the value of the predicate. *)
Lemma updateEndGameStatus_flag b :
  coherent (placement b) ->
  isEndGame (updateEndGameStatus b) = endGamePosition b.
Proof.
  intros Hc. unfold updateEndGameStatus, endGamePosition. cbv zeta.
  unfold PAWN, KNIGHT, BISHOP, ROOK, QUEEN. change (- (1)) with (-1).
  change (- (2)) with (-2). change (- (3)) with (-3). change (- (4)) with (-4).
  change (- (5)) with (-5).
  rewrite !popcnt_piece by (trivial; lia).
  assert (Ep : countPieces b (fun m => Z.abs m =? 1)
               = countPieces b (fun m => m =? 1) + countPieces b (fun m => m =? -1)).
  { rewrite <- countPieces_or by disjoint_cases.
    apply countPieces_ext; [| exact Hc]. bool_cases m. }
  assert (Eo : countPieces b (fun m => (2 <=? Z.abs m) && (Z.abs m <=? 5))
               = countPieces b (fun m => m =? 2) + countPieces b (fun m => m =? -2)
                 + countPieces b (fun m => m =? 3) + countPieces b (fun m => m =? -3)
                 + countPieces b (fun m => m =? 4) + countPieces b (fun m => m =? -4)
                 + countPieces b (fun m => m =? 5) + countPieces b (fun m => m =? -5)).
  { do 7 (rewrite <- countPieces_or by disjoint_cases).
    apply countPieces_ext; [| exact Hc]. bool_cases m. }
  rewrite Ep, Eo. clear Ep Eo. unfold isEndGame.
  repeat match goal with
         | |- context [countPieces b ?p] =>
             let n := fresh "n" in generalize (countPieces b p); intros n
         end.
  destruct (_ <=? 3); cbn [endgame set_endgame orb]; [reflexivity |].
  destruct (_ <=? 3); reflexivity.
Qed.

(** *** Insufficient material *)

Lemma bb_nonzero x :
  in_u64 x -> (x <> 0 <-> exists s, 0 <= s < 64 /\ Z.testbit x s = true).
Proof.
  intros Hx. split.
  - apply nonzero_has_bit. exact Hx.
  - intros (s & _ & Hb) ->. rewrite Z.bits_0 in Hb. discriminate.
Qed.

Lemma piece_bit b piece s :
  coherent (placement b) -> -6 <= piece <= 6 -> piece <> 0 -> 0 <= s < 64 ->
  Z.testbit (getBitBoard b piece) s = (getItem b s =? piece).
Proof.
  intros Hc Hr Hnz Hs. unfold getBitBoard.
  change (bitBoardPieces b) with (pcs (placement b)).
  rewrite (coh_pcs_bits _ Hc) by lia. rewrite <- getItem_mail by lia.
  destruct (Z.eqb_spec (piece + 6) 6); [lia |]. cbn [negb andb]. f_equal. lia.
Qed.

Lemma piece_range b piece : coherent (placement b) -> in_u64 (getBitBoard b piece).
Proof. intros Hc. apply (coh_pcs_range _ Hc). Qed.

(** A piece bitboard meets a mask iff the piece stands on a square of it. *)
Lemma piece_on_mask b piece mask :
  coherent (placement b) -> -6 <= piece <= 6 -> piece <> 0 ->
  negb (Z.land (getBitBoard b piece) mask =? 0) = true
  <-> exists s, 0 <= s < 64 /\ getItem b s = piece /\ Z.testbit mask s = true.
Proof.
  intros Hc Hr Hnz.
  rewrite negb_true_iff, Z.eqb_neq.
  rewrite (bb_nonzero _ (land_range _ mask (piece_range b piece Hc))).
  split; intros (s & Hs & H); exists s; (split; [exact Hs |]).
  - rewrite Z.land_spec, piece_bit in H by trivial.
    apply andb_true_iff in H. destruct H as [H1 H2]. apply Z.eqb_eq in H1. auto.
  - destruct H as [H1 H2]. rewrite Z.land_spec, piece_bit, H2 by trivial.
    rewrite andb_true_r. apply Z.eqb_eq. exact H1.
Qed.

Definition minorPiece (m : Z) : bool := (Z.abs m =? KNIGHT) || (Z.abs m =? BISHOP).

Definition kingPiece (m : Z) : bool := Z.abs m =? KING.

Definition occupiedSquare (m : Z) : bool := negb (m =? EMPTY).

Lemma minor_bitboards b :
  coherent (placement b) ->
  negb (Z.lor (Z.lor (Z.lor (getBitBoard b KNIGHT) (getBitBoard b (- KNIGHT)))
                     (getBitBoard b BISHOP))
              (getBitBoard b (- BISHOP)) =? 0) = true
  <-> exists s, 0 <= s < 64 /\ minorPiece (getItem b s) = true.
Proof.
  intros Hc. rewrite negb_true_iff, Z.eqb_neq.
  assert (Hr : in_u64 (Z.lor (Z.lor (Z.lor (getBitBoard b KNIGHT)
                 (getBitBoard b (- KNIGHT))) (getBitBoard b BISHOP))
                 (getBitBoard b (- BISHOP))))
    by (repeat apply lor_range; apply piece_range; exact Hc).
  rewrite (bb_nonzero _ Hr). unfold minorPiece, KNIGHT, BISHOP.
  change (- (2)) with (-2). change (- (3)) with (-3).
  split; intros (s & Hs & H); exists s; (split; [exact Hs |]).
  - rewrite !Z.lor_spec, !piece_bit in H by (trivial; lia).
    rewrite !orb_true_iff in H. rewrite orb_true_iff.
    destruct H as [[[H | H] | H] | H]; apply Z.eqb_eq in H; rewrite H; auto.
  - rewrite !Z.lor_spec, !piece_bit by (trivial; lia).
    pose proof (coh_piece_range _ Hc s Hs) as Hp. rewrite <- getItem_mail in Hp by lia.
    revert H Hp. generalize (getItem b s). clear. intros m H Hp.
    assert (Hm : m = -6 \/ m = -5 \/ m = -4 \/ m = -3 \/ m = -2 \/ m = -1 \/ m = 0
                 \/ m = 1 \/ m = 2 \/ m = 3 \/ m = 4 \/ m = 5 \/ m = 6) by lia.
    clear Hp.
    repeat (destruct Hm as [-> | Hm]); try subst m; try reflexivity; discriminate H.
Qed.

Lemma occupancy_count b :
  coherent (placement b) ->
  popcnt (Z.lor (getAllPieceBitBoard b WHITE) (getAllPieceBitBoard b BLACK))
  = countPieces b occupiedSquare.
Proof.
  intros Hc. unfold popcnt, countPieces. f_equal.
  apply filter_length_ext. intros s Hs. apply in_squares in Hs.
  unfold getAllPieceBitBoard, WHITE, BLACK, occupiedSquare, EMPTY.
  change (bitBoardAllPieces b) with (occ (placement b)).
  rewrite Z.lor_spec, !(coh_occ_bits _ Hc) by lia.
  rewrite <- getItem_mail by lia. cbn [Z.add Z.eqb negb andb Z.sub Z.pos_sub Z.opp].
  unfold sign. destruct (getItem b s); reflexivity.
Qed.

Lemma countPieces_pos b p :
  0 < countPieces b p -> exists s, 0 <= s < 64 /\ p (getItem b s) = true.
Proof.
  unfold countPieces. rewrite <- (Nat2Z.inj_lt 0), filter_length_pos.
  intros (s & Hs & Hp). exists s. split; [apply in_squares; exact Hs | exact Hp].
Qed.

Section InsufficientMaterial.

Context (E : Externals).

Definition onLight (s : Z) : bool := Z.testbit (LIGHT_COLORED_FIELD_PATTERN E) s.
Definition onDark (s : Z) : bool := Z.testbit (DARK_COLORED_FIELD_PATTERN E) s.

(** The positions the specification lists: two pieces; three pieces of
  which one is a knight or a bishop; four pieces with a White and a
  Black bishop on squares of the same colour. *)
Definition insufficientMaterial (b : Board) : Prop :=
countPieces b occupiedSquare = 2
\/ (countPieces b occupiedSquare = 3
    /\ exists s, 0 <= s < 64 /\ minorPiece (getItem b s) = true)
\/ (countPieces b occupiedSquare = 4
    /\ exists s t, 0 <= s < 64 /\ 0 <= t < 64
         /\ getItem b s = BISHOP /\ getItem b t = - BISHOP
         /\ ((onLight s = true /\ onLight t = true)
             \/ (onDark s = true /\ onDark t = true))).

Lemma isInsufficientMaterialDraw_spec b :
coherent (placement b) ->
isInsufficientMaterialDraw E b = true <-> insufficientMaterial b.
Proof.
intros Hc. unfold isInsufficientMaterialDraw, insufficientMaterial. cbv zeta.
rewrite (occupancy_count b Hc).
pose proof (minor_bitboards b Hc) as Hminor.
pose proof (piece_on_mask b BISHOP (LIGHT_COLORED_FIELD_PATTERN E) Hc) as HwL.
pose proof (piece_on_mask b (- BISHOP) (LIGHT_COLORED_FIELD_PATTERN E) Hc) as HbL.
pose proof (piece_on_mask b BISHOP (DARK_COLORED_FIELD_PATTERN E) Hc) as HwD.
pose proof (piece_on_mask b (- BISHOP) (DARK_COLORED_FIELD_PATTERN E) Hc) as HbD.
unfold BISHOP in HwL, HbL, HwD, HbD. change (- (3)) with (-3) in *.
specialize (HwL ltac:(lia) ltac:(lia)). specialize (HbL ltac:(lia) ltac:(lia)).
specialize (HwD ltac:(lia) ltac:(lia)). specialize (HbD ltac:(lia) ltac:(lia)).
fold BISHOP in HwL, HwD. change (-3) with (- BISHOP) in HbL, HbD.
revert Hminor HwL HbL HwD HbD.
generalize (countPieces b occupiedSquare). intros n.
generalize (negb (Z.lor (Z.lor (Z.lor (getBitBoard b KNIGHT) (getBitBoard b (- KNIGHT)))
                               (getBitBoard b BISHOP)) (getBitBoard b (- BISHOP)) =? 0)).
generalize (negb (Z.land (getBitBoard b BISHOP) (LIGHT_COLORED_FIELD_PATTERN E) =? 0)).
generalize (negb (Z.land (getBitBoard b (- BISHOP)) (LIGHT_COLORED_FIELD_PATTERN E) =? 0)).
generalize (negb (Z.land (getBitBoard b BISHOP) (DARK_COLORED_FIELD_PATTERN E) =? 0)).
generalize (negb (Z.land (getBitBoard b (- BISHOP)) (DARK_COLORED_FIELD_PATTERN E) =? 0)).
intros bD wD bL wL minor Hminor HwL HbL HwD HbD.
destruct (Z.eqb_spec n 2) as [-> | H2]; [split; auto |].
destruct (Z.eqb_spec n 3) as [-> | H3].
{ rewrite Hminor. split.
  - intros H. right. left. auto.
  - intros [H | [[_ H] | [H _]]]; [discriminate | exact H | discriminate]. }
destruct (Z.eqb_spec n 4) as [-> | H4].
{ rewrite orb_true_iff, !andb_true_iff, HwL, HbL, HwD, HbD. unfold onLight, onDark. split.
  - intros [[(s & Hs & Hps & Hms) (t & Ht & Hpt & Hmt)]
           | [(s & Hs & Hps & Hms) (t & Ht & Hpt & Hmt)]];
      right; right; (split; [reflexivity |]); exists s, t; auto 10.
  - intros [H | [[H _] | [_ (s & t & Hs & Ht & Hps & Hpt & Hcol)]]];
      [discriminate | discriminate |].
    destruct Hcol as [[Hl1 Hl2] | [Hd1 Hd2]]; [left | right];
      (split; [exists s | exists t]; auto). }
split; [discriminate |].
intros [H | [[H _] | [H _]]]; contradiction.
Qed.

(** Kings and at most one minor piece: the position has two or three
  pieces, and with three the third is a minor piece. *)
Lemma kings_and_minor_insufficient b :
coherent (placement b) ->
countPieces b kingPiece = 2 -> countPieces b minorPiece <= 1 ->
(forall s, 0 <= s < 64 -> occupiedSquare (getItem b s) = true ->
           kingPiece (getItem b s) || minorPiece (getItem b s) = true) ->
isInsufficientMaterialDraw E b = true.
Proof.
intros Hc Hk Hm Hall. apply isInsufficientMaterialDraw_spec; [exact Hc |].
assert (Et : countPieces b occupiedSquare
             = countPieces b kingPiece + countPieces b minorPiece).
{ rewrite <- countPieces_or.
  - unfold countPieces. f_equal. apply filter_length_ext.
    intros s Hs. apply in_squares in Hs.
    destruct (occupiedSquare (getItem b s)) eqn:Eo.
    + symmetry. apply Hall; trivial.
    + unfold occupiedSquare, EMPTY in Eo. apply negb_false_iff, Z.eqb_eq in Eo.
      rewrite Eo. reflexivity.
  - intros m. unfold kingPiece, minorPiece, KING, KNIGHT, BISHOP.
    destruct (Z.eqb_spec (Z.abs m) 6) as [-> | _]; reflexivity. }
pose proof (countPieces_range b minorPiece) as Hr.
unfold insufficientMaterial. rewrite Et, Hk.
assert (Hcase : countPieces b minorPiece = 0 \/ countPieces b minorPiece = 1)
  by (clear - Hm Hr; lia).
destruct Hcase as [H0 | H1]; [left; rewrite H0; reflexivity |].
right. left. split; [rewrite H1; reflexivity |].
apply countPieces_pos. rewrite H1. reflexivity.
Qed.

End InsufficientMaterial.

(** *** Further facts used below *)

(** After a bit is cleared at most 63 are left. *)
Lemma popcnt_cleared x pos : popcnt (Z.land x (not64 (bitAt pos))) < 64.
Proof.
  pose proof (land63_range pos) as Hr.
  assert (Hlt : (length (List.filter (Z.testbit (Z.land x (not64 (bitAt pos)))) squares)
                 < length (List.filter (fun _ : Z => true) squares))%nat).
  { apply filter_length_lt with (a := Z.land pos 63).
    - reflexivity.
    - apply in_squares. exact Hr.
    - rewrite Z.land_spec, testbit_not64 by lia. rewrite <- bitAt_land63.
      rewrite testbit_bitAt, Z.eqb_refl by trivial.
      rewrite andb_false_r. apply andb_false_r.
    - reflexivity. }
  unfold popcnt. revert Hlt.
  generalize (length (List.filter (Z.testbit (Z.land x (not64 (bitAt pos)))) squares)).
  intros n Hlt. change (length (List.filter (fun _ : Z => true) squares)) with 64%nat in Hlt.
  lia.
Qed.

(** The value [performMove] returns, by the kind of the move. *)
Lemma performResult_cases P pieceId start end_ :
  coherent P -> LegalOn (getZ (mail P)) pieceId start end_ ->
  let own := getZ (mail P) start in
  let target := getZ (mail P) end_ in
  let r := performResult start end_ P in
  (target <> 0 -> r = Z.abs target /\ 1 <= r <= 6)
  /\ (target = 0 -> Z.abs own = PAWN ->
      Z.abs (start - end_) = 7 \/ Z.abs (start - end_) = 9 -> r = EN_PASSANT_BIT)
  /\ (target = 0 ->
      ~ (Z.abs own = PAWN /\ (Z.abs (start - end_) = 7 \/ Z.abs (start - end_) = 9)) ->
      r = EMPTY).
Proof.
  intros Hcoh [Hs He Hown Htgt Hid Hshape Hking] own target r.
  pose proof (coh_mail_len P Hcoh) as Hm.
  pose proof (coh_piece_range P Hcoh end_ He) as Hre.
  assert (Hne : start <> end_).
  { intros ->. unfold sign in Htgt. clear - Htgt Hown. lia. }
  subst r. unfold performResult. cbv zeta. rewrite mail_pRemove.
  rewrite getZ_setZ by lia.
  destruct (Z.eqb_spec end_ start) as [Heq | _]; [congruence |].
  fold own target in Hown, Htgt, Hshape, Hre |- *. clearbody own target.
  unfold EMPTY, PAWN in *. change (- (1)) with (-1) in *.
  destruct (Z.eqb_spec target 0) as [Ht0 | Ht0]; cbn [negb].
  - destruct (Hshape Ht0) as (Hwp & Hbp). clear Hshape Hking Hid Htgt.
    split; [contradiction |].
    destruct (Z.eqb_spec own 1) as [Ho | Ho].
    + specialize (Hwp Ho). clear Hbp.
      destruct (Z.eqb_spec (start - end_) 16); [split; intros; lia |].
      destruct (Z.eqb_spec (start - end_) 7); [split; intros; try reflexivity; lia |].
      destruct (Z.eqb_spec (start - end_) 9); [split; intros; try reflexivity; lia |].
      split; intros; try reflexivity; lia.
    + destruct (Z.eqb_spec own (-1)) as [Ho' | Ho'].
      * specialize (Hbp Ho'). clear Hwp.
        destruct (Z.eqb_spec (start - end_) (-16)); [split; intros; lia |].
        destruct (Z.eqb_spec (start - end_) (-7)); [split; intros; try reflexivity; lia |].
        destruct (Z.eqb_spec (start - end_) (-9)); [split; intros; try reflexivity; lia |].
        split; intros; try reflexivity; lia.
      * split; intros; try reflexivity; lia.
  - rewrite abs32_small by lia.
    split; [intros _; lia |]. split; intros; contradiction.
Qed.

Section EvaluationFacts.

Context (E : Externals).

(** The adjustment at the end of [getScore]: up to half move 63 of the
  clock the score is scaled by [(64 - clock) / 64]; from half move 64 on
  it is divided by 64. *)
Lemma getScore_pawnless b :
in_i16 (halfMoveClock b) ->
pawnlessDrawLikely b (interpolatedScore E b) = true ->
let s := interpolatedScore E b in
let clock := getHalfMoveClock b in
100 < Z.abs s < 400
/\ (clock < 64 -> getScore E b = Z.quot (s * (64 - clock)) 64)
/\ (64 <= clock -> getScore E b = Z.quot s 64 /\ 1 <= Z.abs (getScore E b) <= 6).
Proof.
intros Hclock Hlikely s clock. unfold getScore. cbv zeta.
rewrite Hlikely. fold s.
unfold pawnlessDrawLikely in Hlikely. cbv zeta in Hlikely. fold s in Hlikely.
unfold PAWNLESS_DRAW_SCORE_LOW_THRESHOLD, PAWNLESS_DRAW_SCORE_HIGH_THRESHOLD,
  PAWNLESS_DRAW_CLOCK_THRESHOLD in *.
assert (Hs : 100 < Z.abs s < 400).
{ apply orb_true_iff in Hlikely.
  destruct Hlikely as [H | H]; rewrite !andb_true_iff in H;
    destruct H as ((_ & H1) & H2).
  - apply Z.ltb_lt in H1. apply Z.gtb_lt in H2. lia.
  - apply Z.gtb_lt in H1. apply Z.ltb_lt in H2. lia. }
clearbody s. clear Hlikely.
unfold getHalfMoveClock in *. subst clock. unfold in_i16 in Hclock.
change (2 ^ 15) with 32768 in Hclock.
assert (Hd : sub32 64 (halfMoveClock b) = 64 - halfMoveClock b).
{ unfold sub32. apply i32_small. unfold in_i32. lia. }
rewrite Hd. split; [exact Hs |].
assert (Hq : -6 <= Z.quot s 64 <= 6 /\ 1 <= Z.abs (Z.quot s 64)).
{ clear - Hs. Z.to_euclidean_division_equations. lia. }
split.
- intros Hc. destruct (Z.gtb_spec (64 - halfMoveClock b) 0) as [_ | Hle]; [| lia].
  unfold div32, mul32.
  assert (Hprod : Z.abs (s * (64 - halfMoveClock b)) < 400 * 32833).
  { rewrite Z.abs_mul. apply Z.mul_lt_mono_nonneg; lia. }
  rewrite (i32_small (s * _)) by (unfold in_i32; lia).
  apply i32_small. unfold in_i32.
  clear - Hprod. Z.to_euclidean_division_equations. lia.
- intros Hc. destruct (Z.gtb_spec (64 - halfMoveClock b) 0) as [Hgt | _]; [lia |].
  unfold div32. rewrite i32_small by (unfold in_i32; lia).
  split; [reflexivity | lia].
Qed.

End EvaluationFacts.

(* ------------------------------------------------------------------ *)
(** * The properties of the specification *)

Section SampleMoves.

Import Sample.

(** Three opening moves: e2-e4, e7-e5, Ng1-f3. *)
Definition openingMoves : list Move :=
[mkMove PAWN 52 36; mkMove PAWN 12 28; mkMove KNIGHT 62 45].

(** The promotion of the pawn on square 8 to a queen. *)
Definition promotionMove : Move := mkMove QUEEN 8 0.

End SampleMoves.

(** C1, as the specification states it, fails: when [undoMove] is given the
    piece id that was given to [performMove], a promotion is not taken
    back.  On the sample position with a White pawn on square 8 the move
    8 -> 0 with piece id QUEEN is legal; after [performMove] and
    [undoMove] with the same piece id the mailbox holds a queen on square
    8 where the pawn stood. *)
Lemma C1_same_piece_id_counterexample :
  goodBoardb Sample.promotionBoard = true
  /\ legalMoves Sample.sampleExternals [promotionMove] Sample.promotionBoard = true
  /\ (let '(b', done) :=
        performMoves Sample.sampleExternals samePieceId [promotionMove]
                     Sample.promotionBoard [] in
      let b'' := undoMoves Sample.sampleExternals done b' in
      getItem Sample.promotionBoard 8 = PAWN
      /\ getItem b'' 8 = QUEEN
      /\ observed b'' <> observed Sample.promotionBoard).
Proof.
  split; [vm_compute; reflexivity |]. split; [vm_compute; reflexivity |].
  destruct (performMoves Sample.sampleExternals samePieceId [promotionMove]
                         Sample.promotionBoard []) as [b' done] eqn:Ep.
  cbv zeta.
  assert (Eq : getItem (undoMoves Sample.sampleExternals done b') 8 = QUEEN).
  { replace b' with (fst (performMoves Sample.sampleExternals samePieceId [promotionMove]
                                        Sample.promotionBoard [])) by (rewrite Ep; reflexivity).
    replace done with (snd (performMoves Sample.sampleExternals samePieceId [promotionMove]
                                         Sample.promotionBoard [])) by (rewrite Ep; reflexivity).
    vm_compute. reflexivity. }
  split; [vm_compute; reflexivity |]. split; [exact Eq |].
  intros H.
  assert (H8 : getZ (o_mailbox (observed (undoMoves Sample.sampleExternals done b'))) 8
               = getZ (o_mailbox (observed Sample.promotionBoard)) 8)
    by (rewrite H; reflexivity).
  unfold observed in H8. cbn [o_mailbox] in H8.
  rewrite !getZ_take in H8 by lia.
  change (getZ (items ?x) 8) with (getItem x 8) in H8.
  rewrite Eq in H8. vm_compute in H8. discriminate H8.
Qed.

(** C1 (amended): for every well-formed board and every sequence of legal
    moves that fits into the history, performing the moves in order and
    taking them back in reverse order - each [undoMove] given the piece
    that stood on the start square before the move, the two squares and
    the value the matching [performMove] returned - leaves hash, both
    scores, state, half-move clock, mailbox, piece bitboards, occupancy
    bitboards and both cached king squares as they were. *)
Theorem C1_perform_undo_roundtrip (E : Externals) (ms : list Move) (b : Board) :
  goodBoard b ->
  historyCounter b + Z.of_nat (length ms) <= MAX_GAME_HALFMOVES ->
  legalMoves E ms b = true ->
  observed (undoMoves E (snd (performMoves E movedPiece ms b []))
                        (fst (performMoves E movedPiece ms b [])))
  = observed b.
Proof.
  intros Hg Hh Hl.
  apply similar_observed.
  - apply roundtrip_similar; assumption.
  - pose proof (roundtrip_similar E ms b Hg Hh Hl) as (Hlen & _).
    rewrite Hlen. apply (gb_len b Hg).
Qed.

Lemma C1_perform_undo_roundtrip_witness :
  goodBoard Sample.startBoard
  /\ legalMoves Sample.sampleExternals openingMoves Sample.startBoard = true
  /\ observed (undoMoves Sample.sampleExternals
                 (snd (performMoves Sample.sampleExternals movedPiece openingMoves
                                    Sample.startBoard []))
                 (fst (performMoves Sample.sampleExternals movedPiece openingMoves
                                    Sample.startBoard [])))
     = observed Sample.startBoard.
Proof.
  assert (Hg : goodBoard Sample.startBoard)
    by (apply goodBoardb_sound; vm_compute; reflexivity).
  assert (Hl : legalMoves Sample.sampleExternals openingMoves Sample.startBoard = true)
    by (vm_compute; reflexivity).
  split; [exact Hg |]. split; [exact Hl |].
  apply (C1_perform_undo_roundtrip Sample.sampleExternals openingMoves Sample.startBoard Hg);
    [vm_compute; discriminate | exact Hl].
Defined.

(** C2: for every legal move on a coherent board, [performMove] returns
    the magnitude of the captured piece (a value in 1..6) when the
    destination is occupied; the constant EN_PASSANT_BIT, the 32-bit value
    of [1 << 31], when a pawn moves diagonally to an empty square; and 0
    (EMPTY) for every other move to an empty square. *)
Theorem C2_performMove_result (E : Externals) (b : Board) (pieceId start end_ : Z) :
  67 <= lenZ (items b) -> coherent (placement b) ->
  legalMove b pieceId start end_ = true ->
  let r := snd (performMove E pieceId start end_ b) in
  (getItem b end_ <> EMPTY -> r = Z.abs (getItem b end_) /\ 1 <= r <= 6)
  /\ (getItem b end_ = EMPTY -> Z.abs (getItem b start) = PAWN ->
      Z.abs (start - end_) = 7 \/ Z.abs (start - end_) = 9 -> r = EN_PASSANT_BIT)
  /\ (getItem b end_ = EMPTY ->
      ~ (Z.abs (getItem b start) = PAWN
         /\ (Z.abs (start - end_) = 7 \/ Z.abs (start - end_) = 9)) ->
      r = EMPTY)
  /\ EN_PASSANT_BIT = i32 (Z.shiftl 1 31).
Proof.
  intros Hlen Hcoh Hlegal r.
  destruct (performMove E pieceId start end_ b) as [b' r'] eqn:Ep.
  destruct (performMove_effect E _ _ _ _ _ _ Hlen Hlegal Ep) as (_ & _ & _ & _ & Hr & _).
  pose proof (legalOn_placement b pieceId start end_ Hlegal) as HL.
  pose proof (lf_start _ _ _ _ HL) as Hs. pose proof (lf_end _ _ _ _ HL) as He.
  pose proof (performResult_cases (placement b) pieceId start end_ Hcoh HL) as Hc.
  cbv zeta in Hc. rewrite <- !getItem_mail in Hc by lia.
  subst r. cbn [snd]. rewrite Hr. unfold EMPTY in *.
  destruct Hc as (H1 & H2 & H3).
  split; [exact H1 |]. split; [exact H2 |]. split; [exact H3 |]. reflexivity.
Qed.

Lemma C2_performMove_result_witness :
  legalMove Sample.captureBoard PAWN 48 41 = true
  /\ snd (performMove Sample.sampleExternals PAWN 48 41 Sample.captureBoard) = PAWN.
Proof.
  split; [vm_compute; reflexivity |].
  assert (Hc : coherent (placement Sample.captureBoard))
    by (apply coherentb_sound; vm_compute; reflexivity).
  assert (Hlen : 67 <= lenZ (items Sample.captureBoard)) by (vm_compute; discriminate).
  assert (Hl : legalMove Sample.captureBoard PAWN 48 41 = true) by (vm_compute; reflexivity).
  destruct (C2_performMove_result Sample.sampleExternals Sample.captureBoard PAWN 48 41
              Hlen Hc Hl) as (H1 & _).
  apply H1. vm_compute. discriminate.
Defined.

(** C3: on every board reached through construction, [performMove],
    [undoMove], [performNullMove] and [undoNullMove], for every square:
    the mailbox entry is not 0 iff exactly one of the 12 piece bitboards
    has the bit of the square; this bitboard is the one of index
    [mailbox + 6], and the occupancy bitboard of index [sign mailbox + 1]
    has the bit too. *)
Theorem C3_bitboards_decompose_mailbox (E : Externals) (b : Board) (st : list Taken) :
  reachable E b st -> decomposed b.
Proof.
  intros H. apply coherent_decomposed.
  apply (stackOk_coherent st). apply (reachable_stackOk E b st H).
Qed.

Lemma C3_bitboards_decompose_mailbox_witness :
  decomposed (undoNullMove (performNullMove Sample.sampleExternals
                (fst (performMove Sample.sampleExternals PAWN 52 36 Sample.startBoard)))).
Proof.
  apply (C3_bitboards_decompose_mailbox Sample.sampleExternals _
           [TakenMove (mkPlayed (getItem Sample.startBoard 52) 52 36
              (snd (performMove Sample.sampleExternals PAWN 52 36 Sample.startBoard)))]).
  apply reach_undo_null. apply reach_null; [| vm_compute; reflexivity].
  apply reach_perform; [| vm_compute; reflexivity | vm_compute; reflexivity].
  apply (reach_construct _ Sample.startInput); vm_compute; reflexivity.
Defined.

(** C4: a pass of the exchange loop returns the running score, lowered by
    the trophy, as soon as the opponent has an attacker and the lowered
    score plus the value of this attacker is negative.  In particular,
    when a knight (value 320) takes a pawn (value 100) that a pawn of the
    opponent defends, [seeScore] returns 100 - 320 = -220. *)
Theorem C4_seeScore_losing_capture (E : Externals) (b : Board)
        (opponentColor from target : Z) :
  (forall score trophyPieceScore occupied,
     let attackerPos := findSmallestAttacker E b occupied opponentColor target in
     0 <= attackerPos ->
     add32 (sub32 score trophyPieceScore)
           (PIECE_VALUES E (abs32 (getItem b attackerPos))) < 0 ->
     seeIteration E b opponentColor target score trophyPieceScore occupied
     = SeeReturn (sub32 score trophyPieceScore))
  /\ (pawnAttacksSound E -> coherent (placement b) ->
      PIECE_VALUES E KNIGHT = 320 -> PIECE_VALUES E PAWN = 100 ->
      0 <= target < 64 ->
      pawnAttacked E b (Z.land (getOccupancyBitboard b) (not64 (bitAt from)))
                   opponentColor target = true ->
      seeScore E b opponentColor from target KNIGHT PAWN = Some (-220)).
Proof.
  assert (Hgen : forall score trophyPieceScore occupied,
     let attackerPos := findSmallestAttacker E b occupied opponentColor target in
     0 <= attackerPos ->
     add32 (sub32 score trophyPieceScore)
           (PIECE_VALUES E (abs32 (getItem b attackerPos))) < 0 ->
     seeIteration E b opponentColor target score trophyPieceScore occupied
     = SeeReturn (sub32 score trophyPieceScore)).
  { intros score trophy occupied attackerPos Hpos Hneg. unfold seeIteration. cbv zeta.
    fold attackerPos.
    destruct (Z.ltb_spec attackerPos 0) as [Hlt | _]; [lia |].
    destruct (Z.ltb_spec (add32 (sub32 score trophy)
                (PIECE_VALUES E (abs32 (getItem b attackerPos)))) 0) as [_ | Hge];
      [reflexivity | lia]. }
  split; [exact Hgen |].
  intros Hsound Hcoh Hknight Hpawn Htgt Hatt.
  unfold seeScore. cbv zeta. rewrite Hknight, Hpawn.
  change 64%nat with (S 63). cbn [seeLoop].
  destruct (pawnAttacked_attacker E b _ opponentColor target Hsound Hcoh Htgt Hatt)
    as (Hp & Hitem).
  rewrite (Hgen 100 320).
  - reflexivity.
  - lia.
  - rewrite abs32_small by (rewrite <- (Z.abs_eq 2147483648) by lia; unfold PAWN in Hitem; lia).
    rewrite Hitem, Hpawn. vm_compute. reflexivity.
Qed.

Lemma C4_seeScore_losing_capture_witness :
  pawnAttacked Sample.sampleExternals Sample.exchangeBoard
    (Z.land (getOccupancyBitboard Sample.exchangeBoard) (not64 (bitAt 44))) BLACK 27 = true
  /\ seeScore Sample.sampleExternals Sample.exchangeBoard BLACK 44 27 KNIGHT PAWN
     = Some (-220).
Proof.
  assert (Ha : pawnAttacked Sample.sampleExternals Sample.exchangeBoard
                 (Z.land (getOccupancyBitboard Sample.exchangeBoard) (not64 (bitAt 44)))
                 BLACK 27 = true) by (vm_compute; reflexivity).
  split; [exact Ha |].
  apply (C4_seeScore_losing_capture Sample.sampleExternals Sample.exchangeBoard BLACK 44 27).
  - exact Sample.sample_pawnAttacksSound.
  - apply coherentb_sound. vm_compute. reflexivity.
  - reflexivity.
  - reflexivity.
  - lia.
  - exact Ha.
Defined.

(** C5, as the specification states it, fails: with king and bishop
    against king, 70 half moves after the last capture, White has no
    pawns and the interpolated score is 353, between 100 and 400 in
    White's favour; [getScore] returns 353 / 64 = 5, not 0. *)
Lemma C5_clock_past_64_counterexample :
  getBitBoard Sample.bishopEndingBoard PAWN = 0
  /\ interpolatedScore Sample.sampleExternals Sample.bishopEndingBoard = 353
  /\ pawnlessDrawLikely Sample.bishopEndingBoard
       (interpolatedScore Sample.sampleExternals Sample.bishopEndingBoard) = true
  /\ getHalfMoveClock Sample.bishopEndingBoard = 70
  /\ getScore Sample.sampleExternals Sample.bishopEndingBoard = 5.
Proof. vm_compute. repeat split. Qed.

(** C5 (amended): when one side has no pawns and the interpolated score
    lies strictly between 100 and 400 in absolute value in favour of that
    side, [getScore] returns the interpolated score times (64 - clock)
    divided by 64 (rounded toward zero) as long as the half-move clock is
    below 64; from clock 64 on it returns the interpolated score divided
    by 64 (rounded toward zero), a value of magnitude 1 to 6 and never 0. *)
Theorem C5_pawnless_draw_adjustment (E : Externals) (b : Board) :
  in_i16 (halfMoveClock b) ->
  pawnlessDrawLikely b (interpolatedScore E b) = true ->
  let s := interpolatedScore E b in
  let clock := getHalfMoveClock b in
  (clock < 64 -> getScore E b = Z.quot (s * (64 - clock)) 64)
  /\ (64 <= clock ->
      getScore E b = Z.quot s 64 /\ 1 <= Z.abs (getScore E b) <= 6 /\ getScore E b <> 0).
Proof.
  intros Hc Hl s clock.
  destruct (getScore_pawnless E b Hc Hl) as (_ & H1 & H2).
  split; [exact H1 |].
  intros H64. destruct (H2 H64) as (Ha & Hb).
  split; [exact Ha |]. split; [exact Hb |]. lia.
Qed.

Lemma C5_pawnless_draw_adjustment_witness :
  in_i16 (halfMoveClock Sample.bishopEndingBoard)
  /\ pawnlessDrawLikely Sample.bishopEndingBoard
       (interpolatedScore Sample.sampleExternals Sample.bishopEndingBoard) = true
  /\ getScore Sample.sampleExternals Sample.bishopEndingBoard
     = Z.quot (interpolatedScore Sample.sampleExternals Sample.bishopEndingBoard) 64.
Proof.
  assert (Hc : in_i16 (halfMoveClock Sample.bishopEndingBoard))
    by (vm_compute; split; [discriminate | reflexivity]).
  assert (Hl : pawnlessDrawLikely Sample.bishopEndingBoard
                 (interpolatedScore Sample.sampleExternals Sample.bishopEndingBoard) = true)
    by (vm_compute; reflexivity).
  split; [exact Hc |]. split; [exact Hl |].
  destruct (C5_pawnless_draw_adjustment Sample.sampleExternals Sample.bishopEndingBoard Hc Hl)
    as (_ & H).
  apply H. vm_compute. discriminate.
Defined.

(** C6: [isEngineDraw] is the disjunction of the single repetition of the
    position history, a half-move clock of at least 100, and insufficient
    material.  On a coherent board [isInsufficientMaterialDraw] is true
    exactly when the board has two pieces; or three pieces, one of them a
    knight or a bishop; or four pieces with a White and a Black bishop on
    squares of the same colour.  In particular it is true when the board
    holds the two kings and at most one minor piece, and nothing else. *)
Theorem C6_engine_draw (E : Externals) (b : Board) :
  coherent (placement b) ->
  isEngineDraw E b
  = isSingleRepetition E (positionHistory b) || (getHalfMoveClock b >=? 100)
    || isInsufficientMaterialDraw E b
  /\ (isSingleRepetition E (positionHistory b) = true \/ 100 <= getHalfMoveClock b
      \/ insufficientMaterial E b -> isEngineDraw E b = true)
  /\ (isInsufficientMaterialDraw E b = true <-> insufficientMaterial E b)
  /\ (countPieces b kingPiece = 2 -> countPieces b minorPiece <= 1 ->
      (forall s, 0 <= s < 64 -> occupiedSquare (getItem b s) = true ->
                 kingPiece (getItem b s) || minorPiece (getItem b s) = true) ->
      isInsufficientMaterialDraw E b = true).
Proof.
  intros Hc.
  pose proof (isInsufficientMaterialDraw_spec E b Hc) as Hspec.
  split; [reflexivity |]. split; [| split; [exact Hspec |]].
  - unfold isEngineDraw, isFiftyMoveDraw. intros [H | [H | H]].
    + rewrite H. reflexivity.
    + replace (getHalfMoveClock b >=? 100) with true
        by (symmetry; apply Z.geb_le; exact H).
      apply orb_true_iff. left. apply orb_true_r.
    + apply Hspec in H. rewrite H. apply orb_true_r.
  - apply kings_and_minor_insufficient. exact Hc.
Qed.

Lemma C6_engine_draw_witness :
  coherent (placement Sample.bishopsBoard)
  /\ insufficientMaterial Sample.sampleExternals Sample.bishopsBoard
  /\ isEngineDraw Sample.sampleExternals Sample.bishopsBoard = true.
Proof.
  assert (Hc : coherent (placement Sample.bishopsBoard))
    by (apply coherentb_sound; vm_compute; reflexivity).
  destruct (C6_engine_draw Sample.sampleExternals Sample.bishopsBoard Hc)
    as (_ & H2 & H3 & _).
  assert (Hi : insufficientMaterial Sample.sampleExternals Sample.bishopsBoard)
    by (apply H3; vm_compute; reflexivity).
  split; [exact Hc |]. split; [exact Hi |].
  apply H2. right. right. exact Hi.
Defined.

(** C7, as the specification states it, fails: with pawns on squares 8
    and 48 (ranks 1 and 6 of the first file, legal pawn squares) no pawn
    has another pawn of its file within 4 ranks, and the penalty is 6;
    with pawns on squares 8 and 16 both pawns have such a partner, and
    the penalty is 6 again, not 12. *)
Lemma C7_rotation_wraps_counterexample :
  onPawnRanks (2 ^ 8 + 2 ^ 48) = true
  /\ countWithin4 (2 ^ 8 + 2 ^ 48) = 0
  /\ calcDoubledPawnPenalty (2 ^ 8 + 2 ^ 48) = 6
  /\ onPawnRanks (2 ^ 8 + 2 ^ 16) = true
  /\ countWithin4 (2 ^ 8 + 2 ^ 16) = 2
  /\ calcDoubledPawnPenalty (2 ^ 8 + 2 ^ 16) = 6.
Proof. vm_compute. repeat split. Qed.

(** C7 (amended): for every 64-bit pawn bitboard the doubled-pawn penalty
    is [popcnt (pawns & (rotr 8 | rotr 16 | rotr 24 | rotr 32)) * 6]; the
    population count is the number of pawns that have another pawn on
    their file 1 to 4 ranks further on, ranks counted cyclically modulo
    8; the penalty is positive iff some file holds two pawns. *)
Theorem C7_doubled_pawn_penalty (pawns : Z) :
  in_u64 pawns ->
  calcDoubledPawnPenalty pawns
  = popcnt (Z.land pawns (Z.lor (Z.lor (Z.lor (rotr pawns 8) (rotr pawns 16))
                                       (rotr pawns 24)) (rotr pawns 32)))
    * DOUBLED_PAWN_PENALTY
  /\ calcDoubledPawnPenalty pawns = countCyclicAhead pawns * DOUBLED_PAWN_PENALTY
  /\ (0 < calcDoubledPawnPenalty pawns <-> hasDoubledFile pawns).
Proof.
  intros Hp. unfold calcDoubledPawnPenalty. cbv zeta.
  rewrite doubled_distr, (doubled_count pawns Hp).
  pose proof (countCyclicAhead_pos pawns) as Hpos.
  assert (Hr : 0 <= countCyclicAhead pawns <= 64).
  { rewrite <- (doubled_count pawns Hp). apply popcnt_range. }
  revert Hpos Hr. generalize (countCyclicAhead pawns). intros n Hpos Hr.
  unfold DOUBLED_PAWN_PENALTY, mul32.
  rewrite (i32_small n) by (unfold in_i32; lia).
  rewrite i32_small by (unfold in_i32; lia).
  split; [reflexivity |]. split; [reflexivity |].
  rewrite <- Hpos. lia.
Qed.

Lemma C7_doubled_pawn_penalty_witness :
  in_u64 (2 ^ 8 + 2 ^ 48)
  /\ calcDoubledPawnPenalty (2 ^ 8 + 2 ^ 48)
     = countCyclicAhead (2 ^ 8 + 2 ^ 48) * DOUBLED_PAWN_PENALTY.
Proof.
  assert (H : in_u64 (2 ^ 8 + 2 ^ 48)) by (unfold in_u64; lia).
  split; [exact H |].
  apply (C7_doubled_pawn_penalty (2 ^ 8 + 2 ^ 48) H).
Defined.

(** C8, as the specification states it, fails: [performMove] does not
    recompute the end game flag.  On the sample position with four pawns
    and four other pieces the flag is 0; after the legal capture 48 x 41
    three pawns are left, so the predicate holds, and the flag is still
    0. *)
Lemma C8_flag_not_recomputed_counterexample :
  legalMove Sample.captureBoard PAWN 48 41 = true
  /\ isEndGame Sample.captureBoard = false
  /\ endGamePosition Sample.captureBoard = false
  /\ (let b' := fst (performMove Sample.sampleExternals PAWN 48 41 Sample.captureBoard) in
      endGamePosition b' = true /\ isEndGame b' = false).
Proof. vm_compute. repeat split. Qed.

(** C8 (amended): the end game flag has the value of the predicate
    "at most 3 pawns, or at most 3 pieces that are neither pawn nor king"
    right after [updateEndGameStatus] and right after construction;
    [performMove], [undoMove], [performNullMove] and [undoNullMove] leave
    the flag as it is. *)
Theorem C8_endgame_flag (E : Externals) :
  (forall b, coherent (placement b) ->
             isEndGame (updateEndGameStatus b) = endGamePosition b)
  /\ (forall input b, piecesInRange input = true -> Board_constructor E input = inr b ->
                      isEndGame b = endGamePosition b)
  /\ (forall b pieceId start end_,
        67 <= lenZ (items b) -> legalMove b pieceId start end_ = true ->
        endgame (fst (performMove E pieceId start end_ b)) = endgame b)
  /\ (forall b piece start end_ removedPieceId,
        67 <= lenZ (items b) -> undoInRange piece start end_ removedPieceId ->
        endgame (undoMove E piece start end_ removedPieceId b) = endgame b)
  /\ (forall b, 67 <= lenZ (items b) ->
                endgame (performNullMove E b) = endgame b
                /\ endgame (undoNullMove b) = endgame b).
Proof.
  split; [exact updateEndGameStatus_flag |].
  split; [| split; [| split]].
  - intros input b Hr Hb.
    destruct (Board_constructor_spec E input b Hr Hb) as (_ & _ & Hc & _).
    destruct (Board_constructor_last E input b Hb) as (x & ->).
    assert (Hx : coherent (placement x)).
    { assert (Ep : placement (updateEndGameStatus x) = placement x)
        by (unfold updateEndGameStatus; cbv zeta; destruct (_ <=? 3); reflexivity).
      rewrite <- Ep. exact Hc. }
    rewrite (updateEndGameStatus_flag x Hx).
    unfold endGamePosition, countPieces.
    assert (Ei : forall s, getItem (updateEndGameStatus x) s = getItem x s)
      by (intros s; unfold updateEndGameStatus; cbv zeta; destruct (_ <=? 3); reflexivity).
    f_equal; f_equal; f_equal; f_equal; apply List.filter_ext; intros s; rewrite Ei;
      reflexivity.
  - intros b pieceId start end_ Hlen Hl.
    destruct (performMove E pieceId start end_ b) as [b' r] eqn:Ep. cbn [fst].
    destruct (performMove_effect E _ _ _ _ _ _ Hlen Hl Ep) as (_ & _ & Hf & _).
    change (endgame b') with (f_endgame (frame b')). rewrite Hf.
    unfold performFrame. change (f_endgame (withPositions ?p ?F)) with (f_endgame F).
    destruct (performKings_rest pieceId start end_ (placement b)
                (withCount (i16 (f_count (frame b) + 1)) (frame b))) as (_ & _ & K).
    rewrite K. reflexivity.
  - intros b piece start end_ removedPieceId Hlen Hr.
    destruct (undoMove_spec E piece start end_ removedPieceId b Hlen Hr)
      as (_ & _ & Hf & _).
    cbv zeta in Hf.
    change (endgame (undoMove E piece start end_ removedPieceId b))
      with (f_endgame (frame (undoMove E piece start end_ removedPieceId b))).
    rewrite Hf. change (f_endgame (withCount ?c ?F)) with (f_endgame F).
    destruct (undoFrame_fields piece start (frame b)) as (_ & _ & K).
    rewrite K. reflexivity.
  - intros b Hlen. split.
    + destruct (performNullMove_spec E b Hlen) as (_ & _ & Hf & _).
      change (endgame (performNullMove E b)) with (f_endgame (frame (performNullMove E b))).
      rewrite Hf. reflexivity.
    + reflexivity.
Qed.

Lemma C8_endgame_flag_witness :
  coherent (placement Sample.captureBoard)
  /\ isEndGame (updateEndGameStatus
                  (fst (performMove Sample.sampleExternals PAWN 48 41 Sample.captureBoard)))
     = endGamePosition
         (fst (performMove Sample.sampleExternals PAWN 48 41 Sample.captureBoard))
  /\ endgame (fst (performMove Sample.sampleExternals PAWN 48 41 Sample.captureBoard))
     = endgame Sample.captureBoard.
Proof.
  destruct (C8_endgame_flag Sample.sampleExternals) as (H1 & _ & H3 & _).
  split; [apply coherentb_sound; vm_compute; reflexivity |].
  split.
  - apply H1. apply coherentb_sound. vm_compute. reflexivity.
  - apply H3; [vm_compute; discriminate | vm_compute; reflexivity].
Defined.

(** C9: construction fails exactly when the input vector has fewer than
    67 entries, or no entry +6 (White king), or no entry -6 (Black king);
    the error names the first of these that applies, in this order, and
    every error has a message.  In particular construction succeeds for
    every input of at least 67 entries with both kings among its 64
    square entries. *)
Theorem C9_construction_errors (E : Externals) (input : list Z) :
  ((exists e, Board_constructor E input = inl e)
   <-> lenZ input < 67 \/ ~ List.In KING input \/ ~ List.In (- KING) input)
  /\ (lenZ input < 67 ->
      Board_constructor E input = inl (InvalidBoardItemLength (lenZ input)))
  /\ (67 <= lenZ input -> ~ List.In KING input ->
      Board_constructor E input = inl WhiteKingMissing)
  /\ (67 <= lenZ input -> List.In KING input -> ~ List.In (- KING) input ->
      Board_constructor E input = inl BlackKingMissing)
  /\ (67 <= lenZ input ->
      (exists s, 0 <= s < 64 /\ getZ input s = KING) ->
      (exists s, 0 <= s < 64 /\ getZ input s = - KING) ->
      exists b, Board_constructor E input = inr b)
  /\ (forall e, errorMessage e <> EmptyString).
Proof.
  assert (Hw : findIndex isWhiteKing input = -1 <-> ~ List.In KING input)
    by apply findIndex_king_missing.
  assert (Hb : findIndex isBlackKing input = -1 <-> ~ List.In (- KING) input)
    by apply findIndex_king_missing.
  assert (Hcases :
    (lenZ input < 67 /\
       Board_constructor E input = inl (InvalidBoardItemLength (lenZ input)))
    \/ (67 <= lenZ input /\ ~ List.In KING input /\
          Board_constructor E input = inl WhiteKingMissing)
    \/ (67 <= lenZ input /\ List.In KING input /\ ~ List.In (- KING) input /\
          Board_constructor E input = inl BlackKingMissing)
    \/ (67 <= lenZ input /\ List.In KING input /\ List.In (- KING) input /\
          exists b, Board_constructor E input = inr b)).
  { unfold Board_constructor. cbv zeta.
    cbn [whiteKingIndex blackKingIndex set_whiteKingIndex set_blackKingIndex].
    unfold STATE_INDEX.
    destruct (Z.ltb_spec (lenZ input) (66 + 1)) as [Hlt | Hge]; [left; split; [lia | reflexivity] |].
    right.
    destruct (Z.eqb_spec (findIndex isWhiteKing input) (-1)) as [Ew | Ew].
    { left. split; [lia |]. split; [apply Hw; exact Ew | reflexivity]. }
    right.
    assert (Hinw : List.In KING input).
    { destruct (List.in_dec Z.eq_dec KING input) as [Hi | Hi]; [exact Hi |].
      apply Hw in Hi. contradiction. }
    destruct (Z.eqb_spec (findIndex isBlackKing input) (-1)) as [Eb | Eb].
    { left. split; [lia |]. split; [exact Hinw |].
      split; [apply Hb; exact Eb | reflexivity]. }
    right.
    assert (Hinb : List.In (- KING) input).
    { destruct (List.in_dec Z.eq_dec (- KING) input) as [Hi | Hi]; [exact Hi |].
      apply Hb in Hi. contradiction. }
    split; [lia |]. split; [exact Hinw |]. split; [exact Hinb |].
    eexists. reflexivity. }
  split; [| split; [| split; [| split; [| split]]]].
  - split.
    + intros (e & He).
      destruct Hcases as [(H1 & _) | [(_ & H2 & _) | [(_ & _ & H3 & _) | (_ & _ & _ & b & H4)]]];
        auto.
      rewrite H4 in He. discriminate.
    + intros Hor.
      destruct Hcases as [(_ & H1) | [(_ & _ & H2) | [(_ & _ & _ & H3) | (H4 & H5 & H6 & _)]]];
        eauto.
      destruct Hor as [H | [H | H]]; [lia | contradiction | contradiction].
  - intros Hlt.
    destruct Hcases as [(_ & H1) | [(H2 & _) | [(H3 & _) | (H4 & _)]]]; [exact H1 | lia ..].
  - intros Hge Hnw.
    destruct Hcases as [(H1 & _) | [(_ & _ & H2) | [(_ & H3 & _) | (_ & H4 & _)]]];
      [lia | exact H2 | contradiction | contradiction].
  - intros Hge Hinw Hnb.
    destruct Hcases as [(H1 & _) | [(_ & H2 & _) | [(_ & _ & _ & H3) | (_ & _ & H4 & _)]]];
      [lia | contradiction | exact H3 | contradiction].
  - intros Hge (s & Hs & Hks) (t & Ht & Hkt).
    assert (Hinw : List.In KING input) by (rewrite <- Hks; apply getZ_In; lia).
    assert (Hinb : List.In (- KING) input) by (rewrite <- Hkt; apply getZ_In; lia).
    destruct Hcases as [(H1 & _) | [(_ & H2 & _) | [(_ & _ & H3 & _) | (_ & _ & _ & H4)]]];
      [lia | contradiction | contradiction | exact H4].
  - intros [n | |]; discriminate.
Qed.

Lemma C9_construction_errors_witness :
  (exists b, Board_constructor Sample.sampleExternals Sample.startInput = inr b)
  /\ Board_constructor Sample.sampleExternals (replicate 67 0) = inl WhiteKingMissing.
Proof.
  destruct (C9_construction_errors Sample.sampleExternals Sample.startInput)
    as (_ & _ & _ & _ & H5 & _).
  destruct (C9_construction_errors Sample.sampleExternals (replicate 67 0))
    as (_ & _ & H3 & _).
  split.
  - apply H5.
    + vm_compute. discriminate.
    + exists 60. split; [lia | reflexivity].
    + exists 4. split; [lia | reflexivity].
  - apply H3.
    + vm_compute. discriminate.
    + intros Hin. apply list_elem_of_In, elem_of_replicate in Hin.
      destruct Hin as [Hin _]. discriminate Hin.
Defined.

(** C10: when the pawn attack functions name only squares a pawn attacks
    from, [seeScore] returns for every board and all arguments with a
    target square in 0..63, within the 64 passes the loop has room for:
    the local occupancy has at most 63 squares at the start, and every
    pass that does not return takes at least one square out of it and
    puts none in. *)
Theorem C10_seeScore_terminates (E : Externals) (b : Board)
        (opponentColor from target ownPieceId capturedPieceId : Z) :
  pawnAttacksSound E -> 0 <= target < 64 ->
  (exists v, seeScore E b opponentColor from target ownPieceId capturedPieceId = Some v)
  /\ (forall score trophyPieceScore occupied s t o,
        in_u64 occupied ->
        seeIteration E b opponentColor target score trophyPieceScore occupied
        = SeeContinue s t o ->
        popcnt o < popcnt occupied
        /\ (forall i, Z.testbit o i = true -> Z.testbit occupied i = true))
  /\ (forall fuel score trophyPieceScore occupied,
        in_u64 occupied -> popcnt occupied < Z.of_nat fuel ->
        exists v, seeLoop E fuel b opponentColor target score trophyPieceScore occupied
                  = Some v).
Proof.
  intros Hsound Htgt. split; [| split].
  - unfold seeScore. cbv zeta. apply seeLoop_returns; trivial.
    + apply land_range_r. apply not64_range.
    + change (Z.of_nat 64) with 64. apply popcnt_cleared.
  - intros score trophy occupied s t o Hocc Hstep.
    destruct (seeIteration_decreases E _ _ _ _ _ _ _ _ _ Hsound Hocc Htgt Hstep)
      as (_ & H1 & H2).
    split; assumption.
  - intros fuel score trophy occupied Hocc Hp.
    apply seeLoop_returns; trivial.
Qed.

Lemma C10_seeScore_terminates_witness :
  pawnAttacksSound Sample.sampleExternals
  /\ exists v, seeScore Sample.sampleExternals Sample.startBoard BLACK 52 12 PAWN PAWN
               = Some v.
Proof.
  split; [exact Sample.sample_pawnAttacksSound |].
  assert (Ht : 0 <= 12 < 64) by lia.
  destruct (C10_seeScore_terminates Sample.sampleExternals Sample.startBoard BLACK 52 12
              PAWN PAWN Sample.sample_pawnAttacksSound Ht) as (H & _).
  exact H.
Defined.
